(** * ncmdump-web: the NCM container decoders

    A shallow embedding of the two decoders of the repository,
    [scripts/ncmdump.js] (Node, function [dump]) and
    [src/lib/ncmdump-browser.ts] (browser, function [dumpNcm]), and the
    properties of the decoding pipeline: header gate, key box construction,
    metadata recovery, keystream decryption of the audio payload and output
    naming.

    Bytes are integers ([Z]) with the wrap-around of a [Uint8Array] store
    written out ([u8]); buffers are lists of them; offsets and lengths are
    JavaScript numbers that stay integral and far below 2^53, so they are
    plain [Z]; exceptions are a result type. *)

From Stdlib Require Import ZArith String Ascii Lia.
From stdpp Require Import base list strings gmap pretty sorting.

Local Open Scope Z_scope.

(** ** JavaScript values shared by both decoders *)

Module JS.

(** The exceptions the decoders can raise, by the class of the thrown
    object. [InvalidHeader] is the decoders' own [new Error('Invalid NCM
    header...')]; the others come from the runtime. *)
Inductive exn : Type :=
  | InvalidHeader      (* throw new Error('Invalid NCM header') *)
  | RangeError         (* readUInt32LE / getUint32 out of range, negative typed array length *)
  | DecipherError      (* node:crypto decipher.final() *)
  | InvalidCharacter   (* atob on a string that is not base64 *)
  | SyntaxError        (* JSON.parse *)
  | TypeError          (* property of null, call of a non-function *)
  | SystemError.       (* node:fs *)

Inductive result (A : Type) : Type :=
  | Ok (a : A)
  | Throw (e : exn).
Arguments Ok {A} a.
Arguments Throw {A} e.

#[global] Instance result_ret : MRet result := fun A a => Ok a.
#[global] Instance result_bind : MBind result := fun A B k r =>
  match r with
  | Ok a => k a
  | Throw e => Throw e
  end.
Arguments result_bind _ _ _ !_ /.
Arguments result_ret _ _ /.

(** A store into a [Uint8Array] keeps the low eight bits. *)
Definition u8 (z : Z) : Z := Z.land z 255.

Definition is_u8 (z : Z) : bool := (0 <=? z) && (z <? 256).

(** A buffer is well formed when every element is a byte. *)
Definition is_bytes (a : list Z) : bool := forallb is_u8 a.

Definition len (a : list Z) : Z := Z.of_nat (length a).

(** [a[i]] on a typed array: [None] is JavaScript's [undefined]. *)
Definition get (a : list Z) (i : Z) : option Z :=
  if i <? 0 then None else a !! Z.to_nat i.

(** [a[i]] where the index is known to be in range (the 256-entry key box
    under an index masked with [0xff]); an [undefined] read counts as 0,
    which is what [^] makes of it. *)
Definition at_ (a : list Z) (i : Z) : Z := default 0 (get a i).

(** A relative index of [subarray]/[slice], clamped as ECMAScript does. *)
Definition clamp_index (n i : Z) : Z :=
  if i <? 0 then Z.max (n + i) 0 else Z.min i n.

(** [a.subarray(start, end)] and [a.slice(start, end)]: both clamp their
    bounds to the array; neither throws. *)
Definition subarray (a : list Z) (start end_ : Z) : list Z :=
  let s := clamp_index (len a) start in
  let e := clamp_index (len a) end_ in
  take (Z.to_nat (e - s)) (drop (Z.to_nat s) a).

(** [a.subarray(start)] *)
Definition subarray_from (a : list Z) (start : Z) : list Z :=
  subarray a start (len a).

(** [for (let i = 0; i < a.length; i++) a[i] ^= mask] *)
Definition xor_mask (mask : Z) (a : list Z) : list Z :=
  foldl (fun a i => <[i := u8 (Z.lxor (a !!! i) mask)]> a) a (seq 0 (length a)).

End JS.
Import JS.

(** ** The key box (both decoders, "build key_box") *)

Module KeyBox.

(** The loop variables of the key scheduling loop. *)
Record state : Type := mk_state {
  keyBox : list Z;
  lastByte : Z;
  keyOffset : Z
}.

(** [for (let i = 0; i < 256; i++) keyBox[i] = i] *)
Definition identity_box : list Z :=
  foldl (fun box i => <[i := u8 (Z.of_nat i)]> box) (replicate 256 0) (seq 0 256).

Definition init : state :=
  {| keyBox := identity_box; lastByte := 0; keyOffset := 0 |}.

(** [(swap + lastByte + keyDecrypted[keyOffset]) & 0xff]: on an index out of
    range the read is [undefined], the sum is [NaN] and [NaN & 0xff] is 0. *)
Definition next_c (swap last : Z) (k : option Z) : Z :=
  match k with
  | Some k => Z.land (swap + last + k) 255
  | None => 0
  end.

(** One iteration of the loop body, for the index [i]. *)
Definition step (keyDecrypted : list Z) (st : state) (i : nat) : state :=
  let swap := at_ (keyBox st) (Z.of_nat i) in
  let c := next_c swap (lastByte st) (get keyDecrypted (keyOffset st)) in
  let keyOffset1 := keyOffset st + 1 in
  let keyOffset2 := if len keyDecrypted <=? keyOffset1 then 0 else keyOffset1 in
  let box1 := <[i := at_ (keyBox st) c]> (keyBox st) in
  let box2 := <[Z.to_nat c := swap]> box1 in
  {| keyBox := box2; lastByte := c; keyOffset := keyOffset2 |}.

Definition run (keyDecrypted : list Z) : state :=
  foldl (step keyDecrypted) init (seq 0 256).

Definition build_key_box (keyDecrypted : list Z) : list Z :=
  keyBox (run keyDecrypted).

End KeyBox.

(** ** The keystream decryption of the audio payload *)

Module Audio.

(** [keyBox[(keyBox[j] + keyBox[(keyBox[j] + j) & 0xff]) & 0xff]] *)
Definition key_at (keyBox : list Z) (j : Z) : Z :=
  let idx := Z.land (at_ keyBox j + at_ keyBox (Z.land (at_ keyBox j + j) 255)) 255 in
  at_ keyBox idx.

(** Browser, "decode audio data":
    [for (let i = 0; i < audioIn.length; i++) {
       const j = (i + 1) & 0xff; ...; audioOut[i] = audioIn[i] ^ keyBox[idx]; }]
    over [audioOut = new Uint8Array(audioIn.length)]. *)
Definition decode_audio (keyBox audioIn : list Z) : list Z :=
  foldl
    (fun audioOut i =>
       let j := Z.land (Z.of_nat i + 1) 255 in
       <[i := u8 (Z.lxor (audioIn !!! i) (key_at keyBox j))]> audioOut)
    (replicate (length audioIn) 0)
    (seq 0 (length audioIn)).

(** Node, the body of the chunk loop:
    [for (let i = 1; i <= len; i++) {
       const j = i & 0xff; ...; chunk[i - 1] = chunk[i - 1] ^ keyBox[idx]; }]
    Here [i] counts from the start of the chunk. *)
Definition decode_chunk (keyBox chunk : list Z) : list Z :=
  foldl
    (fun chunk i =>
       let j := Z.land (Z.of_nat i) 255 in
       <[(i - 1)%nat := u8 (Z.lxor (chunk !!! (i - 1)%nat) (key_at keyBox j))]> chunk)
    chunk
    (seq 1 (length chunk)).

(** Node, the chunk loop
    [for (let pos = offset; pos < data.length; pos += CHUNK) {
       const end = Math.min(pos + CHUNK, data.length);
       const chunk = Buffer.from(data.subarray(pos, end)); ...
       fs.writeSync(fd, chunk); }]
    returning the chunks in the order they are written. The loop is driven
    by [fuel]; [chunk_loop_fuel] shows that [length data] iterations are
    enough whenever [CHUNK >= 1]. *)
Fixpoint chunk_loop (fuel : nat) (CHUNK : Z) (keyBox data : list Z) (pos : Z)
  : list (list Z) :=
  match fuel with
  | O => []
  | S fuel =>
      if pos <? len data then
        let end_ := Z.min (pos + CHUNK) (len data) in
        let chunk := subarray data pos end_ in
        decode_chunk keyBox chunk :: chunk_loop fuel CHUNK keyBox data (pos + CHUNK)
      else []
  end.

(** What the chunk loop leaves in the output file: the chunks, appended. *)
Definition decode_chunked (CHUNK : Z) (keyBox data : list Z) (offset : Z) : list Z :=
  concat (chunk_loop (length data) CHUNK keyBox data offset).

(** The chunk size of [dump]. *)
Definition CHUNK : Z := 0x8000.

End Audio.

(** ** Strings

    A JavaScript string is modelled by [string], one character per code
    unit; the strings modelled are those whose code units are below 256. The
    decoders apply four string operations: hexadecimal printing of
    a buffer, [slice], [toLowerCase] and one regular expression. *)

Module Str.

Local Open Scope nat_scope.
Local Open Scope string_scope.

(** [s.slice(n)] for [n >= 0] *)
Definition slice_from (n : nat) (s : string) : string :=
  substring n (String.length s - n) s.

(** The digit [buf.toString('hex')] prints for a nibble. *)
Definition hex_digit (d : Z) : ascii :=
  default "0"%char (String.get (Z.to_nat d) "0123456789abcdef").

(** [buf.toString('hex')]: two lower-case digits per byte. *)
Fixpoint toString_hex (buf : list Z) : string :=
  match buf with
  | [] => ""
  | b :: rest =>
      String (hex_digit (Z.shiftr b 4)) (String (hex_digit (Z.land b 15)) (toString_hex rest))
  end.

(** The value of a hexadecimal digit, either case. *)
Definition hex_value (c : ascii) : option Z :=
  let n := Z.of_N (N_of_ascii c) in
  if (48 <=? n)%Z && (n <=? 57)%Z then Some (n - 48)%Z
  else if (65 <=? n)%Z && (n <=? 70)%Z then Some (n - 55)%Z
  else if (97 <=? n)%Z && (n <=? 102)%Z then Some (n - 87)%Z
  else None.

(** [Buffer.from(s, 'hex')]: pairs of digits, up to the first pair that is
    not hexadecimal. *)
Fixpoint from_hex (s : string) : list Z :=
  match s with
  | String h (String l rest) =>
      match hex_value h, hex_value l with
      | Some h, Some l => (16 * h + l)%Z :: from_hex rest
      | _, _ => []
      end
  | _ => []
  end.

(** [toLowerCase] of one code unit below 256: the letters A to Z, and the
    Latin-1 letters from U+00C0 to U+00DE other than the multiplication sign
    U+00D7, have their lower case 32 above; every other code unit below 256
    is its own lower case. *)
Definition lower (c : ascii) : ascii :=
  let n := N_of_ascii c in
  if ((65 <=? n) && (n <=? 90) || (192 <=? n) && (n <=? 222) && negb (n =? 215))%N
  then ascii_of_N (n + 32)
  else c.

(** [s.toLowerCase()] *)
Fixpoint toLowerCase (s : string) : string :=
  match s with
  | EmptyString => EmptyString
  | String c rest => String (lower c) (toLowerCase rest)
  end.

(** Whether the four code units [t] match [\.ncm] under the flag [i]: the
    dot is literal, each letter matches in either case. *)
Definition matches_dot_ncm (t : string) : bool :=
  match t with
  | String c0 (String c1 (String c2 (String c3 EmptyString))) =>
      Ascii.eqb c0 "."%char && Ascii.eqb (lower c1) "n"%char
      && Ascii.eqb (lower c2) "c"%char && Ascii.eqb (lower c3) "m"%char
  | _ => false
  end.

(** [s.replace(/\.ncm$/i, '')]: the pattern is anchored at the end of the
    string, so the only place it can match is the last four code units. *)
Definition replace_ncm_ext (s : string) : string :=
  let n := String.length s in
  if (4 <=? n)%nat && matches_dot_ncm (substring (n - 4) 4 s)
  then substring 0 (n - 4) s
  else s.

(** The code units of a binary string: [c.charCodeAt(0)] for each. *)
Fixpoint char_codes (s : string) : list Z :=
  match s with
  | EmptyString => []
  | String c rest => Z.of_N (N_of_ascii c) :: char_codes rest
  end.

End Str.

(** ** JSON values and the coercions applied to the metadata record *)

Module Json.

(** The value [JSON.parse] returns. A JSON number becomes a double, which
    this development does not interpret: the type of numbers is a
    parameter, and so are the two operations on it that a coercion needs. *)
#[warnings="-register-all"]
Inductive json (number : Type) : Type :=
  | JNull
  | JBool (b : bool)
  | JNumber (n : number)
  | JString (s : string)
  | JArray (items : list (json number))
  | JObject (fields : list (string * json number)).
Arguments JNull {number}.
Arguments JBool {number} b.
Arguments JNumber {number} n.
Arguments JString {number} s.
Arguments JArray {number} items.
Arguments JObject {number} fields.

Section Coercions.
Context {number : Type}.
Variable Number_truthy : number -> bool.
Variable Number_toString : number -> string.

(** The own property [key] of a parsed object: of several members with
    one name, [JSON.parse] keeps the last. *)
Fixpoint field (key : string) (fields : list (string * json number))
  : option (json number) :=
  match fields with
  | [] => None
  | (k, v) :: rest =>
      match field key rest with
      | Some v' => Some v'
      | None => if String.eqb k key then Some v else None
      end
  end.

(** [metaJson.format]: [None] is [undefined]. Reading a property of
    [null] throws; a primitive or an array has no property of that name. *)
Definition get_format (metaJson : json number) : result (option (json number)) :=
  match metaJson with
  | JNull => Throw TypeError
  | JObject fields => Ok (field "format" fields)
  | _ => Ok None
  end.

(** ToBoolean *)
Definition truthy (v : option (json number)) : bool :=
  match v with
  | None => false
  | Some JNull => false
  | Some (JBool b) => b
  | Some (JNumber n) => Number_truthy n
  | Some (JString s) => negb (String.eqb s "")
  | Some (JArray _) => true
  | Some (JObject _) => true
  end.

(** [metaJson.format || 'mp3'] *)
Definition or_mp3 (v : option (json number)) : json number :=
  match v with
  | Some v' => if truthy v then v' else JString "mp3"
  | None => JString "mp3"
  end.

(** ToString, which [+] applies to its right operand. An array prints its
    elements in order, separated by commas, [null] as nothing. An object is
    converted by the [toString] found on it: [Object.prototype.toString],
    which prints [[object Object]], unless the object has a member of that
    name of its own, which in a parsed record is never a function, and then
    the conversion throws a [TypeError]. *)
Fixpoint toString (v : json number) : result string :=
  match v with
  | JNull => Ok "null"
  | JBool true => Ok "true"
  | JBool false => Ok "false"
  | JNumber n => Ok (Number_toString n)
  | JString s => Ok s
  | JArray items =>
      let element (x : json number) : result string :=
        match x with
        | JNull => Ok ""
        | _ => toString x
        end in
      (fix join (items : list (json number)) : result string :=
         match items with
         | [] => Ok ""
         | [x] => element x
         | x :: rest =>
             s ← element x;
             t ← join rest;
             Ok (s ++ "," ++ t)
         end) items
  | JObject fields =>
      match field "toString" fields with
      | Some _ => Throw TypeError
      | None => Ok "[object Object]"
      end
  end%string.

End Coercions.

End Json.

(** ** The Node decoder: [dump] of [scripts/ncmdump.js] *)

Module Node.
Import Str Json KeyBox Audio.

(** The files of the file system, by path. *)
Abbreviation filesystem := (gmap string (list Z)).

(** What [dump] takes from Node and its standard modules. The cipher is
    [Buffer.concat([d.update(x), d.final()])] for
    [d = crypto.createDecipheriv('aes-128-ecb', key, null)], which throws
    when OpenSSL rejects the length or the padding.

    The last three members are what the operating system decides about the
    output file, which the model of the file system, having neither
    directories nor permissions nor a size limit, cannot tell:
    [openSync_error fs path] is the exception of [fs.openSync(path, 'w')],
    if it throws; [writeSync_outcome fs path chunk] is the exception of
    [fs.writeSync(fd, chunk)] or the number of bytes it reports written,
    which may be less than the chunk holds; [closeSync_error fs path] is the
    exception of [fs.closeSync(fd)], if it throws. *)
Class Runtime : Type := {
  number : Type;
  Number_truthy : number -> bool;
  Number_toString : number -> string;
  decipher_aes_128_ecb : list Z -> list Z -> result (list Z);
  Buffer_toString_utf8 : list Z -> string;
  Buffer_from_base64 : string -> list Z;
  JSON_parse : string -> result (json number);
  path_basename : string -> string;
  path_dirname : string -> string;
  path_join : string -> string -> string;
  openSync_error : filesystem -> string -> option exn;
  writeSync_outcome : filesystem -> string -> list Z -> result nat;
  closeSync_error : filesystem -> string -> option exn
}.

(** [data.readUInt32LE(offset)]: a [RangeError] unless the four bytes exist. *)
Definition readUInt32LE (data : list Z) (offset : Z) : result Z :=
  match get data offset, get data (offset + 3) with
  | Some first, Some last =>
      Ok (first + at_ data (offset + 1) * 2 ^ 8 + at_ data (offset + 2) * 2 ^ 16
          + last * 2 ^ 24)
  | _, _ => Throw RangeError
  end.

Definition coreKey : list Z := from_hex "687A4852416D736F356B496E62617857".
Definition metaKey : list Z := from_hex "2331346C6A6B5F215C5D2630553C2728".

Section Dump.
Context `{Runtime}.

(** [fs.openSync(path, 'w')]: it throws and changes nothing, or the file is
    created or truncated. *)
Definition openSync_w (path : string) (fs : filesystem) : result filesystem :=
  match openSync_error fs path with
  | Some e => Throw e
  | None => Ok (<[path := []]> fs)
  end.

(** [fs.writeSync(fd, chunk)] on the descriptor opened for [path]: it
    throws and writes nothing, or appends the first [n] bytes of the chunk
    and returns [n]. *)
Definition writeSync (path : string) (fs : filesystem) (chunk : list Z)
  : result nat * filesystem :=
  match writeSync_outcome fs path chunk with
  | Throw e => (Throw e, fs)
  | Ok n => (Ok n, <[path := default [] (fs !! path) ++ take n chunk]> fs)
  end.

(** The chunk loop inside [try]: the chunks are written in order, the
    number each [writeSync] returns is dropped, and the first exception
    leaves the loop. The result is the pending exception, if any. *)
Fixpoint write_chunks (path : string) (fs : filesystem) (chunks : list (list Z))
  : option exn * filesystem :=
  match chunks with
  | [] => (None, fs)
  | chunk :: rest =>
      match writeSync path fs chunk with
      | (Throw e, fs) => (Some e, fs)
      | (Ok _, fs) => write_chunks path fs rest
      end
  end.

(** "header": the offset after the magic, or the decoder's own error. *)
Definition check_header (data : list Z) : result Z :=
  let offset := 0 in
  let header := subarray data offset (offset + 8) in
  let offset := offset + 8 in
  if String.eqb (toString_hex header) "4354454e4644414d"
  then Ok offset
  else Throw InvalidHeader.

(** The key block as handed to the cipher, and the offset after it. *)
Definition key_block (data : list Z) (offset keyLength : Z) : list Z * Z :=
  let keyDataXored := subarray data offset (offset + keyLength) in
  let offset := offset + keyLength in
  (xor_mask 0x64 keyDataXored, offset).

(** "key data" and "build key_box": the key box and the offset after the
    key block. *)
Definition read_key_box (data : list Z) (offset : Z) : result (list Z * Z) :=
  keyLength ← readUInt32LE data offset;
  let offset := offset + 4 in
  let '(keyDataXored, offset) := key_block data offset keyLength in
  plain ← decipher_aes_128_ecb coreKey keyDataXored;
  let keyDecrypted := subarray_from plain 17 in
  Ok (build_key_box keyDecrypted, offset).

(** The metadata block after the mask is removed, and the offset after it. *)
Definition meta_block (data : list Z) (offset metaLength : Z) : list Z * Z :=
  let metaDataXored := subarray data offset (offset + metaLength) in
  let offset := offset + metaLength in
  (xor_mask 0x63 metaDataXored, offset).

(** The four decoding steps applied to the unmasked metadata block. *)
Definition decode_meta (metaDataXored : list Z) : result (json number) :=
  let metaB64 := Buffer_toString_utf8 (subarray_from metaDataXored 22) in
  let metaEncrypted := Buffer_from_base64 metaB64 in
  metaPlain ← decipher_aes_128_ecb metaKey metaEncrypted;
  JSON_parse (slice_from 6 (Buffer_toString_utf8 metaPlain)).

(** "meta data": the metadata record and the offset after the block. *)
Definition read_meta (data : list Z) (offset : Z) : result (json number * Z) :=
  metaLength ← readUInt32LE data offset;
  let offset := offset + 4 in
  let '(metaDataXored, offset) := meta_block data offset metaLength in
  metaJson ← decode_meta metaDataXored;
  Ok (metaJson, offset).

(** "crc32 + unknown 5 + image": the offset of the audio payload. *)
Definition skip_image (data : list Z) (offset : Z) : result Z :=
  _ ← readUInt32LE data offset;
  let offset := offset + 4 in
  let offset := offset + 5 in
  imageSize ← readUInt32LE data offset;
  let offset := offset + 4 in
  Ok (offset + imageSize).

(** [metaJson.format || 'mp3'], as the string that [+] appends. *)
Definition format_of (metaJson : json number) : result string :=
  v ← get_format metaJson;
  toString Number_toString (or_mp3 Number_truthy v).

(** "output file name" *)
Definition out_file_name (filePath format : string) : string :=
  (replace_ncm_ext (path_basename filePath) ++ "." ++ format)%string.

(** Everything [dump] computes before it opens the output file: the key
    box, the offset of the payload and the output path. *)
Definition prepare (data : list Z) (filePath : string)
  : result (list Z * Z * string) :=
  offset ← check_header data;
  let offset := offset + 2 in
  '(keyBox, offset) ← read_key_box data offset;
  '(metaJson, offset) ← read_meta data offset;
  offset ← skip_image data offset;
  format ← format_of metaJson;
  let outFileName := out_file_name filePath format in
  let outPath := path_join (path_dirname filePath) outFileName in
  Ok (keyBox, offset, outPath).

(** [dump(filePath)] on the file system [fs]: the returned path or the
    exception, and the file system it leaves. The input is read whole before
    anything is written. After the open, [finally] closes the file whether
    the loop has thrown or not; an exception of the close replaces the
    pending one. *)
Definition dump (fs : filesystem) (filePath : string) : result string * filesystem :=
  match fs !! filePath with
  | None => (Throw SystemError, fs)
  | Some data =>
      match prepare data filePath with
      | Throw e => (Throw e, fs)
      | Ok (keyBox, offset, outPath) =>
          match openSync_w outPath fs with
          | Throw e => (Throw e, fs)
          | Ok fs =>
              let '(pending, fs) :=
                write_chunks outPath fs
                  (chunk_loop (length data) CHUNK keyBox data offset) in
              match closeSync_error fs outPath with
              | Some e => (Throw e, fs)
              | None =>
                  match pending with
                  | Some e => (Throw e, fs)
                  | None => (Ok outPath, fs)
                  end
              end
          end
      end
  end.

End Dump.

End Node.

(** ** The browser decoder: [dumpNcm] of [src/lib/ncmdump-browser.ts] *)

Module Browser.
Import Str Json KeyBox Audio.

(** A CryptoJS word array: 32-bit words and the number of significant bytes. *)
Record WordArray : Type := mk_WordArray {
  words : list Z;
  sigBytes : Z
}.

(** What [dumpNcm] takes from the browser and from CryptoJS. The cipher is
    [CryptoJS.AES.decrypt({ ciphertext }, CryptoJS.enc.Hex.parse(keyHex),
    { mode: ECB, padding: Pkcs7 })]. *)
Class Runtime : Type := {
  number : Type;
  Number_truthy : number -> bool;
  CryptoJS_AES_decrypt : WordArray -> string -> WordArray;
  atob : string -> result string;
  TextDecoder_decode : list Z -> string;
  JSON_parse : string -> result (json number)
}.

Record Blob : Type := mk_Blob {
  blob_parts : list Z;
  blob_type : string
}.

Record DumpResult (number : Type) : Type := mk_DumpResult {
  blob : Blob;
  filename : string;
  format : string;
  meta : json number
}.
Arguments mk_DumpResult {number} _ _ _ _.
Arguments blob {number} _.
Arguments filename {number} _.
Arguments format {number} _.
Arguments meta {number} _.

(** ToInt32 and ToUint32 of an integer. *)
Definition int32 (z : Z) : Z := (z + 2 ^ 31) mod 2 ^ 32 - 2 ^ 31.
Definition uint32 (z : Z) : Z := z mod 2 ^ 32.

(** [(b0 << 24) | (b1 << 16) | (b2 << 8) | b3] *)
Definition pack_word (b0 b1 b2 b3 : Z) : Z :=
  int32 (Z.lor (Z.lor (Z.lor (Z.shiftl b0 24) (Z.shiftl b1 16)) (Z.shiftl b2 8)) b3).

(** The words [u8ToWordArray] pushes: each turn of its loop takes the next
    four bytes, [?? 0] standing in for the ones past the end. *)
Fixpoint pack_words (u8 : list Z) : list Z :=
  match u8 with
  | [] => []
  | [b0] => [pack_word b0 0 0 0]
  | [b0; b1] => [pack_word b0 b1 0 0]
  | [b0; b1; b2] => [pack_word b0 b1 b2 0]
  | b0 :: b1 :: b2 :: b3 :: rest => pack_word b0 b1 b2 b3 :: pack_words rest
  end.

Definition u8ToWordArray (u8 : list Z) : WordArray :=
  {| words := pack_words u8; sigBytes := len u8 |}.

(** [wordArrayToU8]: [new Uint8Array(sigBytes)] throws on a negative
    length; a word past the end of [words] reads as [undefined], which
    [>>>] turns into 0. *)
Definition wordArrayToU8 (wa : WordArray) : result (list Z) :=
  if sigBytes wa <? 0 then Throw RangeError
  else
    let n := Z.to_nat (sigBytes wa) in
    Ok (foldl
          (fun out i =>
             let w := uint32 (at_ (words wa) (Z.shiftr (Z.of_nat i) 2)) in
             <[i := Z.land (Z.shiftr w (24 - (Z.of_nat i mod 4) * 8)) 255]> out)
          (replicate n 0) (seq 0 n)).

Definition CORE_KEY_HEX : string := "687A4852416D736F356B496E62617857".
Definition META_KEY_HEX : string := "2331346C6A6B5F215C5D2630553C2728".

(** [switch (format.toLowerCase())] *)
Definition mimeFromFormat (format : string) : string :=
  let f := toLowerCase format in
  if String.eqb f "mp3" then "audio/mpeg"
  else if String.eqb f "flac" then "audio/flac"
  else if String.eqb f "m4a" then "audio/mp4"
  else if String.eqb f "aac" then "audio/aac"
  else if String.eqb f "wav" then "audio/wav"
  else if String.eqb f "ogg" then "audio/ogg"
  else "application/octet-stream".

(** [view.getUint32(offset, true)]: a [RangeError] unless the four bytes
    lie inside the view. *)
Definition getUint32 (bytes : list Z) (offset : Z) : result Z :=
  if (0 <=? offset) && (offset + 4 <=? len bytes) then
    Ok (at_ bytes offset + at_ bytes (offset + 1) * 2 ^ 8
        + at_ bytes (offset + 2) * 2 ^ 16 + at_ bytes (offset + 3) * 2 ^ 24)
  else Throw RangeError.

Definition expected : list Z := [0x43; 0x54; 0x45; 0x4e; 0x46; 0x44; 0x41; 0x4d].

Section DumpNcm.
Context `{Runtime}.

Definition aes128EcbDecrypt (data : list Z) (keyHex : string) : result (list Z) :=
  let ciphertext := u8ToWordArray data in
  let decrypted := CryptoJS_AES_decrypt ciphertext keyHex in
  wordArrayToU8 decrypted.

(** "Header": [for (let i = 0; i < 8; i++) if (bytes[i] !== expected[i]) throw ...] *)
Definition check_header (bytes : list Z) : result Z :=
  let offset := 0 in
  if forallb (fun i => bool_decide (get bytes (Z.of_nat i) = expected !! i)) (seq 0 8)
  then Ok (offset + 8)
  else Throw InvalidHeader.

Definition key_block (bytes : list Z) (offset keyLength : Z) : list Z * Z :=
  let keyDataXored := subarray bytes offset (offset + keyLength) in
  let offset := offset + keyLength in
  (xor_mask 0x64 keyDataXored, offset).

(** "key data" and "build key_box" *)
Definition read_key_box (bytes : list Z) (offset : Z) : result (list Z * Z) :=
  keyLength ← getUint32 bytes offset;
  let offset := offset + 4 in
  let '(keyDataXored, offset) := key_block bytes offset keyLength in
  plain ← aes128EcbDecrypt keyDataXored CORE_KEY_HEX;
  let keyDecrypted := subarray_from plain 17 in
  Ok (build_key_box keyDecrypted, offset).

Definition meta_block (bytes : list Z) (offset metaLength : Z) : list Z * Z :=
  let metaDataXored := subarray bytes offset (offset + metaLength) in
  let offset := offset + metaLength in
  (xor_mask 0x63 metaDataXored, offset).

Definition decode_meta (metaDataXored : list Z) : result (json number) :=
  let metaB64 := TextDecoder_decode (subarray_from metaDataXored 22) in
  binary ← atob metaB64;
  let metaEncrypted := char_codes binary in
  metaPlain ← aes128EcbDecrypt metaEncrypted META_KEY_HEX;
  JSON_parse (slice_from 6 (TextDecoder_decode metaPlain)).

(** "meta data" *)
Definition read_meta (bytes : list Z) (offset : Z) : result (json number * Z) :=
  metaLength ← getUint32 bytes offset;
  let offset := offset + 4 in
  let '(metaDataXored, offset) := meta_block bytes offset metaLength in
  metaJson ← decode_meta metaDataXored;
  Ok (metaJson, offset).

(** "crc32 + unknown 5 + image" *)
Definition skip_image (bytes : list Z) (offset : Z) : result Z :=
  _ ← getUint32 bytes offset;
  let offset := offset + 4 in
  let offset := offset + 5 in
  imageSize ← getUint32 bytes offset;
  let offset := offset + 4 in
  Ok (offset + imageSize).

(** [(metaJson.format || 'mp3').toLowerCase()]: only a string has the
    method; calling it on another truthy value is a [TypeError]. *)
Definition format_of (metaJson : json number) : result string :=
  v ← get_format metaJson;
  match or_mp3 Number_truthy v with
  | JString s => Ok (toLowerCase s)
  | _ => Throw TypeError
  end.

(** [(opts?.sourceFileName || 'output.ncm').replace(/\.ncm$/i, '')] *)
Definition base_name (sourceFileName : option string) : string :=
  let name :=
    match sourceFileName with
    | Some s => if String.eqb s "" then "output.ncm" else s
    | None => "output.ncm"
    end in
  replace_ncm_ext name.

(** [dumpNcm(input, opts)]; [sourceFileName] is [opts?.sourceFileName],
    [None] when it is [undefined]. *)
Definition dumpNcm (input : list Z) (sourceFileName : option string)
  : result (DumpResult number) :=
  let bytes := input in
  offset ← check_header bytes;
  let offset := offset + 2 in
  '(keyBox, offset) ← read_key_box bytes offset;
  '(metaJson, offset) ← read_meta bytes offset;
  offset ← skip_image bytes offset;
  let audioIn := subarray_from bytes offset in
  let audioOut := decode_audio keyBox audioIn in
  format ← format_of metaJson;
  let base := base_name sourceFileName in
  let filename := (base ++ "." ++ format)%string in
  let blob := {| blob_parts := audioOut; blob_type := mimeFromFormat format |} in
  Ok {| blob := blob; filename := filename; format := format; meta := metaJson |}.

End DumpNcm.

End Browser.

(** ** The command line of the Node decoder: [expandPaths] and the main loop *)

Module Cli.
Import Str.

(** What the command line takes from Node besides the runtime of [dump]:
    the directory listing, the file test and the regular expression engine.
    [isFile p] is [fs.statSync(p).isFile()], which throws when [p] cannot be
    examined; [RegExp_test source s] is [new RegExp(source).test(s)]. *)
Class Host : Type := {
  readdirSync : string -> result (list string);
  isFile : string -> result bool;
  RegExp_test : string -> string -> bool
}.

(** [/[\*\?]/.test(arg)] *)
Fixpoint has_wildcard (arg : string) : bool :=
  match arg with
  | EmptyString => false
  | String c rest => Ascii.eqb c "*"%char || Ascii.eqb c "?"%char || has_wildcard rest
  end.

(** The character class [[.+^${}()|[\]\\]]; code 92 is the backslash. *)
Definition is_regexp_special (c : ascii) : bool :=
  existsb (Ascii.eqb c)
    ["."; "+"; "^"; "$"; "{"; "}"; "("; ")"; "|"; "["; "]"; "092"]%char.

(** [s.replace(/[.+^${}()|[\]\\]/g, '\\$&')]: a backslash before every
    character of the class. *)
Fixpoint escape_specials (s : string) : string :=
  match s with
  | EmptyString => EmptyString
  | String c rest =>
      if is_regexp_special c then String "092"%char (String c (escape_specials rest))
      else String c (escape_specials rest)
  end.

(** [s.replace(/\*/g, '.*')] *)
Fixpoint replace_stars (s : string) : string :=
  match s with
  | EmptyString => EmptyString
  | String c rest =>
      if Ascii.eqb c "*"%char then String "."%char (String "*"%char (replace_stars rest))
      else String c (replace_stars rest)
  end.

(** [s.replace(/\?/g, '.')] *)
Fixpoint replace_questions (s : string) : string :=
  match s with
  | EmptyString => EmptyString
  | String c rest =>
      String (if Ascii.eqb c "?"%char then "."%char else c) (replace_questions rest)
  end.

(** The source of the regular expression built for [pattern]:
    [`^${esc}$`]. *)
Definition regexp_source (pattern : string) : string :=
  let esc := replace_questions (replace_stars (escape_specials pattern)) in
  ("^" ++ esc ++ "$")%string.

(** The events the command line prints, by their kind and arguments:
    [Usage] and [Decoded] go to [console.log], the other two to
    [console.error]; the stack trace that follows a failure is not modelled. *)
Inductive event : Type :=
  | Usage
  | NoFilesMatched
  | Decoded (file out : string)
  | Failed (file : string) (e : exn).

(** How the process ends: [process.exit(code)], the end of the script, or
    an exception nothing catches. *)
Inductive outcome : Type :=
  | Exit (code : Z)
  | Completed
  | Uncaught (e : exn).

Section CommandLine.
Context `{Node.Runtime} `{Host}.

(** The callback of [entries.filter], over the entries in order: the file
    test is reached only for a name the expression matches, and its
    exception leaves [filter]. *)
Fixpoint filter_files (baseDir source : string) (entries : list string)
  : result (list string) :=
  match entries with
  | [] => Ok []
  | e :: rest =>
      keep ← (if RegExp_test source e then isFile (Node.path_join baseDir e) else Ok false);
      kept ← filter_files baseDir source rest;
      Ok (if keep : bool then e :: kept else kept)
  end.

(** [expandPaths(arg)] *)
Definition expandPaths (arg : string) : result (list string) :=
  if negb (has_wildcard arg) then Ok [arg]
  else
    let baseDir := Node.path_dirname arg in
    let pattern := Node.path_basename arg in
    let re := regexp_source pattern in
    match readdirSync baseDir with
    | Throw _ => Ok []
    | Ok entries =>
        match filter_files baseDir re entries with
        | Ok kept => Ok (map (Node.path_join baseDir) kept)
        | Throw e => Throw e
        end
    end.

(** [args.flatMap((a) => expandPaths(a))] *)
Fixpoint expand_all (args : list string) : result (list string) :=
  match args with
  | [] => Ok []
  | a :: rest =>
      paths ← expandPaths a;
      more ← expand_all rest;
      Ok (paths ++ more)
  end.

(** [for (const file of targets) { try { dump(file) ... } catch ... }]: the
    events printed and the file system left. *)
Fixpoint decode_all (targets : list string) (fs : Node.filesystem)
  : list event * Node.filesystem :=
  match targets with
  | [] => ([], fs)
  | file :: rest =>
      let '(r, fs) := Node.dump fs file in
      let ev :=
        match r with
        | Ok out => Decoded file out
        | Throw e => Failed file e
        end in
      let '(evs, fs) := decode_all rest fs in
      (ev :: evs, fs)
  end.

(** The script run as a program, on the arguments [process.argv.slice(2)]. *)
Definition main (args : list string) (fs : Node.filesystem)
  : outcome * list event * Node.filesystem :=
  match args with
  | [] => (Exit 1, [Usage], fs)
  | _ =>
      match expand_all args with
      | Throw e => (Uncaught e, [], fs)
      | Ok [] => (Exit 2, [NoFilesMatched], fs)
      | Ok targets =>
          let '(evs, fs) := decode_all targets fs in
          (Completed, evs, fs)
      end
  end.

End CommandLine.

End Cli.

(** ** The browser page: [dumpNcmFile] and [onFileChange] *)

Module App.

(** A [File]: its name and the bytes [arrayBuffer()] resolves to. *)
Record File : Type := mk_File {
  file_name : string;
  file_bytes : list Z
}.

(** What [onFileChange] does to the page, in order. *)
Inductive effect (number : Type) : Type :=
  | CreateObjectURL (b : Browser.Blob)
  | Click (download : string) (b : Browser.Blob)
  | RevokeObjectURL
  | ConsoleLog (format : string) (meta : Json.json number).
Arguments CreateObjectURL {number} b.
Arguments Click {number} download b.
Arguments RevokeObjectURL {number}.
Arguments ConsoleLog {number} format meta.

Section Page.
Context `{Browser.Runtime}.

(** [dumpNcmFile(file)]; a rejected promise is a thrown exception. *)
Definition dumpNcmFile (file : File) : result (Browser.DumpResult Browser.number) :=
  let buf := file_bytes file in
  Browser.dumpNcm buf (Some (file_name file)).

(** [onFileChange(e)] for [e.target.files] given as a list: nothing happens
    without a first file; an exception of the decoder leaves the handler
    before any effect. The link clicked carries the object URL of the blob
    and the download name. *)
Definition onFileChange (files : list File) : result (list (effect Browser.number)) :=
  match files with
  | [] => Ok []
  | file :: _ =>
      r ← dumpNcmFile file;
      Ok [CreateObjectURL (Browser.blob r);
          Click (Browser.filename r) (Browser.blob r);
          RevokeObjectURL;
          ConsoleLog (Browser.format r) (Browser.meta r)]
  end.

End Page.

End App.

(** ** A reference runtime

    Executable models of the library functions the decoders call, so that the
    decoders can be run on concrete containers. The disk of the reference
    runtime takes every file: no open, no write and no close throws, and a
    write writes its whole chunk. The theorems below hold for every runtime;
    the examples are evaluated in this one. *)

Module Reference.
Import Str Json.

(** *** AES-128 (FIPS 197), decryption direction *)

Module AES.

(** Multiplication by [x] in GF(2^8) modulo [x^8 + x^4 + x^3 + x + 1]. *)
Definition xtime (a : Z) : Z :=
  let b := Z.land (Z.shiftl a 1) 255 in
  if Z.testbit a 7 then Z.lxor b 0x1b else b.

Fixpoint gmul_bits (n : nat) (a b : Z) : Z :=
  match n with
  | O => 0
  | S n =>
      Z.lxor (if Z.testbit b 0 then a else 0) (gmul_bits n (xtime a) (Z.shiftr b 1))
  end.

Definition gmul (a b : Z) : Z := gmul_bits 8 a b.

(** The inverse in GF(2^8), [a^254], with 0 mapped to 0. *)
Definition ginv (a : Z) : Z :=
  let a2 := gmul a a in
  let a4 := gmul a2 a2 in
  let a8 := gmul a4 a4 in
  let a16 := gmul a8 a8 in
  let a32 := gmul a16 a16 in
  let a64 := gmul a32 a32 in
  let a128 := gmul a64 a64 in
  gmul a128 (gmul a64 (gmul a32 (gmul a16 (gmul a8 (gmul a4 a2))))).

Definition rotl8 (a : Z) (k : Z) : Z :=
  Z.land (Z.lor (Z.shiftl a k) (Z.shiftr a (8 - k))) 255.

(** The affine map of the S-box. *)
Definition sbox_of (a : Z) : Z :=
  let i := ginv a in
  Z.lxor (Z.lxor (Z.lxor (Z.lxor (Z.lxor i (rotl8 i 1)) (rotl8 i 2)) (rotl8 i 3)) (rotl8 i 4)) 0x63.

Definition sbox_table : list Z :=
  Eval vm_compute in (fun i => sbox_of (Z.of_nat i)) <$> seq 0 256.

Definition find_index (y : Z) (l : list Z) : Z :=
  default 0 ((fun p => Z.of_nat (fst p)) <$> list_find (fun x => x = y) l).

Definition inv_sbox_table : list Z :=
  Eval vm_compute in (fun i => find_index (Z.of_nat i) sbox_table) <$> seq 0 256.

Definition sbox (a : Z) : Z := at_ sbox_table a.
Definition inv_sbox (a : Z) : Z := at_ inv_sbox_table a.

Definition xor_bytes (a b : list Z) : list Z := zip_with Z.lxor a b.

(** The next word of the key schedule, from the previous word and the word
    four places back. *)
Definition next_word (i : nat) (prev back : list Z) : list Z :=
  if (i mod 4 =? 0)%nat then
    match prev with
    | [t0; t1; t2; t3] =>
        xor_bytes back [Z.lxor (sbox t1) (at_ [1; 2; 4; 8; 16; 32; 64; 128; 27; 54]
                                            (Z.of_nat (i / 4) - 1));
                        sbox t2; sbox t3; sbox t0]
    | _ => back
    end
  else xor_bytes back prev.

(** The 44 words of the expanded key, as 176 bytes. *)
Definition expand_key (key : list Z) : list Z :=
  foldl
    (fun w i =>
       w ++ next_word i (take 4 (drop (4 * (i - 1)) w)) (take 4 (drop (4 * (i - 4)) w)))
    key (seq 4 40).

Definition round_key (w : list Z) (r : nat) : list Z := take 16 (drop (16 * r) w).

(** The state is 16 bytes, column by column: byte [r + 4c] is row [r] of
    column [c]. *)
Definition inv_shift_rows (s : list Z) : list Z :=
  (fun i => let r := (i mod 4)%nat in let c := (i / 4)%nat in
            at_ s (Z.of_nat (r + 4 * ((c + 4 - r) mod 4)))) <$> seq 0 16.

Definition inv_sub_bytes (s : list Z) : list Z := inv_sbox <$> s.

Definition inv_mix_column (col : list Z) : list Z :=
  match col with
  | [a0; a1; a2; a3] =>
      [Z.lxor (Z.lxor (gmul a0 14) (gmul a1 11)) (Z.lxor (gmul a2 13) (gmul a3 9));
       Z.lxor (Z.lxor (gmul a0 9) (gmul a1 14)) (Z.lxor (gmul a2 11) (gmul a3 13));
       Z.lxor (Z.lxor (gmul a0 13) (gmul a1 9)) (Z.lxor (gmul a2 14) (gmul a3 11));
       Z.lxor (Z.lxor (gmul a0 11) (gmul a1 13)) (Z.lxor (gmul a2 9) (gmul a3 14))]
  | _ => col
  end.

Definition inv_mix_columns (s : list Z) : list Z :=
  inv_mix_column (take 4 s) ++ inv_mix_column (take 4 (drop 4 s))
  ++ inv_mix_column (take 4 (drop 8 s)) ++ inv_mix_column (take 4 (drop 12 s)).

(** The inverse cipher on one 16-byte block under the expanded key [w]. *)
Definition decrypt_block (w : list Z) (block : list Z) : list Z :=
  let s := xor_bytes block (round_key w 10) in
  let s :=
    foldl
      (fun s r =>
         inv_mix_columns (xor_bytes (inv_sub_bytes (inv_shift_rows s)) (round_key w r)))
      s [9; 8; 7; 6; 5; 4; 3; 2; 1]%nat in
  xor_bytes (inv_sub_bytes (inv_shift_rows s)) (round_key w 0).

(** Electronic codebook: the blocks of [data], each decrypted on its own.
    [blocks] is the number of 16-byte blocks to take; a last block that is
    short is filled with zeros. *)
Fixpoint decrypt_blocks (blocks : nat) (w : list Z) (data : list Z) : list Z :=
  match blocks with
  | O => []
  | S blocks =>
      let block := take 16 (data ++ replicate 16 0) in
      decrypt_block w block ++ decrypt_blocks blocks w (drop 16 data)
  end.

End AES.

(** *** Node: [crypto], [Buffer], [JSON], [path] *)

(** OpenSSL's check of the PKCS#7 padding of a decrypted buffer: the last
    byte [n] is between 1 and 16 and the last [n] bytes all equal [n]. *)
Definition pkcs7_unpad (plain : list Z) : option (list Z) :=
  let n := at_ plain (len plain - 1) in
  let body := (length plain - Z.to_nat n)%nat in
  if (1 <=? n) && (n <=? 16) && forallb (Z.eqb n) (drop body plain)
  then Some (take body plain)
  else None.

(** [Buffer.concat([d.update(data), d.final()])]: [final] throws "wrong
    final block length" unless [data] is a positive number of whole blocks,
    and "bad decrypt" when the padding is not PKCS#7. *)
Definition decipher_aes_128_ecb (key data : list Z) : result (list Z) :=
  if (len data =? 0) || negb (len data mod 16 =? 0) then Throw DecipherError
  else
    match pkcs7_unpad (AES.decrypt_blocks (length data / 16) (AES.expand_key key) data) with
    | Some plain => Ok plain
    | None => Throw DecipherError
    end.

(** The value of a base64 digit; Node also reads the URL-safe alphabet. *)
Definition b64_value (url : bool) (c : ascii) : option Z :=
  let n := Z.of_N (N_of_ascii c) in
  if (65 <=? n) && (n <=? 90) then Some (n - 65)
  else if (97 <=? n) && (n <=? 122) then Some (n - 71)
  else if (48 <=? n) && (n <=? 57) then Some (n + 4)
  else if (n =? 43) || (url && (n =? 45)) then Some 62
  else if (n =? 47) || (url && (n =? 95)) then Some 63
  else None.

(** The bytes of a sequence of 6-bit digits; bits left over are dropped. *)
Fixpoint sextets_to_bytes (d : list Z) : list Z :=
  match d with
  | d0 :: d1 :: d2 :: d3 :: rest =>
      Z.lor (Z.shiftl d0 2) (Z.shiftr d1 4)
      :: Z.lor (Z.shiftl (Z.land d1 15) 4) (Z.shiftr d2 2)
      :: Z.lor (Z.shiftl (Z.land d2 3) 6) d3
      :: sextets_to_bytes rest
  | [d0; d1; d2] =>
      [Z.lor (Z.shiftl d0 2) (Z.shiftr d1 4);
       Z.lor (Z.shiftl (Z.land d1 15) 4) (Z.shiftr d2 2)]
  | [d0; d1] => [Z.lor (Z.shiftl d0 2) (Z.shiftr d1 4)]
  | _ => []
  end.

(** The digits Node's decoder collects: it skips what is not a digit and
    stops at the first [=]. *)
Fixpoint node_sextets (s : string) : list Z :=
  match s with
  | EmptyString => []
  | String c rest =>
      if Ascii.eqb c "="%char then []
      else
        match b64_value true c with
        | Some d => d :: node_sextets rest
        | None => node_sextets rest
        end
  end.

(** [Buffer.from(s, 'base64')]; it never throws. *)
Definition Buffer_from_base64 (s : string) : list Z :=
  sextets_to_bytes (node_sextets s).

(** UTF-8 decoding, exact on ASCII text. A byte above 0x7F belongs to a
    sequence whose code units [string] cannot hold; it is shown as [?]. *)
Definition utf8_decode (bytes : list Z) : string :=
  string_of_list_ascii
    ((fun b => if b <? 128 then ascii_of_N (Z.to_N b) else "?"%char) <$> bytes).

(** *** A JSON reader for the reference runtime

    It reads objects, arrays, strings with the two-character escapes, the
    three literals and integers; a fraction, an exponent or a [\u] escape is
    reported as a syntax error, which [JSON.parse] would not do: the examples
    stay clear of them. *)
Module Parser.

Definition is_ws (c : ascii) : bool :=
  let n := N_of_ascii c in
  ((n =? 32) || (n =? 9) || (n =? 10) || (n =? 13))%N.

Fixpoint skip_ws (s : list ascii) : list ascii :=
  match s with
  | c :: rest => if is_ws c then skip_ws rest else s
  | [] => []
  end.

Definition is_digit (c : ascii) : bool :=
  let n := N_of_ascii c in ((48 <=? n) && (n <=? 57))%N.

(** The characters of a string up to its closing quote (code 34). *)
Fixpoint read_string (s : list ascii) : option (list ascii * list ascii) :=
  match s with
  | [] => None
  | c :: rest =>
      let n := N_of_ascii c in
      if (n =? 34)%N then Some ([], rest)
      else if (n <? 32)%N then None
      else if (n =? 92)%N then
        match rest with
        | e :: rest' =>
            let m := N_of_ascii e in
            let unescaped :=
              if (m =? 34)%N || (m =? 92)%N || (m =? 47)%N then Some e
              else if (m =? 98)%N then Some (ascii_of_N 8)
              else if (m =? 102)%N then Some (ascii_of_N 12)
              else if (m =? 110)%N then Some (ascii_of_N 10)
              else if (m =? 114)%N then Some (ascii_of_N 13)
              else if (m =? 116)%N then Some (ascii_of_N 9)
              else None in
            match unescaped, read_string rest' with
            | Some u, Some (str, rest'') => Some (u :: str, rest'')
            | _, _ => None
            end
        | [] => None
        end
      else
        match read_string rest with
        | Some (str, rest') => Some (c :: str, rest')
        | None => None
        end
  end.

(** The digits at the front of [s], as a number, and what follows them. *)
Fixpoint read_digits (acc : Z) (s : list ascii) : Z * list ascii :=
  match s with
  | c :: rest =>
      if is_digit c then read_digits (10 * acc + Z.of_N (N_of_ascii c) - 48) rest
      else (acc, s)
  | [] => (acc, [])
  end.

(** An integer: [0] or a digit from 1 to 9 followed by digits; anything
    that would continue the number is refused. *)
Definition read_int (s : list ascii) : option (Z * list ascii) :=
  match s with
  | c :: rest =>
      if is_digit c then
        let '(n, rest') := read_digits 0 s in
        let leading_zero := Ascii.eqb c "0"%char && negb (length s - length rest' =? 1)%nat in
        let continues :=
          match rest' with
          | d :: _ => Ascii.eqb d "."%char || Ascii.eqb d "e"%char || Ascii.eqb d "E"%char
          | [] => false
          end in
        if leading_zero || continues then None else Some (n, rest')
      else None
  | [] => None
  end.

Definition expect (word : string) (s : list ascii) : option (list ascii) :=
  let w := list_ascii_of_string word in
  if bool_decide (take (length w) s = w) then Some (drop (length w) s) else None.

Fixpoint value (fuel : nat) (s : list ascii) : option (json Z * list ascii) :=
  match fuel with
  | O => None
  | S fuel =>
      match skip_ws s with
      | [] => None
      | c :: rest =>
          let n := N_of_ascii c in
          if (n =? 34)%N then
            '(str, rest') ← read_string rest;
            Some (JString (string_of_list_ascii str), rest')
          else if (n =? 91)%N then
            match skip_ws rest with
            | d :: rest' =>
                if Ascii.eqb d "]"%char then Some (JArray [], rest')
                else '(items, rest'') ← elements fuel rest; Some (JArray items, rest'')
            | [] => None
            end
          else if (n =? 123)%N then
            match skip_ws rest with
            | d :: rest' =>
                if Ascii.eqb d "}"%char then Some (JObject [], rest')
                else '(fields, rest'') ← members fuel rest; Some (JObject fields, rest'')
            | [] => None
            end
          else if (n =? 45)%N then
            '(k, rest') ← read_int rest; Some (JNumber (- k), rest')
          else if is_digit c then
            '(k, rest') ← read_int (c :: rest); Some (JNumber k, rest')
          else if Ascii.eqb c "t"%char then rest' ← expect "rue" rest; Some (JBool true, rest')
          else if Ascii.eqb c "f"%char then rest' ← expect "alse" rest; Some (JBool false, rest')
          else if Ascii.eqb c "n"%char then rest' ← expect "ull" rest; Some (JNull, rest')
          else None
      end
  end
with elements (fuel : nat) (s : list ascii) : option (list (json Z) * list ascii) :=
  match fuel with
  | O => None
  | S fuel =>
      '(v, rest) ← value fuel s;
      match skip_ws rest with
      | c :: rest' =>
          if Ascii.eqb c ","%char then
            '(vs, rest'') ← elements fuel rest'; Some (v :: vs, rest'')
          else if Ascii.eqb c "]"%char then Some ([v], rest')
          else None
      | [] => None
      end
  end
with members (fuel : nat) (s : list ascii) : option (list (string * json Z) * list ascii) :=
  match fuel with
  | O => None
  | S fuel =>
      match skip_ws s with
      | q :: rest =>
          if (N_of_ascii q =? 34)%N then
            '(key, rest) ← read_string rest;
            match skip_ws rest with
            | c :: rest =>
                if Ascii.eqb c ":"%char then
                  '(v, rest) ← value fuel rest;
                  let member := (string_of_list_ascii key, v) in
                  match skip_ws rest with
                  | d :: rest' =>
                      if Ascii.eqb d ","%char then
                        '(ms, rest'') ← members fuel rest'; Some (member :: ms, rest'')
                      else if Ascii.eqb d "}"%char then Some ([member], rest')
                      else None
                  | [] => None
                  end
                else None
            | [] => None
            end
          else None
      | [] => None
      end
  end.

(** [JSON.parse(text)]. The fuel bounds the depth of the calls; a value
    nested in another lies at least one character further in the text and
    is reached through at most two calls. *)
Definition JSON_parse (text : string) : result (json Z) :=
  let s := list_ascii_of_string text in
  match value (2 * length s + 2) s with
  | Some (v, rest) =>
      match skip_ws rest with
      | [] => Ok v
      | _ => Throw SyntaxError
      end
  | None => Throw SyntaxError
  end.

End Parser.

(** *** POSIX paths, for a normalised directory and a plain file name *)

Definition is_slash (c : ascii) : bool := Ascii.eqb c "/"%char.

(** The components of a path: the text between slashes, in reverse order
    of appearance, the empty ones dropped. *)
Fixpoint split_path (cur : list ascii) (acc : list (list ascii)) (s : list ascii)
  : list (list ascii) :=
  let push := match cur with [] => acc | _ => rev cur :: acc end in
  match s with
  | [] => push
  | c :: rest => if is_slash c then split_path [] push rest else split_path (c :: cur) acc rest
  end.

(** [path.basename(p)]: the last component. *)
Definition path_basename (p : string) : string :=
  match split_path [] [] (list_ascii_of_string p) with
  | last :: _ => string_of_list_ascii last
  | [] => ""
  end.

(** [path.dirname(p)]: the path without its last component; [.] when
    nothing is left of a relative path, [/] of an absolute one. *)
Definition path_dirname (p : string) : string :=
  let s := list_ascii_of_string p in
  let absolute := match s with c :: _ => is_slash c | [] => false end in
  match split_path [] [] s with
  | _ :: (_ :: _) as dirs =>
      string_of_list_ascii
        ((if absolute then ["/"%char] else [])
         ++ foldl (fun acc d => match acc with [] => d | _ => d ++ "/"%char :: acc end)
              [] dirs)
  | _ => if absolute then "/" else "."
  end.

(** [path.join(dir, name)] *)
Definition path_join (dir name : string) : string :=
  if String.eqb dir "." then name
  else if String.eqb dir "/" then ("/" ++ name)%string
  else (dir ++ "/" ++ name)%string.

(** [String(n)] for an integer *)
Definition Number_toString (n : Z) : string := pretty.pretty n.

#[global] Instance node : Node.Runtime := {|
  Node.number := Z;
  Node.Number_truthy := fun n => negb (n =? 0);
  Node.Number_toString := Number_toString;
  Node.decipher_aes_128_ecb := decipher_aes_128_ecb;
  Node.Buffer_toString_utf8 := utf8_decode;
  Node.Buffer_from_base64 := Buffer_from_base64;
  Node.JSON_parse := Parser.JSON_parse;
  Node.path_basename := path_basename;
  Node.path_dirname := path_dirname;
  Node.path_join := path_join;
  Node.openSync_error := fun _ _ => None;
  Node.writeSync_outcome := fun _ _ chunk => Ok (length chunk);
  Node.closeSync_error := fun _ _ => None
|}.

(** *** Browser: CryptoJS, [atob], [TextDecoder], [JSON] *)

(** The bytes of [n] words, most significant first; a missing word is 0,
    as [undefined] is under [^]. *)
Definition word_bytes (ws : list Z) (n : nat) : list Z :=
  (fun i => Z.land (Z.shiftr (Browser.uint32 (at_ ws (Z.of_nat (i / 4))))
                      (24 - Z.of_nat (i mod 4) * 8)) 255) <$> seq 0 (4 * n).

(** CryptoJS decrypts every block of the data, the last one also when it is
    short, and removes as many bytes as the low byte of the word holding the
    last significant byte says, without looking at the padding. Of the key only
    the hexadecimal text is given. *)
Definition CryptoJS_AES_decrypt (ciphertext : Browser.WordArray) (keyHex : string)
  : Browser.WordArray :=
  let sig := Browser.sigBytes ciphertext in
  let nBlocksReady := Z.to_nat ((sig + 15) / 16) in
  let data := word_bytes (Browser.words ciphertext) (4 * nBlocksReady) in
  let processed :=
    Browser.pack_words (AES.decrypt_blocks nBlocksReady (AES.expand_key (from_hex keyHex)) data) in
  let nPaddingBytes :=
    if sig <=? 0 then 0 else Z.land (at_ processed (Z.shiftr (sig - 1) 2)) 255 in
  {| Browser.words := processed; Browser.sigBytes := sig - nPaddingBytes |}.

(** The ASCII whitespace [atob] removes first. *)
Definition is_ascii_ws (c : ascii) : bool :=
  let n := N_of_ascii c in
  ((n =? 9) || (n =? 10) || (n =? 12) || (n =? 13) || (n =? 32))%N.

Fixpoint strip_ws (s : list ascii) : list ascii :=
  match s with
  | [] => []
  | c :: rest => if is_ascii_ws c then strip_ws rest else c :: strip_ws rest
  end.

(** With a length that is a multiple of four, one or two [=] at the end go. *)
Definition strip_padding (s : list ascii) : list ascii :=
  if (length s mod 4 =? 0)%nat then
    match rev s with
    | a :: b :: rest =>
        if Ascii.eqb a "="%char then
          if Ascii.eqb b "="%char then rev rest else rev (b :: rest)
        else s
    | _ => s
    end
  else s.

(** [atob(s)], the forgiving base64 decoder of the HTML standard: after
    whitespace and padding are removed, a length of 1 modulo 4 or a
    character outside the alphabet is an [InvalidCharacterError]. *)
Definition atob (s : string) : result string :=
  let t := strip_padding (strip_ws (list_ascii_of_string s)) in
  if (length t mod 4 =? 1)%nat then Throw InvalidCharacter
  else
    match mapM (b64_value false) t with
    | Some digits =>
        Ok (string_of_list_ascii ((fun b => ascii_of_N (Z.to_N b)) <$> sextets_to_bytes digits))
    | None => Throw InvalidCharacter
    end.

#[global] Instance browser : Browser.Runtime := {|
  Browser.number := Z;
  Browser.Number_truthy := fun n => negb (n =? 0);
  Browser.CryptoJS_AES_decrypt := CryptoJS_AES_decrypt;
  Browser.atob := atob;
  Browser.TextDecoder_decode := utf8_decode;
  Browser.JSON_parse := Parser.JSON_parse
|}.

End Reference.

(** ** A reference host for the command line

    A matcher for the regular expressions [regexp_source] builds, and a
    host given by a table of directories. *)

Module ReferenceHost.
Import Str.

(** The pieces of such an expression: a literal character, [.] and [.*]. *)
Inductive token : Type :=
  | Lit (c : ascii)
  | AnyChar
  | AnyString.

(** The line terminators [.] does not match, among the code units of
    [string]: line feed and carriage return. *)
Definition is_line_terminator (c : ascii) : bool :=
  ((N_of_ascii c =? 10) || (N_of_ascii c =? 13))%N.

(** The pieces of a pattern body. A backslash must be followed by a
    character of the escaped class; a bare metacharacter other than [.] and
    the star after it puts the pattern outside what this matcher reads. *)
Fixpoint tokens (s : list ascii) : option (list token) :=
  match s with
  | [] => Some []
  | c :: rest =>
      if Ascii.eqb c "092"%char then
        match rest with
        | d :: rest' =>
            if Cli.is_regexp_special d then ts ← tokens rest'; Some (Lit d :: ts) else None
        | [] => None
        end
      else if Ascii.eqb c "."%char then
        match rest with
        | d :: rest' =>
            if Ascii.eqb d "*"%char then ts ← tokens rest'; Some (AnyString :: ts)
            else ts ← tokens rest; Some (AnyChar :: ts)
        | [] => Some [AnyChar]
        end
      else if Cli.is_regexp_special c || Ascii.eqb c "*"%char || Ascii.eqb c "?"%char
      then None
      else ts ← tokens rest; Some (Lit c :: ts)
  end.

(** Whether the pieces match the whole of [s]. *)
Fixpoint matches (ts : list token) (s : list ascii) : bool :=
  match ts with
  | [] => match s with [] => true | _ => false end
  | Lit c :: ts' =>
      match s with
      | x :: s' => Ascii.eqb x c && matches ts' s'
      | [] => false
      end
  | AnyChar :: ts' =>
      match s with
      | x :: s' => negb (is_line_terminator x) && matches ts' s'
      | [] => false
      end
  | AnyString :: ts' =>
      (fix any (s : list ascii) : bool :=
         matches ts' s
         || match s with
            | x :: s' => negb (is_line_terminator x) && any s'
            | [] => false
            end) s
  end.

(** [new RegExp(source).test(s)] for a source of the form [^body$]. *)
Definition RegExp_test (source s : string) : bool :=
  match list_ascii_of_string source with
  | c :: rest =>
      match rev rest with
      | d :: body =>
          if Ascii.eqb c "^"%char && Ascii.eqb d "$"%char then
            match tokens (rev body) with
            | Some ts => matches ts (list_ascii_of_string s)
            | None => false
            end
          else false
      | [] => false
      end
  | [] => false
  end.

(** The host whose directories and their entries are listed in [dirs];
    the entries named in [others] are not regular files. Reading a directory
    that is not listed throws, and so does the test of a path that is not an
    entry. *)
Definition host (dirs : list (string * list string)) (others : list string) : Cli.Host := {|
  Cli.readdirSync := fun dir =>
    match list_find (fun d => String.eqb d.1 dir = true) dirs with
    | Some (_, (_, entries)) => Ok entries
    | None => Throw SystemError
    end;
  Cli.isFile := fun p =>
    if existsb (fun d => existsb (fun e => String.eqb (Reference.path_join d.1 e) p) d.2) dirs
    then Ok (negb (existsb (String.eqb p) others))
    else Throw SystemError;
  Cli.RegExp_test := RegExp_test
|}.

End ReferenceHost.

(** ** Sample containers *)

Module Samples.

(** A container built with the two keys of the format: derived key
    [0123456789abcdef], metadata record with the single member [format] of
    value [FLAC], a two-byte image, and an eight-byte payload that decrypts
    to [66 4c 61 43 00 00 00 22]. *)
Definition flac_container : list Z :=
  [0x43; 0x54; 0x45; 0x4e; 0x46; 0x44; 0x41; 0x4d; 0x01; 0x70; 0x30; 0x00;
   0x00; 0x00; 0x2c; 0xce; 0xd5; 0xeb; 0x69; 0xea; 0xfb; 0x14; 0x55; 0x0d;
   0x45; 0xbf; 0x61; 0xdd; 0x17; 0x1d; 0x50; 0x8b; 0x9b; 0xd6; 0x59; 0xbd;
   0x58; 0xc7; 0xbe; 0x31; 0x17; 0xcb; 0xfb; 0xec; 0x58; 0x4d; 0xef; 0xc9;
   0xba; 0xdb; 0x23; 0x18; 0xc1; 0x7e; 0x86; 0x68; 0xb4; 0xa4; 0x56; 0x3e;
   0x7e; 0x5d; 0x42; 0x00; 0x00; 0x00; 0x52; 0x55; 0x50; 0x43; 0x08; 0x06;
   0x1a; 0x4b; 0x27; 0x0c; 0x0d; 0x44; 0x17; 0x43; 0x0e; 0x0c; 0x07; 0x0a;
   0x05; 0x1a; 0x4a; 0x59; 0x00; 0x26; 0x04; 0x17; 0x12; 0x2b; 0x1b; 0x14;
   0x13; 0x07; 0x31; 0x28; 0x00; 0x21; 0x20; 0x31; 0x33; 0x21; 0x0f; 0x33;
   0x08; 0x0e; 0x08; 0x3a; 0x0c; 0x5b; 0x22; 0x09; 0x17; 0x08; 0x0e; 0x19;
   0x10; 0x11; 0x0b; 0x24; 0x15; 0x10; 0x00; 0x15; 0x0b; 0x30; 0x2a; 0x5e;
   0x00; 0x00; 0x00; 0x00; 0x00; 0x00; 0x00; 0x00; 0x00; 0x02; 0x00; 0x00;
   0x00; 0x89; 0x50; 0x7b; 0xe3; 0xb6; 0x3a; 0xfa; 0xce; 0x0c; 0x09].

(** The same header and key block, followed by a metadata block whose
    base64 text is [!!!!], and the same payload. *)
Definition bad_meta_container : list Z :=
  [0x43; 0x54; 0x45; 0x4e; 0x46; 0x44; 0x41; 0x4d; 0x01; 0x70; 0x30; 0x00;
   0x00; 0x00; 0x2c; 0xce; 0xd5; 0xeb; 0x69; 0xea; 0xfb; 0x14; 0x55; 0x0d;
   0x45; 0xbf; 0x61; 0xdd; 0x17; 0x1d; 0x50; 0x8b; 0x9b; 0xd6; 0x59; 0xbd;
   0x58; 0xc7; 0xbe; 0x31; 0x17; 0xcb; 0xfb; 0xec; 0x58; 0x4d; 0xef; 0xc9;
   0xba; 0xdb; 0x23; 0x18; 0xc1; 0x7e; 0x86; 0x68; 0xb4; 0xa4; 0x56; 0x3e;
   0x7e; 0x5d; 0x1a; 0x00; 0x00; 0x00; 0x52; 0x55; 0x50; 0x43; 0x08; 0x06;
   0x1a; 0x4b; 0x27; 0x0c; 0x0d; 0x44; 0x17; 0x43; 0x0e; 0x0c; 0x07; 0x0a;
   0x05; 0x1a; 0x4a; 0x59; 0x42; 0x42; 0x42; 0x42; 0x00; 0x00; 0x00; 0x00;
   0x00; 0x00; 0x00; 0x00; 0x00; 0x00; 0x00; 0x00; 0x00; 0x7b; 0xe3; 0xb6;
   0x3a; 0xfa; 0xce; 0x0c; 0x09].

(** The first 19 bytes of [flac_container]: the key block announces 48
    bytes and 5 remain. *)
Definition truncated_key_container : list Z :=
  [0x43; 0x54; 0x45; 0x4e; 0x46; 0x44; 0x41; 0x4d; 0x01; 0x70; 0x30; 0x00;
   0x00; 0x00; 0x2c; 0xce; 0xd5; 0xeb; 0x69].

(** A container whose key block decrypts to the 17-byte tag alone, so that
    the derived key is empty; its metadata record has no member [format];
    the payload is four bytes. *)
Definition empty_key_container : list Z :=
  [0x43; 0x54; 0x45; 0x4e; 0x46; 0x44; 0x41; 0x4d; 0x01; 0x70; 0x20; 0x00;
   0x00; 0x00; 0x2c; 0xce; 0xd5; 0xeb; 0x69; 0xea; 0xfb; 0x14; 0x55; 0x0d;
   0x45; 0xbf; 0x61; 0xdd; 0x17; 0x1d; 0x36; 0x7f; 0x37; 0x1f; 0xc2; 0xbb;
   0xb0; 0xa1; 0xc7; 0x46; 0xb7; 0x51; 0x1b; 0x40; 0x63; 0x6b; 0x42; 0x00;
   0x00; 0x00; 0x52; 0x55; 0x50; 0x43; 0x08; 0x06; 0x1a; 0x4b; 0x27; 0x0c;
   0x0d; 0x44; 0x17; 0x43; 0x0e; 0x0c; 0x07; 0x0a; 0x05; 0x1a; 0x4a; 0x59;
   0x2e; 0x01; 0x48; 0x12; 0x4c; 0x25; 0x29; 0x12; 0x0a; 0x57; 0x32; 0x31;
   0x01; 0x24; 0x24; 0x25; 0x51; 0x5b; 0x04; 0x0c; 0x06; 0x5a; 0x2a; 0x27;
   0x3b; 0x31; 0x09; 0x4c; 0x14; 0x28; 0x48; 0x29; 0x19; 0x00; 0x37; 0x4c;
   0x10; 0x0e; 0x31; 0x16; 0x10; 0x07; 0x3a; 0x5e; 0x00; 0x00; 0x00; 0x00;
   0x00; 0x00; 0x00; 0x00; 0x00; 0x00; 0x00; 0x00; 0x00; 0xb6; 0x46; 0x36;
   0x0b].

(** [flac_container] with its first four bytes replaced by [49 44 33 03]. *)
Definition not_a_container : list Z :=
  [0x49; 0x44; 0x33; 0x03; 0x46; 0x44; 0x41; 0x4d; 0x01; 0x70; 0x30; 0x00;
   0x00; 0x00; 0x2c; 0xce; 0xd5; 0xeb; 0x69; 0xea; 0xfb; 0x14; 0x55; 0x0d;
   0x45; 0xbf; 0x61; 0xdd; 0x17; 0x1d; 0x50; 0x8b; 0x9b; 0xd6; 0x59; 0xbd;
   0x58; 0xc7; 0xbe; 0x31; 0x17; 0xcb; 0xfb; 0xec; 0x58; 0x4d; 0xef; 0xc9;
   0xba; 0xdb; 0x23; 0x18; 0xc1; 0x7e; 0x86; 0x68; 0xb4; 0xa4; 0x56; 0x3e;
   0x7e; 0x5d; 0x42; 0x00; 0x00; 0x00; 0x52; 0x55; 0x50; 0x43; 0x08; 0x06;
   0x1a; 0x4b; 0x27; 0x0c; 0x0d; 0x44; 0x17; 0x43; 0x0e; 0x0c; 0x07; 0x0a;
   0x05; 0x1a; 0x4a; 0x59; 0x00; 0x26; 0x04; 0x17; 0x12; 0x2b; 0x1b; 0x14;
   0x13; 0x07; 0x31; 0x28; 0x00; 0x21; 0x20; 0x31; 0x33; 0x21; 0x0f; 0x33;
   0x08; 0x0e; 0x08; 0x3a; 0x0c; 0x5b; 0x22; 0x09; 0x17; 0x08; 0x0e; 0x19;
   0x10; 0x11; 0x0b; 0x24; 0x15; 0x10; 0x00; 0x15; 0x0b; 0x30; 0x2a; 0x5e;
   0x00; 0x00; 0x00; 0x00; 0x00; 0x00; 0x00; 0x00; 0x00; 0x02; 0x00; 0x00;
   0x00; 0x89; 0x50; 0x7b; 0xe3; 0xb6; 0x3a; 0xfa; 0xce; 0x0c; 0x09].

(** The derived key of [flac_container] and of [bad_meta_container]. *)
Definition flac_key : list Z := Str.char_codes "0123456789abcdef".

(** Where the payload of [flac_container] begins. *)
Definition flac_payload_offset : Z := 147.


End Samples.

(** ** More sample containers, a runtime on a full disk and sample hosts *)

Module MoreSamples.

(** A container like [flac_container], without image, whose metadata
    record has the member [format] with the value [true]. *)
Definition boolean_format_container : list Z :=
  [0x43; 0x54; 0x45; 0x4e; 0x46; 0x44; 0x41; 0x4d; 0x01; 0x70; 0x30; 0x00;
   0x00; 0x00; 0x2c; 0xce; 0xd5; 0xeb; 0x69; 0xea; 0xfb; 0x14; 0x55; 0x0d;
   0x45; 0xbf; 0x61; 0xdd; 0x17; 0x1d; 0x50; 0x8b; 0x9b; 0xd6; 0x59; 0xbd;
   0x58; 0xc7; 0xbe; 0x31; 0x17; 0xcb; 0xfb; 0xec; 0x58; 0x4d; 0xef; 0xc9;
   0xba; 0xdb; 0x23; 0x18; 0xc1; 0x7e; 0x86; 0x68; 0xb4; 0xa4; 0x56; 0x3e;
   0x7e; 0x5d; 0x42; 0x00; 0x00; 0x00; 0x52; 0x55; 0x50; 0x43; 0x08; 0x06;
   0x1a; 0x4b; 0x27; 0x0c; 0x0d; 0x44; 0x17; 0x43; 0x0e; 0x0c; 0x07; 0x0a;
   0x05; 0x1a; 0x4a; 0x59; 0x00; 0x26; 0x04; 0x17; 0x12; 0x2b; 0x1b; 0x14;
   0x13; 0x07; 0x31; 0x28; 0x00; 0x21; 0x20; 0x31; 0x33; 0x21; 0x0f; 0x33;
   0x08; 0x15; 0x21; 0x2d; 0x32; 0x5a; 0x28; 0x07; 0x09; 0x22; 0x15; 0x31;
   0x2a; 0x11; 0x37; 0x3b; 0x2d; 0x56; 0x10; 0x05; 0x07; 0x32; 0x10; 0x5e;
   0x00; 0x00; 0x00; 0x00; 0x00; 0x00; 0x00; 0x00; 0x00; 0x00; 0x00; 0x00;
   0x00; 0x7b; 0xe3; 0xb6; 0x3a; 0xfa; 0xce; 0x0c; 0x09].

(** A container like [flac_container], without image, whose metadata
    text is the JSON literal [null]. *)
Definition null_meta_container : list Z :=
  [0x43; 0x54; 0x45; 0x4e; 0x46; 0x44; 0x41; 0x4d; 0x01; 0x70; 0x30; 0x00;
   0x00; 0x00; 0x2c; 0xce; 0xd5; 0xeb; 0x69; 0xea; 0xfb; 0x14; 0x55; 0x0d;
   0x45; 0xbf; 0x61; 0xdd; 0x17; 0x1d; 0x50; 0x8b; 0x9b; 0xd6; 0x59; 0xbd;
   0x58; 0xc7; 0xbe; 0x31; 0x17; 0xcb; 0xfb; 0xec; 0x58; 0x4d; 0xef; 0xc9;
   0xba; 0xdb; 0x23; 0x18; 0xc1; 0x7e; 0x86; 0x68; 0xb4; 0xa4; 0x56; 0x3e;
   0x7e; 0x5d; 0x2e; 0x00; 0x00; 0x00; 0x52; 0x55; 0x50; 0x43; 0x08; 0x06;
   0x1a; 0x4b; 0x27; 0x0c; 0x0d; 0x44; 0x17; 0x43; 0x0e; 0x0c; 0x07; 0x0a;
   0x05; 0x1a; 0x4a; 0x59; 0x34; 0x0f; 0x0d; 0x1b; 0x09; 0x25; 0x32; 0x32;
   0x15; 0x34; 0x5a; 0x32; 0x21; 0x01; 0x1a; 0x0c; 0x54; 0x04; 0x24; 0x21;
   0x12; 0x22; 0x5e; 0x5e; 0x00; 0x00; 0x00; 0x00; 0x00; 0x00; 0x00; 0x00;
   0x00; 0x00; 0x00; 0x00; 0x00; 0x7b; 0xe3; 0xb6; 0x3a; 0xfa; 0xce; 0x0c;
   0x09].

(** A container with the derived key [0123456789abcdef] and the format
    [mp3], whose image block announces 100 bytes where 4 remain. *)
Definition oversized_image_container : list Z :=
  [0x43; 0x54; 0x45; 0x4e; 0x46; 0x44; 0x41; 0x4d; 0x01; 0x70; 0x30; 0x00;
   0x00; 0x00; 0x2c; 0xce; 0xd5; 0xeb; 0x69; 0xea; 0xfb; 0x14; 0x55; 0x0d;
   0x45; 0xbf; 0x61; 0xdd; 0x17; 0x1d; 0x50; 0x8b; 0x9b; 0xd6; 0x59; 0xbd;
   0x58; 0xc7; 0xbe; 0x31; 0x17; 0xcb; 0xfb; 0xec; 0x58; 0x4d; 0xef; 0xc9;
   0xba; 0xdb; 0x23; 0x18; 0xc1; 0x7e; 0x86; 0x68; 0xb4; 0xa4; 0x56; 0x3e;
   0x7e; 0x5d; 0x42; 0x00; 0x00; 0x00; 0x52; 0x55; 0x50; 0x43; 0x08; 0x06;
   0x1a; 0x4b; 0x27; 0x0c; 0x0d; 0x44; 0x17; 0x43; 0x0e; 0x0c; 0x07; 0x0a;
   0x05; 0x1a; 0x4a; 0x59; 0x00; 0x26; 0x04; 0x17; 0x12; 0x2b; 0x1b; 0x14;
   0x13; 0x07; 0x31; 0x28; 0x00; 0x21; 0x20; 0x31; 0x33; 0x21; 0x0f; 0x33;
   0x08; 0x09; 0x19; 0x56; 0x54; 0x32; 0x04; 0x27; 0x0e; 0x00; 0x2d; 0x0e;
   0x24; 0x08; 0x39; 0x07; 0x56; 0x11; 0x51; 0x19; 0x0f; 0x56; 0x3a; 0x5e;
   0x00; 0x00; 0x00; 0x00; 0x00; 0x00; 0x00; 0x00; 0x00; 0x64; 0x00; 0x00;
   0x00; 0x54; 0xeb; 0xe4; 0x7a].

(** The reference runtime of Node on a disk without room: every write
    throws. *)
Definition full_disk : Node.Runtime := {|
  Node.number := Z;
  Node.Number_truthy := fun n => negb (n =? 0);
  Node.Number_toString := Reference.Number_toString;
  Node.decipher_aes_128_ecb := Reference.decipher_aes_128_ecb;
  Node.Buffer_toString_utf8 := Reference.utf8_decode;
  Node.Buffer_from_base64 := Reference.Buffer_from_base64;
  Node.JSON_parse := Reference.Parser.JSON_parse;
  Node.path_basename := Reference.path_basename;
  Node.path_dirname := Reference.path_dirname;
  Node.path_join := Reference.path_join;
  Node.openSync_error := fun _ _ => None;
  Node.writeSync_outcome := fun _ _ _ => Throw SystemError;
  Node.closeSync_error := fun _ _ => None
|}.

(** A music directory: three files and a directory whose name ends in
    [.ncm]. *)
Definition music_host : Cli.Host :=
  ReferenceHost.host
    [("/music", ["a.ncm"; "b.NCM"; "cover.jpg"; "c.ncm"; "old.ncm"])]
    ["/music/old.ncm"].

(** The same directory after [lost.ncm], a symbolic link to a file that is
    gone, has been added: the directory lists it and [statSync] throws on
    it. *)
Definition dangling_host : Cli.Host := {|
  Cli.readdirSync := fun dir =>
    if String.eqb dir "/music" then Ok ["a.ncm"; "lost.ncm"; "c.ncm"]
    else Throw SystemError;
  Cli.isFile := fun p =>
    if String.eqb p "/music/lost.ncm" then Throw SystemError else Ok true;
  Cli.RegExp_test := ReferenceHost.RegExp_test
|}.

End MoreSamples.

(** ** The wording of the specification

    The notions the properties below are stated with: they follow the text of
    the specification, not the code. *)

Module Spec.
Import Str Audio.
Local Open Scope string_scope.

(** The magic, [CTENFDAM] in ASCII. *)
Definition magic : list Z := [0x43; 0x54; 0x45; 0x4e; 0x46; 0x44; 0x41; 0x4d].

(** The bytes 0 to 255 in order. *)
Definition all_bytes : list Z := Z.of_nat <$> seq 0 256.

(** The transform as the container format states it: byte [n] of a
    payload that begins at position [start] of the stream is XORed with the
    key box entry selected by [j = (start + n + 1) mod 256]. *)
Definition keystream_xor (keyBox : list Z) (start : Z) (payload : list Z) : list Z :=
  imap (fun n b => u8 (Z.lxor b (key_at keyBox (Z.land (start + Z.of_nat n + 1) 255)))) payload.

(** The index formula in the words of the specification: a 1-based
    position modulo 256 and two table reads. *)
Definition spec_j (n : nat) : Z := (Z.of_nat n + 1) mod 256.

Definition spec_idx (table : list Z) (n : nat) : Z :=
  (at_ table (spec_j n) + at_ table ((at_ table (spec_j n) + spec_j n) mod 256)) mod 256.

(** What the specification asks of the output stem: the name without a
    trailing extension whose lower case is [.ncm], or the name itself when
    it has no such extension. *)
Definition stripped (name stem : string) : Prop :=
  (exists ext, name = stem ++ ext /\ toLowerCase ext = ".ncm")
  \/ (stem = name /\ forall s ext, name = s ++ ext -> toLowerCase ext <> ".ncm").

(** The name the browser decoder strips: the one it is given, or
    [output.ncm] when none or the empty string is given. *)
Definition given_name (sourceFileName : option string) : string :=
  match sourceFileName with
  | Some (String c s) => String c s
  | _ => "output.ncm"
  end.

(** Whether a string has one of the letters A to Z. *)
Fixpoint has_upper (s : string) : bool :=
  match s with
  | EmptyString => false
  | String c rest =>
      ((65 <=? N_of_ascii c)%N && (N_of_ascii c <=? 90)%N) || has_upper rest
  end.

(** Where the exception of a failed decode can come from when the key
    block starts at offset 14 and announces [keyLength] bytes: the 32-bit
    read that follows an oversized block, the cipher on the key block, or
    the decoding of the metadata block. *)
Definition node_origin `{Node.Runtime} (data : list Z) (keyLength : Z) (e : exn) : Prop :=
  e = RangeError
  \/ Node.decipher_aes_128_ecb Node.coreKey (Node.key_block data 14 keyLength).1 = Throw e
  \/ exists metaLength,
       Node.readUInt32LE data (14 + keyLength) = Ok metaLength
       /\ Node.decode_meta (Node.meta_block data (18 + keyLength) metaLength).1 = Throw e.

Definition browser_origin `{Browser.Runtime} (data : list Z) (keyLength : Z) (e : exn) : Prop :=
  e = RangeError
  \/ Browser.aes128EcbDecrypt (Browser.key_block data 14 keyLength).1 Browser.CORE_KEY_HEX
     = Throw e
  \/ exists metaLength,
       Node.readUInt32LE data (14 + keyLength) = Ok metaLength
       /\ Browser.decode_meta (Browser.meta_block data (18 + keyLength) metaLength).1 = Throw e.

End Spec.

(** ** More wording: the chunk loop, the disk and the wildcard patterns, said directly *)

Module MoreSpec.
Import Str Audio.
Local Open Scope string_scope.

(** The keystream applied with the position counted from the start of
    each chunk of [chunk] bytes: byte [n] of the payload is XORed with the
    key box entry selected by [j = ((n mod chunk) + 1) mod 256]. *)
Definition chunk_relative_xor (chunk : Z) (keyBox payload : list Z) : list Z :=
  imap (fun n b =>
          u8 (Z.lxor b (key_at keyBox (Z.land (Z.of_nat n mod chunk + 1) 255))))
    payload.

(** What one character of a wildcard pattern stands for in the regular
    expression: [*] is [.*], [?] is [.], a metacharacter is itself after a
    backslash (code 92), any other character is itself. *)
Definition regexp_piece (c : ascii) : string :=
  if Ascii.eqb c "*"%char then ".*"
  else if Ascii.eqb c "?"%char then "."
  else if Cli.is_regexp_special c then String "092"%char (String c "")
  else String c "".

Fixpoint regexp_body (pattern : string) : string :=
  match pattern with
  | EmptyString => ""
  | String c rest => regexp_piece c ++ regexp_body rest
  end.

(** The disk takes the output file [path]: the open and the close do not
    throw, and every write writes its whole chunk. *)
Definition disk_accepts `{Node.Runtime} (fs : Node.filesystem) (path : string) : Prop :=
  Node.openSync_error fs path = None
  /\ (forall fs' chunk, Node.writeSync_outcome fs' path chunk = Ok (length chunk))
  /\ (forall fs', Node.closeSync_error fs' path = None).

(** A write that returns has written its whole chunk. *)
Definition writes_are_whole `{Node.Runtime} : Prop :=
  forall fs path chunk n, Node.writeSync_outcome fs path chunk = Ok n -> n = length chunk.

(** Whether [fs.statSync(p).isFile()] returned [true]. *)
Definition is_regular (r : result bool) : bool :=
  match r with
  | Ok true => true
  | _ => false
  end.

(** The byte [k] of a 32-bit word, most significant first, as
    [wordArrayToU8] takes it. *)
Definition word_byte (w : Z) (k : Z) : Z :=
  Z.land (Z.shiftr (Browser.uint32 w) (24 - k * 8)) 255.

End MoreSpec.

(** * Properties *)

(** ** Bytes and array loops *)

Section Loops.
Context {A : Type}.

(** A loop that stores [g i (a[i])] at every index [i] of a range, in
    place, read at one index. *)
Lemma foldl_insert_in_place_lookup (g : nat -> A -> A) `{Inhabited A} (n k j : nat) (l : list A) :
  (k + n <= length l)%nat ->
  foldl (fun a i => <[i := g i (a !!! i)]> a) l (seq k n) !! j
  = if bool_decide (k <= j < k + n)%nat then g j <$> l !! j else l !! j.
Proof.
  revert k l. induction n as [|n IH]; intros k l Hlen; simpl.
  - case_bool_decide; [lia | done].
  - rewrite IH by (rewrite length_insert; lia).
    assert (Hk : (k < length l)%nat) by lia.
    destruct (lookup_lt_is_Some_2 l k Hk) as [x Hx].
    rewrite (list_lookup_total_correct _ _ _ Hx).
    destruct (decide (j = k)) as [->|Hne].
    + rewrite list_lookup_insert_eq by done.
      rewrite Hx. repeat case_bool_decide; try lia; done.
    + rewrite list_lookup_insert_ne by done.
      repeat case_bool_decide; try lia; done.
Qed.

Lemma foldl_insert_in_place (g : nat -> A -> A) `{Inhabited A} (l : list A) :
  foldl (fun a i => <[i := g i (a !!! i)]> a) l (seq 0 (length l)) = imap g l.
Proof.
  apply list_eq; intros j.
  rewrite foldl_insert_in_place_lookup by lia.
  rewrite list_lookup_imap.
  case_bool_decide as Hj; [done|].
  rewrite (lookup_ge_None_2 l j) by lia. done.
Qed.

(** A loop that fills a fresh array from a source array. *)
Lemma foldl_insert_fresh_lookup {B : Type} `{Inhabited B} (g : nat -> B -> A) (src : list B)
    (n k j : nat) (out : list A) :
  (k + n <= length out)%nat ->
  foldl (fun out i => <[i := g i (src !!! i)]> out) out (seq k n) !! j
  = if bool_decide (k <= j < k + n)%nat then Some (g j (src !!! j)) else out !! j.
Proof.
  revert k out. induction n as [|n IH]; intros k out Hlen; simpl.
  - case_bool_decide; [lia | done].
  - rewrite IH by (rewrite length_insert; lia).
    destruct (decide (j = k)) as [->|Hne].
    + rewrite list_lookup_insert_eq by lia.
      repeat case_bool_decide; try lia; done.
    + rewrite list_lookup_insert_ne by done.
      repeat case_bool_decide; try lia; done.
Qed.

Lemma foldl_insert_fresh {B : Type} `{Inhabited B} (g : nat -> B -> A) (src : list B) (z : A) :
  foldl (fun out i => <[i := g i (src !!! i)]> out) (replicate (length src) z)
    (seq 0 (length src))
  = imap g src.
Proof.
  apply list_eq; intros j.
  rewrite foldl_insert_fresh_lookup by (rewrite length_replicate; lia).
  rewrite list_lookup_imap.
  case_bool_decide as Hj.
  - destruct (lookup_lt_is_Some_2 src j) as [x Hx]; [lia|].
    rewrite (list_lookup_total_correct _ _ _ Hx), Hx. done.
  - rewrite (lookup_ge_None_2 src j) by lia.
    apply lookup_ge_None_2. rewrite length_replicate. lia.
Qed.

End Loops.

Lemma u8_range (z : Z) : 0 <= u8 z < 256.
Proof.
  unfold u8. change 255 with (Z.ones 8). rewrite Z.land_ones by lia.
  apply Z.mod_pos_bound. lia.
Qed.

Lemma u8_id (z : Z) : is_u8 z = true -> u8 z = z.
Proof.
  unfold is_u8, u8. intros Hz. apply andb_true_iff in Hz as [H0 H1].
  change 255 with (Z.ones 8). rewrite Z.land_ones by lia.
  apply Z.mod_small. lia.
Qed.

Lemma is_u8_u8 (z : Z) : is_u8 (u8 z) = true.
Proof. pose proof (u8_range z). unfold is_u8. apply andb_true_iff. lia. Qed.

Lemma u8_lxor (a b : Z) : u8 (Z.lxor a b) = Z.lxor (u8 a) (u8 b).
Proof.
  unfold u8. apply Z.bits_inj'. intros n Hn.
  rewrite Z.lxor_spec, !Z.land_spec, Z.lxor_spec.
  by destruct (Z.testbit a n), (Z.testbit b n), (Z.testbit 255 n).
Qed.

Lemma u8_idemp (z : Z) : u8 (u8 z) = u8 z.
Proof. apply u8_id, is_u8_u8. Qed.

Lemma is_u8_lxor (a b : Z) : is_u8 a = true -> is_u8 b = true -> is_u8 (Z.lxor a b) = true.
Proof.
  intros Ha Hb. rewrite <- (u8_id a Ha), <- (u8_id b Hb), <- u8_lxor. apply is_u8_u8.
Qed.

Lemma is_bytes_Forall (a : list Z) : is_bytes a = true <-> Forall (fun b => is_u8 b = true) a.
Proof.
  unfold is_bytes. rewrite forallb_forall, Forall_forall.
  split; intros Hall x Hx; apply Hall; by apply list_elem_of_In.
Qed.

Lemma xor_mask_map (mask : Z) (a : list Z) :
  xor_mask mask a = (fun b => u8 (Z.lxor b mask)) <$> a.
Proof.
  unfold xor_mask.
  rewrite (foldl_insert_in_place (fun _ b => u8 (Z.lxor b mask))).
  apply (imap_const (fun b => u8 (Z.lxor b mask))).
Qed.

Lemma length_xor_mask (mask : Z) (a : list Z) : length (xor_mask mask a) = length a.
Proof. by rewrite xor_mask_map, length_fmap. Qed.

(** ** The keystream *)

Module AudioFacts.
Import Audio Spec.

Lemma decode_audio_keystream (keyBox audioIn : list Z) :
  decode_audio keyBox audioIn = keystream_xor keyBox 0 audioIn.
Proof.
  unfold decode_audio, keystream_xor.
  rewrite (foldl_insert_fresh
             (fun i b => u8 (Z.lxor b (key_at keyBox (Z.land (Z.of_nat i + 1) 255))))).
  apply imap_ext. intros i b _. simpl. do 3 f_equal.
Qed.

Lemma foldl_seq_succ {B : Type} (f : B -> nat -> B) (b : B) (k n : nat) :
  foldl f b (seq (S k) n) = foldl (fun b i => f b (S i)) b (seq k n).
Proof. revert b k. induction n as [|n IH]; intros b k; simpl; [done|]. by rewrite IH. Qed.

Lemma foldl_pointwise {B C : Type} (f g : B -> C -> B) (b : B) (l : list C) :
  (forall b x, f b x = g b x) -> foldl f b l = foldl g b l.
Proof. intros Hfg. revert b. induction l as [|x l IH]; intros b; simpl; [done|]. by rewrite Hfg, IH. Qed.

Lemma decode_chunk_keystream (keyBox chunk : list Z) :
  decode_chunk keyBox chunk = keystream_xor keyBox 0 chunk.
Proof.
  unfold decode_chunk, keystream_xor.
  rewrite foldl_seq_succ.
  etransitivity.
  2: { apply (foldl_insert_in_place
                (fun i b => u8 (Z.lxor b (key_at keyBox (Z.land (0 + Z.of_nat i + 1) 255))))). }
  apply foldl_pointwise. intros a i.
  replace (S i - 1)%nat with i by lia.
  replace (Z.of_nat (S i)) with (0 + Z.of_nat i + 1) by lia. done.
Qed.

Lemma length_keystream_xor (keyBox : list Z) (start : Z) (payload : list Z) :
  length (keystream_xor keyBox start payload) = length payload.
Proof. apply length_imap. Qed.

Lemma keystream_xor_lookup (keyBox : list Z) (start : Z) (payload : list Z) (n : nat) :
  keystream_xor keyBox start payload !! n
  = (fun b => u8 (Z.lxor b (key_at keyBox (Z.land (start + Z.of_nat n + 1) 255))))
      <$> payload !! n.
Proof. apply list_lookup_imap. Qed.

Lemma keystream_xor_app (keyBox : list Z) (start : Z) (a b : list Z) :
  keystream_xor keyBox start (a ++ b)
  = keystream_xor keyBox start a ++ keystream_xor keyBox (start + len a) b.
Proof.
  unfold keystream_xor. rewrite imap_app. f_equal.
  apply imap_ext. intros i x _. simpl. unfold len. do 4 f_equal. lia.
Qed.

Lemma land_255_add_mul (a k : Z) : Z.land (a + 256 * k) 255 = Z.land a 255.
Proof.
  change 255 with (Z.ones 8). rewrite !Z.land_ones by lia.
  change (2 ^ 8) with 256. rewrite Z.mul_comm. apply Z.mod_add. lia.
Qed.

(** The keystream has period 256 in the position. *)
Lemma keystream_xor_period (keyBox : list Z) (start k : Z) (payload : list Z) :
  keystream_xor keyBox (start + 256 * k) payload = keystream_xor keyBox start payload.
Proof.
  unfold keystream_xor. apply imap_ext. intros i x _. simpl. do 3 f_equal.
  replace (start + 256 * k + Z.of_nat i + 1) with (start + Z.of_nat i + 1 + 256 * k) by lia.
  apply land_255_add_mul.
Qed.

Lemma key_at_range (keyBox : list Z) (j : Z) :
  is_bytes keyBox = true -> is_u8 (key_at keyBox j) = true.
Proof.
  intros Hbox. unfold key_at, at_.
  destruct (get keyBox _) as [x|] eqn:Hget; simpl; [|done].
  unfold get in Hget. case_match; [done|].
  apply is_bytes_Forall in Hbox. rewrite Forall_lookup in Hbox. eauto.
Qed.

End AudioFacts.

Lemma len_nonneg (a : list Z) : 0 <= len a.
Proof. unfold len. lia. Qed.

(** A slice that starts inside the array. *)
Lemma subarray_inside (a : list Z) (start end_ : Z) :
  0 <= start <= len a -> 0 <= end_ ->
  subarray a start end_ = take (Z.to_nat (Z.min end_ (len a) - start)) (drop (Z.to_nat start) a).
Proof.
  intros Hs He. unfold subarray, clamp_index.
  destruct (Z.ltb_spec start 0); [lia|]. destruct (Z.ltb_spec end_ 0); [lia|].
  by rewrite (Z.min_l start) by lia.
Qed.

Lemma subarray_from_drop (a : list Z) (start : Z) :
  0 <= start -> subarray_from a start = drop (Z.to_nat start) a.
Proof.
  intros Hs. unfold subarray_from, subarray, clamp_index, len.
  destruct (Z.ltb_spec start 0); [lia|].
  destruct (Z.ltb_spec (Z.of_nat (length a)) 0); [lia|].
  rewrite Z.min_id.
  destruct (Z.le_gt_cases start (Z.of_nat (length a))).
  - rewrite Z.min_l by lia. apply take_ge. rewrite length_drop. lia.
  - rewrite Z.min_r by lia. rewrite Z.sub_diag. simpl.
    symmetry. apply drop_ge. lia.
Qed.

(** A slice never holds more than the array has left. *)
Lemma length_subarray_le (a : list Z) (start end_ : Z) :
  0 <= start -> len (subarray a start end_) <= Z.max 0 (len a - start).
Proof.
  intros Hs. unfold subarray, clamp_index, len.
  destruct (Z.ltb_spec start 0); [lia|].
  rewrite length_take, length_drop. lia.
Qed.

Module ChunkFacts.
Import Audio Spec AudioFacts.

Lemma chunk_is_take (data : list Z) (pos chunk : Z) :
  0 <= pos < len data -> 1 <= chunk ->
  subarray data pos (Z.min (pos + chunk) (len data))
  = take (Z.to_nat chunk) (drop (Z.to_nat pos) data).
Proof.
  intros Hpos Hc. rewrite subarray_inside by lia.
  destruct (Z.le_gt_cases (pos + chunk) (len data)).
  - f_equal. lia.
  - rewrite !take_ge; [done| |]; rewrite length_drop; unfold len in *; lia.
Qed.

(** Enough fuel: once [length data] iterations are allowed, more change
    nothing. *)
Lemma chunk_loop_fuel (fuel fuel' : nat) (chunk : Z) (keyBox data : list Z) (pos : Z) :
  1 <= chunk -> len data - pos <= Z.of_nat fuel -> (fuel <= fuel')%nat ->
  chunk_loop fuel chunk keyBox data pos = chunk_loop fuel' chunk keyBox data pos.
Proof.
  intros Hc. revert fuel' pos. induction fuel as [|fuel IH]; intros fuel' pos Hfuel Hle.
  - destruct fuel' as [|fuel']; [done|]. simpl.
    destruct (Z.ltb_spec pos (len data)); [lia | done].
  - destruct fuel' as [|fuel']; [lia|]. simpl.
    destruct (Z.ltb_spec pos (len data)); [|done].
    f_equal. apply IH; lia.
Qed.

(** With a chunk size that is a multiple of 256 every chunk starts at a
    stream position that is 0 modulo 256, so counting from the start of the
    chunk selects the same key box entries as counting from the start of the
    payload. *)
Lemma chunk_loop_multiple_of_256 (fuel : nat) (k : Z) (keyBox data : list Z) (pos : Z) :
  1 <= k -> 0 <= pos -> len data - pos <= Z.of_nat fuel ->
  concat (chunk_loop fuel (256 * k) keyBox data pos)
  = keystream_xor keyBox 0 (drop (Z.to_nat pos) data).
Proof.
  intros Hk. revert pos. induction fuel as [|fuel IH]; intros pos Hpos Hfuel; simpl.
  - rewrite drop_ge by (unfold len in *; lia). done.
  - destruct (Z.ltb_spec pos (len data)) as [Hlt|Hge].
    + simpl. rewrite chunk_is_take by lia.
      rewrite decode_chunk_keystream, IH by lia.
      replace (Z.to_nat (pos + 256 * k)) with (Z.to_nat pos + Z.to_nat (256 * k))%nat by lia.
      rewrite <- drop_drop.
      set (rest := drop (Z.to_nat pos) data).
      assert (Hrest : length rest = (length data - Z.to_nat pos)%nat) by apply length_drop.
      rewrite <- (take_drop (Z.to_nat (256 * k)) rest) at 3.
      rewrite keystream_xor_app. f_equal.
      destruct (Z.le_gt_cases (pos + 256 * k) (len data)) as [Hfull|Hshort].
      * assert (len (take (Z.to_nat (256 * k)) rest) = 256 * k) as ->.
        { unfold len in *. rewrite length_take. lia. }
        symmetry. apply (keystream_xor_period keyBox 0 k).
      * rewrite !drop_ge by (unfold len in *; lia). done.
    + rewrite drop_ge by (unfold len in *; lia). done.
Qed.

Lemma decode_chunked_multiple_of_256 (k : Z) (keyBox data : list Z) (offset : Z) :
  1 <= k -> 0 <= offset ->
  decode_chunked (256 * k) keyBox data offset = decode_audio keyBox (subarray_from data offset).
Proof.
  intros Hk Hoff. unfold decode_chunked.
  rewrite chunk_loop_multiple_of_256 by (unfold len; lia).
  by rewrite decode_audio_keystream, subarray_from_drop.
Qed.

Lemma decode_chunked_CHUNK (keyBox data : list Z) (offset : Z) :
  0 <= offset ->
  decode_chunked CHUNK keyBox data offset = decode_audio keyBox (subarray_from data offset).
Proof. intros Hoff. apply (decode_chunked_multiple_of_256 128); lia. Qed.

End ChunkFacts.

(** ** The audio stream decryptor (C3, C4, C6) *)

Module AudioSpec.
Import KeyBox Audio Spec AudioFacts ChunkFacts Samples.

Lemma land_255_mod (z : Z) : Z.land z 255 = z mod 256.
Proof. change 255 with (Z.ones 8). by rewrite Z.land_ones by lia. Qed.

Lemma key_at_spec (table : list Z) (n : nat) :
  key_at table (Z.land (0 + Z.of_nat n + 1) 255) = at_ table (spec_idx table n).
Proof. unfold key_at, spec_idx, spec_j. by rewrite !land_255_mod. Qed.



(** C4. For every key box and payload of bytes (the empty payload included)
    the browser loop returns an output of the same length with
    [output[n] = payload[n] XOR table[idx(n)]],
    [idx(n) = (table[j] + table[(table[j] + j) mod 256]) mod 256] and
    [j = (n + 1) mod 256]; the body of the Node chunk loop computes the same
    bytes. Both are total functions: there is no error case. *)
Theorem decode_audio_formula (keyBox payload : list Z) :
  is_bytes keyBox = true -> is_bytes payload = true ->
  length (decode_audio keyBox payload) = length payload
  /\ (forall (n : nat) (b : Z),
        payload !! n = Some b ->
        decode_audio keyBox payload !! n
        = Some (Z.lxor b (at_ keyBox (spec_idx keyBox n))))
  /\ decode_chunk keyBox payload = decode_audio keyBox payload.
Proof.
  intros Hbox Hpay. rewrite decode_chunk_keystream, decode_audio_keystream.
  split; [apply length_keystream_xor|]. split; [|done].
  intros n b Hn. rewrite keystream_xor_lookup, Hn. simpl. f_equal.
  rewrite key_at_spec. apply u8_id. apply is_u8_lxor.
  - apply is_bytes_Forall in Hpay. rewrite Forall_lookup in Hpay. eauto.
  - rewrite <- key_at_spec. by apply key_at_range.
Qed.

Lemma decode_audio_formula_witness :
  let keyBox := build_key_box flac_key in
  let payload := subarray_from flac_container flac_payload_offset in
  length (decode_audio keyBox payload) = length payload
  /\ (forall (n : nat) (b : Z),
        payload !! n = Some b ->
        decode_audio keyBox payload !! n
        = Some (Z.lxor b (at_ keyBox (spec_idx keyBox n))))
  /\ decode_chunk keyBox payload = decode_audio keyBox payload.
Proof. apply decode_audio_formula; vm_compute; reflexivity. Defined.

(** C6. For every key box and payload of bytes, decrypting twice with the
    same key box gives the payload back. *)
Theorem decode_audio_involutive (keyBox payload : list Z) :
  is_bytes payload = true ->
  decode_audio keyBox (decode_audio keyBox payload) = payload.
Proof.
  intros Hpay. rewrite !decode_audio_keystream.
  apply list_eq. intros n. rewrite !keystream_xor_lookup.
  destruct (payload !! n) as [b|] eqn:Hn; simpl; [|done]. f_equal.
  rewrite u8_lxor, u8_idemp, <- u8_lxor.
  rewrite Z.lxor_assoc, Z.lxor_nilpotent, Z.lxor_0_r.
  apply u8_id. apply is_bytes_Forall in Hpay. rewrite Forall_lookup in Hpay. eauto.
Qed.

Lemma decode_audio_involutive_witness :
  let keyBox := build_key_box flac_key in
  let payload := subarray_from flac_container flac_payload_offset in
  decode_audio keyBox (decode_audio keyBox payload) = payload.
Proof. apply decode_audio_involutive; vm_compute; reflexivity. Defined.

End AudioSpec.

(** ** The key box is a permutation (C5, C7) *)

Module KeyBoxFacts.
Import KeyBox Spec.

Lemma identity_box_all_bytes : identity_box = all_bytes.
Proof. vm_compute. reflexivity. Qed.

Lemma next_c_range (swap last : Z) (k : option Z) : 0 <= next_c swap last k < 256.
Proof. destruct k as [k|]; simpl; [apply u8_range | lia]. Qed.

Lemma at_lookup (a : list Z) (i : nat) (x : Z) : a !! i = Some x -> at_ a (Z.of_nat i) = x.
Proof.
  intros Hi. unfold at_, get. destruct (Z.ltb_spec (Z.of_nat i) 0); [lia|].
  by rewrite Nat2Z.id, Hi.
Qed.

(** One iteration keeps the box a permutation of the bytes. *)
Lemma step_Permutation (key : list Z) (st : state) (i : nat) :
  (i < 256)%nat -> keyBox st ≡ₚ all_bytes -> keyBox (step key st i) ≡ₚ all_bytes.
Proof.
  intros Hi Hperm. unfold step. simpl.
  assert (Hlen : length (keyBox st) = 256%nat) by (by rewrite Hperm).
  set (c := next_c _ _ _). pose proof (next_c_range (at_ (keyBox st) (Z.of_nat i))
    (lastByte st) (get key (keyOffset st))) as Hc. fold c in Hc.
  destruct (lookup_lt_is_Some_2 (keyBox st) i) as [x Hx]; [lia|].
  destruct (lookup_lt_is_Some_2 (keyBox st) (Z.to_nat c)) as [y Hy]; [lia|].
  rewrite (at_lookup _ _ _ Hx).
  replace (at_ (keyBox st) c) with y
    by (rewrite <- (Z2Nat.id c) by lia; symmetry; by apply at_lookup).
  by rewrite (Permutation_insert_swap _ _ _ _ _ Hx Hy).
Qed.

Lemma foldl_step_Permutation (key : list Z) (l : list nat) (st : state) :
  Forall (fun i => (i < 256)%nat) l -> keyBox st ≡ₚ all_bytes ->
  keyBox (foldl (step key) st l) ≡ₚ all_bytes.
Proof.
  intros Hl. revert st. induction Hl as [|i l Hi _ IH]; intros st Hst; simpl; [done|].
  apply IH. by apply step_Permutation.
Qed.

(** The key box is a permutation of the bytes, whatever the key. *)
Lemma build_key_box_Permutation (key : list Z) : build_key_box key ≡ₚ all_bytes.
Proof.
  unfold build_key_box, run. apply foldl_step_Permutation.
  - apply Forall_forall. intros i Hi. apply elem_of_seq in Hi. lia.
  - simpl. by rewrite identity_box_all_bytes.
Qed.

Lemma length_build_key_box (key : list Z) : length (build_key_box key) = 256%nat.
Proof. by rewrite build_key_box_Permutation. Qed.

Lemma is_bytes_all_bytes : is_bytes all_bytes = true.
Proof. vm_compute. reflexivity. Qed.

Lemma is_bytes_build_key_box (key : list Z) : is_bytes (build_key_box key) = true.
Proof.
  apply is_bytes_Forall. rewrite build_key_box_Permutation.
  apply is_bytes_Forall, is_bytes_all_bytes.
Qed.

Lemma seq_Sorted (k n : nat) : Sorted Z.le (Z.of_nat <$> seq k n).
Proof.
  revert k. induction n as [|n IH]; intros k; simpl.
  - constructor.
  - constructor; [apply IH|]. destruct n; simpl; constructor. lia.
Qed.

Lemma all_bytes_Sorted : Sorted Z.le all_bytes.
Proof. apply seq_Sorted. Qed.

(** C5. For every non-empty key the key box is a permutation of the bytes
    0 to 255: each of them occurs in it exactly once, and sorting the box
    gives the list 0, 1, ..., 255. *)
Theorem build_key_box_is_permutation (key : list Z) :
  key <> [] ->
  build_key_box key ≡ₚ all_bytes
  /\ (forall b : Z, 0 <= b < 256 -> length (filter (fun x => x = b) (build_key_box key)) = 1%nat)
  /\ merge_sort Z.le (build_key_box key) = all_bytes.
Proof.
  intros _. pose proof (build_key_box_Permutation key) as Hperm.
  split; [done|]. split.
  - intros b Hb. rewrite Hperm.
    replace b with (Z.of_nat (Z.to_nat b)) by lia.
    assert (Hn : (Z.to_nat b < 256)%nat) by lia. revert Hn.
    generalize (Z.to_nat b). intros n Hn.
    do 256 (destruct n as [|n]; [vm_compute; reflexivity|]). lia.
  - apply (Sorted_unique Z.le).
    + apply Sorted_merge_sort, _.
    + apply all_bytes_Sorted.
    + by rewrite merge_sort_Permutation.
Qed.

Lemma build_key_box_is_permutation_witness :
  build_key_box Samples.flac_key ≡ₚ all_bytes
  /\ (forall b : Z, 0 <= b < 256 ->
        length (filter (fun x => x = b) (build_key_box Samples.flac_key)) = 1%nat)
  /\ merge_sort Z.le (build_key_box Samples.flac_key) = all_bytes.
Proof. apply build_key_box_is_permutation. discriminate. Defined.

(** C7, as amended. The builder has no failure case. For the key of zero
    length every read [keyDecrypted[keyOffset]] is [undefined], so [c] is 0
    in every iteration and each entry is exchanged with entry 0: the table
    built is 255, 0, 1, ..., 254, again a permutation of the bytes. *)
Theorem build_key_box_empty_key :
  build_key_box [] = 255 :: (Z.of_nat <$> seq 0 255)
  /\ build_key_box [] ≡ₚ all_bytes.
Proof. split; [vm_compute; reflexivity | apply build_key_box_Permutation]. Qed.

End KeyBoxFacts.

(** ** Strings: hexadecimal text, the source extension, lower case *)

Module StrFacts.
Import Str Spec.
Local Open Scope string_scope.

Lemma hex_value_digit (d : Z) : 0 <= d < 16 -> hex_value (hex_digit d) = Some d.
Proof.
  intros Hd.
  assert (Hcases : d = 0 \/ d = 1 \/ d = 2 \/ d = 3 \/ d = 4 \/ d = 5 \/ d = 6 \/ d = 7
                   \/ d = 8 \/ d = 9 \/ d = 10 \/ d = 11 \/ d = 12 \/ d = 13 \/ d = 14
                   \/ d = 15) by lia.
  repeat (destruct Hcases as [->|Hcases]; [reflexivity|]). by subst.
Qed.

Lemma byte_nibbles (b : Z) :
  is_u8 b = true ->
  0 <= Z.shiftr b 4 < 16 /\ 0 <= Z.land b 15 < 16 /\ 16 * Z.shiftr b 4 + Z.land b 15 = b.
Proof.
  unfold is_u8. intros Hb. apply andb_true_iff in Hb as [H0 H1].
  rewrite Z.shiftr_div_pow2 by lia. change 15 with (Z.ones 4).
  rewrite Z.land_ones by lia. change (2 ^ 4) with 16.
  pose proof (Z.div_mod b 16). pose proof (Z.mod_pos_bound b 16).
  assert (0 <= b / 16 < 16) by (split; [apply Z.div_pos | apply Z.div_lt_upper_bound]; lia).
  lia.
Qed.

(** Printing a buffer in hexadecimal and reading it back gives the buffer. *)
Lemma from_hex_toString_hex (buf : list Z) :
  is_bytes buf = true -> from_hex (toString_hex buf) = buf.
Proof.
  induction buf as [|b buf IH]; simpl; [done|].
  intros Hbuf. apply andb_true_iff in Hbuf as [Hb Hrest].
  destruct (byte_nibbles b Hb) as (Hh & Hl & Hsum).
  rewrite (hex_value_digit _ Hh), (hex_value_digit _ Hl), (IH Hrest).
  by rewrite Hsum.
Qed.

Lemma append_cons (c : ascii) (s t : string) : String c s ++ t = String c (s ++ t).
Proof. reflexivity. Qed.

Lemma length_append (s t : string) :
  String.length (s ++ t) = (String.length s + String.length t)%nat.
Proof. induction s as [|c s IH]; simpl; [done|]. by rewrite IH. Qed.

Lemma substring_all (s : string) : substring 0 (String.length s) s = s.
Proof. induction s as [|c s IH]; simpl; [done|]. by rewrite IH. Qed.

Lemma substring_append_l (s t : string) : substring 0 (String.length s) (s ++ t) = s.
Proof.
  induction s as [|c s IH]; simpl; [by destruct t|]. by rewrite IH.
Qed.

Lemma substring_append_r (s t : string) (m : nat) :
  substring (String.length s) m (s ++ t) = substring 0 m t.
Proof. induction s as [|c s IH]; simpl; [done|]. apply IH. Qed.

Lemma length_toLowerCase (s : string) : String.length (toLowerCase s) = String.length s.
Proof. induction s as [|c s IH]; simpl; [done|]. by rewrite IH. Qed.

Lemma lower_idemp (c : ascii) : lower (lower c) = lower c.
Proof. by destruct c as [[|] [|] [|] [|] [|] [|] [|] [|]]. Qed.

(** No other code unit has the lower case of the dot. *)
Lemma lower_dot (c : ascii) : lower c = "."%char -> c = "."%char.
Proof.
  destruct c as [[|] [|] [|] [|] [|] [|] [|] [|]]; vm_compute; intros Hc;
    first [reflexivity | discriminate Hc].
Qed.

(** A letter from A to Z is not its own lower case. *)
Lemma lower_upper (c : ascii) :
  ((65 <=? N_of_ascii c)%N && (N_of_ascii c <=? 90)%N) = true -> lower c <> c.
Proof.
  destruct c as [[|] [|] [|] [|] [|] [|] [|] [|]]; vm_compute; intros Hup;
    first [discriminate Hup | discriminate].
Qed.

Lemma toLowerCase_idemp (s : string) : toLowerCase (toLowerCase s) = toLowerCase s.
Proof. induction s as [|c s IH]; simpl; [done|]. by rewrite IH, lower_idemp. Qed.

(** The suffixes the pattern [\.ncm] matches under the flag [i] are those
    whose lower case is [.ncm]. *)
Lemma matches_dot_ncm_spec (ext : string) :
  matches_dot_ncm ext = true <-> toLowerCase ext = ".ncm".
Proof.
  destruct ext as [|c0 [|c1 [|c2 [|c3 [|c4 rest]]]]]; simpl; try (split; discriminate).
  rewrite !andb_true_iff, !Ascii.eqb_eq. split.
  - intros [[[-> ->] ->] ->]. reflexivity.
  - intros Heq. injection Heq as H0 H1 H2 H3. repeat split; try done.
    by apply lower_dot.
Qed.

Lemma string_split (s : string) (n : nat) :
  (n <= String.length s)%nat ->
  s = substring 0 n s ++ substring n (String.length s - n) s.
Proof.
  revert n. induction s as [|c s IH]; intros [|n] Hn; simpl in *; try lia.
  - done.
  - by rewrite substring_all.
  - rewrite append_cons. f_equal. apply IH. lia.
Qed.

Lemma replace_ncm_ext_strips (stem ext : string) :
  toLowerCase ext = ".ncm" -> replace_ncm_ext (stem ++ ext) = stem.
Proof.
  intros Hext. unfold replace_ncm_ext.
  assert (Hlen : String.length ext = 4%nat).
  { by rewrite <- length_toLowerCase, Hext. }
  rewrite length_append, Hlen.
  replace (String.length stem + 4 - 4)%nat with (String.length stem) by lia.
  rewrite substring_append_r, substring_append_l.
  rewrite <- Hlen, substring_all.
  apply matches_dot_ncm_spec in Hext. rewrite Hext.
  destruct (Nat.leb_spec (String.length ext) (String.length stem + String.length ext));
    simpl; [done|lia].
Qed.

(** The regular expression replacement meets the specification's wording. *)
Lemma replace_ncm_ext_stripped (name : string) : stripped name (replace_ncm_ext name).
Proof.
  unfold replace_ncm_ext.
  destruct (Nat.leb_spec 4 (String.length name)) as [Hlen|Hlen]; simpl.
  - destruct (matches_dot_ncm _) eqn:Hm.
    + left. eexists. split; [|by apply matches_dot_ncm_spec].
      assert (Hs := string_split name (String.length name - 4) ltac:(lia)).
      replace (String.length name - (String.length name - 4))%nat with 4%nat in Hs by lia.
      exact Hs.
    + right. split; [done|]. intros s ext Hname Hext.
      assert (Hl : String.length ext = 4%nat) by (by rewrite <- length_toLowerCase, Hext).
      rewrite Hname, length_append, Hl in Hm.
      replace (String.length s + 4 - 4)%nat with (String.length s) in Hm by lia.
      rewrite substring_append_r, <- Hl, substring_all in Hm.
      apply matches_dot_ncm_spec in Hext. congruence.
  - right. split; [done|]. intros s ext Hname Hext.
    assert (Hl : String.length ext = 4%nat) by (by rewrite <- length_toLowerCase, Hext).
    rewrite Hname, length_append in Hlen. lia.
Qed.

Lemma toLowerCase_changes (s : string) : has_upper s = true -> toLowerCase s <> s.
Proof.
  induction s as [|c s IH]; simpl; [done|].
  intros Hup Heq. injection Heq as Hc Hs.
  apply orb_true_iff in Hup as [Hup|Hup]; [|by apply IH].
  by apply (lower_upper c).
Qed.

Lemma append_inj_l (s t1 t2 : string) : s ++ t1 = s ++ t2 -> t1 = t2.
Proof. induction s as [|c s IH]; simpl; [done|]. intros Heq. injection Heq as Heq. auto. Qed.

End StrFacts.

(** ** The header gate and the 32-bit reads *)

Module ReadFacts.
Import Str Spec StrFacts.

Lemma subarray_0_take (a : list Z) (n : Z) : 0 <= n -> subarray a 0 (0 + n) = take (Z.to_nat n) a.
Proof.
  intros Hn. rewrite subarray_inside by (pose proof (len_nonneg a); lia).
  simpl. rewrite drop_0, Z.sub_0_r.
  destruct (Z.le_gt_cases n (len a)).
  - by rewrite Z.min_l by lia.
  - rewrite Z.min_r by lia. unfold len in *. rewrite !take_ge; [done|lia|lia].
Qed.

Lemma is_bytes_take (a : list Z) (n : nat) : is_bytes a = true -> is_bytes (take n a) = true.
Proof.
  rewrite !is_bytes_Forall. apply Forall_take.
Qed.

Lemma is_bytes_drop (a : list Z) (n : nat) : is_bytes a = true -> is_bytes (drop n a) = true.
Proof.
  rewrite !is_bytes_Forall. apply Forall_drop.
Qed.

(** Node compares the hexadecimal text of the first eight bytes with the
    text of the magic; on a buffer of bytes that is the comparison of the
    bytes themselves. *)
Lemma node_check_header_spec `{Node.Runtime} (data : list Z) :
  is_bytes data = true ->
  Node.check_header data
  = if bool_decide (take 8 data = Browser.expected) then Ok 8 else Throw InvalidHeader.
Proof.
  intros Hbytes. unfold Node.check_header.
  rewrite (subarray_0_take data 8) by lia. change (Z.to_nat 8) with 8%nat.
  case_bool_decide as Hmagic.
  - by rewrite Hmagic.
  - destruct (String.eqb_spec (toString_hex (take 8 data)) "4354454e4644414d") as [Hhex|]; [|done].
    exfalso. apply Hmagic.
    rewrite <- (from_hex_toString_hex (take 8 data)) by (by apply is_bytes_take).
    by rewrite Hhex.
Qed.

Lemma get_lookup (a : list Z) (i : nat) : get a (Z.of_nat i) = a !! i.
Proof. unfold get. destruct (Z.ltb_spec (Z.of_nat i) 0); [lia|]. by rewrite Nat2Z.id. Qed.

(** The browser compares the first eight elements one by one. *)
Lemma browser_check_header_spec `{Browser.Runtime} (bytes : list Z) :
  Browser.check_header bytes
  = if bool_decide (take 8 bytes = Browser.expected) then Ok 8 else Throw InvalidHeader.
Proof.
  unfold Browser.check_header.
  destruct (forallb _ _) eqn:Hall; case_bool_decide as Hmagic; try done.
  - exfalso. apply Hmagic. rewrite forallb_forall in Hall.
    apply list_eq. intros i.
    destruct (decide (i < 8)%nat) as [Hi|Hi].
    + rewrite lookup_take_lt by lia.
      assert (Hin : In i (seq 0 8)) by (apply in_seq; lia).
      specialize (Hall i Hin). apply bool_decide_eq_true in Hall.
      by rewrite get_lookup in Hall.
    + rewrite lookup_take_ge by lia.
      symmetry. apply lookup_ge_None_2. simpl. lia.
  - exfalso. rewrite <- not_true_iff_false in Hall. apply Hall.
    apply forallb_forall. intros i Hi. apply in_seq in Hi. apply bool_decide_eq_true.
    rewrite get_lookup, <- Hmagic. rewrite lookup_take_lt by lia. done.
Qed.

(** The two 32-bit reads are one function. *)
Lemma getUint32_readUInt32LE (data : list Z) (offset : Z) :
  Browser.getUint32 data offset = Node.readUInt32LE data offset.
Proof.
  unfold Browser.getUint32, Node.readUInt32LE, at_, get, len.
  destruct (Z.ltb_spec offset 0) as [Hneg|Hpos].
  - destruct (Z.leb_spec 0 offset); [lia|]. done.
  - destruct (Z.leb_spec 0 offset); [|lia]. simpl.
    destruct (Z.ltb_spec (offset + 3) 0); [lia|].
    destruct (Z.leb_spec (offset + 4) (Z.of_nat (length data))) as [Hin|Hout].
    + destruct (lookup_lt_is_Some_2 data (Z.to_nat offset)) as [x ->]; [lia|].
      destruct (lookup_lt_is_Some_2 data (Z.to_nat (offset + 3))) as [y ->]; [lia|].
      done.
    + rewrite (lookup_ge_None_2 data (Z.to_nat (offset + 3))) by lia.
      by destruct (data !! Z.to_nat offset).
Qed.

(** A 32-bit read past the end of the buffer is a [RangeError]. *)
Lemma readUInt32LE_out_of_range (data : list Z) (offset : Z) :
  len data < offset + 4 -> Node.readUInt32LE data offset = Throw RangeError.
Proof.
  intros Hout. unfold Node.readUInt32LE, get, len in *.
  destruct (Z.ltb_spec offset 0); [done|].
  destruct (Z.ltb_spec (offset + 3) 0); [lia|].
  rewrite (lookup_ge_None_2 data (Z.to_nat (offset + 3))) by lia.
  by destruct (data !! Z.to_nat offset).
Qed.

Lemma readUInt32LE_in_range (data : list Z) (offset v : Z) :
  Node.readUInt32LE data offset = Ok v -> 0 <= offset /\ offset + 4 <= len data.
Proof.
  unfold Node.readUInt32LE, get, len.
  destruct (Z.ltb_spec offset 0); [done|].
  destruct (Z.ltb_spec (offset + 3) 0); [lia|].
  destruct (data !! Z.to_nat offset); [|done].
  destruct (data !! Z.to_nat (offset + 3)) eqn:Hlast; [|done].
  apply lookup_lt_Some in Hlast. lia.
Qed.

Lemma at_nonneg (data : list Z) (i : Z) : is_bytes data = true -> 0 <= at_ data i.
Proof.
  intros Hbytes. unfold at_, get. destruct (i <? 0); simpl; [lia|].
  destruct (data !! Z.to_nat i) as [x|] eqn:Hx; simpl; [|lia].
  apply is_bytes_Forall in Hbytes. rewrite Forall_lookup in Hbytes.
  specialize (Hbytes _ _ Hx). unfold is_u8 in Hbytes. lia.
Qed.

(** A 32-bit read of a buffer of bytes is not negative. *)
Lemma readUInt32LE_nonneg (data : list Z) (offset v : Z) :
  is_bytes data = true -> Node.readUInt32LE data offset = Ok v -> 0 <= v.
Proof.
  intros Hbytes. unfold Node.readUInt32LE.
  pose proof (at_nonneg data offset Hbytes) as H0.
  pose proof (at_nonneg data (offset + 3) Hbytes) as H3.
  pose proof (at_nonneg data (offset + 1) Hbytes).
  pose proof (at_nonneg data (offset + 2) Hbytes).
  unfold at_ in H0, H3.
  destruct (get data offset) as [first|]; [|done].
  destruct (get data (offset + 3)) as [last|]; [|done].
  simpl in H0, H3. intros [= <-]. lia.
Qed.

End ReadFacts.

(** ** The decoders: header gate and metadata failures (C8, C1) *)

Module DecoderFacts.
Import Str Spec MoreSpec StrFacts ReadFacts Samples Reference.

Lemma node_header_ok `{Node.Runtime} (data : list Z) :
  is_bytes data = true -> take 8 data = magic -> Node.check_header data = Ok 8.
Proof.
  intros Hbytes Hmagic. rewrite node_check_header_spec by done.
  by rewrite bool_decide_eq_true_2.
Qed.

Lemma browser_header_ok `{Browser.Runtime} (bytes : list Z) :
  take 8 bytes = magic -> Browser.check_header bytes = Ok 8.
Proof.
  intros Hmagic. rewrite browser_check_header_spec.
  by rewrite bool_decide_eq_true_2.
Qed.

(** [dump] leaves the file system alone when the part before the output
    file is opened throws. *)
Lemma dump_prepare_throws `{Node.Runtime} (fs : Node.filesystem) (filePath : string)
    (data : list Z) (e : exn) :
  fs !! filePath = Some data -> Node.prepare data filePath = Throw e ->
  Node.dump fs filePath = (Throw e, fs).
Proof. intros Hfile Hprep. unfold Node.dump. by rewrite Hfile, Hprep. Qed.

(** What the chunk loop leaves: the output file extended by what the
    writes took, every other file as it was. When each write that returns
    has written its chunk, what was taken is a prefix of the chunks, and all
    of them unless a write has thrown. *)
Lemma write_chunks_inv `{Node.Runtime} (path : string) (fs fs' : Node.filesystem)
    (written : list Z) (chunks : list (list Z)) (pending : option exn) :
  Node.write_chunks path (<[path := written]> fs) chunks = (pending, fs') ->
  exists more,
    fs' = <[path := written ++ more]> fs
    /\ (writes_are_whole ->
        more `prefix_of` concat chunks /\ (pending = None -> more = concat chunks)).
Proof.
  revert written. induction chunks as [|chunk chunks IH]; intros written; simpl.
  - intros [= <- <-]. exists []. rewrite app_nil_r. by split.
  - unfold Node.writeSync.
    destruct (Node.writeSync_outcome (<[path:=written]> fs) path chunk) as [n|e] eqn:Hw.
    + rewrite lookup_insert_eq. simpl. rewrite insert_insert_eq. intros Hrest.
      destruct (IH _ Hrest) as (more & -> & Hmore).
      exists (take n chunk ++ more). split; [by rewrite app_assoc|].
      intros Hwhole. destruct (Hmore Hwhole) as [Hpre Hall].
      rewrite (Hwhole _ _ _ _ Hw), take_ge by done.
      split; [by apply prefix_app|]. intros Hp. by rewrite Hall.
    + intros [= <- <-]. exists []. rewrite app_nil_r. split; [done|].
      intros _. split; [apply prefix_nil|done].
Qed.

Lemma write_chunks_accepted `{Node.Runtime} (path : string) (fs : Node.filesystem)
    (written : list Z) (chunks : list (list Z)) :
  (forall fs' chunk, Node.writeSync_outcome fs' path chunk = Ok (length chunk)) ->
  Node.write_chunks path (<[path := written]> fs) chunks
  = (None, <[path := written ++ concat chunks]> fs).
Proof.
  intros Hw. revert written. induction chunks as [|chunk chunks IH]; intros written; simpl.
  - by rewrite app_nil_r.
  - unfold Node.writeSync. rewrite Hw, lookup_insert_eq. simpl.
    rewrite insert_insert_eq, IH, take_ge by done. by rewrite app_assoc.
Qed.

(** The offset of the payload is not negative. *)
Lemma prepare_offset_nonneg `{Node.Runtime} (data : list Z) (filePath : string)
    (keyBox : list Z) (offset : Z) (outPath : string) :
  is_bytes data = true ->
  Node.prepare data filePath = Ok (keyBox, offset, outPath) -> 0 <= offset.
Proof.
  intros Hbytes. unfold Node.prepare, Node.check_header.
  destruct (String.eqb _ _); simpl; [|done]. change (0 + 8 + 2) with 10.
  unfold Node.read_key_box.
  destruct (Node.readUInt32LE data 10) as [keyLength|] eqn:Hk; simpl; [|done].
  destruct (Node.decipher_aes_128_ecb _ _) as [a|]; simpl; [|done].
  unfold Node.read_meta.
  destruct (Node.readUInt32LE data (10 + 4 + keyLength)) as [metaLength|] eqn:Hm;
    simpl; [|done].
  destruct (Node.decode_meta _); simpl; [|done].
  unfold Node.skip_image.
  destruct (Node.readUInt32LE data (10 + 4 + keyLength + 4 + metaLength)); simpl; [|done].
  destruct (Node.readUInt32LE data (10 + 4 + keyLength + 4 + metaLength + 4 + 5))
    as [imageSize|] eqn:Hi; simpl; [|done].
  destruct (Node.format_of _); simpl; [|done].
  generalize (KeyBox.build_key_box (subarray_from a 17)). intros box [= _ <- _].
  pose proof (readUInt32LE_nonneg _ _ _ Hbytes Hk).
  pose proof (readUInt32LE_nonneg _ _ _ Hbytes Hm).
  pose proof (readUInt32LE_nonneg _ _ _ Hbytes Hi). lia.
Qed.

(** On a disk that takes the output file, a decode leaves in it the
    payload decrypted as the browser loop decrypts it, and changes no other
    file. *)
Lemma dump_writes_audio `{Node.Runtime} (fs : Node.filesystem) (filePath : string)
    (data keyBox : list Z) (offset : Z) (outPath : string) :
  fs !! filePath = Some data ->
  is_bytes data = true ->
  Node.prepare data filePath = Ok (keyBox, offset, outPath) ->
  disk_accepts fs outPath ->
  Node.dump fs filePath
  = (Ok outPath, <[outPath := Audio.decode_audio keyBox (subarray_from data offset)]> fs).
Proof.
  intros Hfile Hbytes Hprep (Hopen & Hwrite & Hclose). unfold Node.dump.
  rewrite Hfile, Hprep. unfold Node.openSync_w. rewrite Hopen.
  rewrite write_chunks_accepted by done. rewrite Hclose. simpl.
  pose proof (prepare_offset_nonneg _ _ _ _ _ Hbytes Hprep) as Hoff.
  f_equal. f_equal. apply (ChunkFacts.decode_chunked_CHUNK keyBox data offset Hoff).
Qed.

(** Every way [dump] can end. It has changed nothing, and thrown; or it
    has opened the output file, which then holds what the writes took, no
    other file being changed. *)
Lemma dump_inv `{Node.Runtime} (fs fs' : Node.filesystem) (filePath : string)
    (r : result string) :
  Node.dump fs filePath = (r, fs') ->
  ((exists e, r = Throw e) /\ fs' = fs)
  \/ exists data keyBox offset outPath written,
       fs !! filePath = Some data
       /\ Node.prepare data filePath = Ok (keyBox, offset, outPath)
       /\ fs' = <[outPath := written]> fs
       /\ (r = Ok outPath \/ exists e, r = Throw e)
       /\ (writes_are_whole ->
           written `prefix_of` Audio.decode_chunked Audio.CHUNK keyBox data offset
           /\ (r = Ok outPath ->
               written = Audio.decode_chunked Audio.CHUNK keyBox data offset)).
Proof.
  unfold Node.dump. destruct (fs !! filePath) as [data|] eqn:Hfile.
  2:{ intros [= <- <-]. left. split; [by eexists|done]. }
  destruct (Node.prepare data filePath) as [[[keyBox offset] outPath]|e] eqn:Hprep.
  2:{ intros [= <- <-]. left. split; [by eexists|done]. }
  unfold Node.openSync_w. destruct (Node.openSync_error fs outPath) as [e|].
  { intros [= <- <-]. left. split; [by eexists|done]. }
  destruct (Node.write_chunks outPath (<[outPath:=[]]> fs) _) as [pending fs1] eqn:Hloop.
  destruct (write_chunks_inv _ _ _ _ _ _ Hloop) as (written & -> & Hwritten).
  simpl in Hwritten. intros Hend. right.
  exists data, keyBox, offset, outPath, written. do 2 (split; [done|]).
  destruct (Node.closeSync_error _ outPath) as [e|].
  - injection Hend as <- <-. split; [done|]. split; [right; by eexists|].
    intros Hwhole. split; [apply (Hwritten Hwhole)|done].
  - destruct pending as [e|]; injection Hend as <- <-; (split; [done|]).
    + split; [right; by eexists|]. intros Hwhole. split; [apply (Hwritten Hwhole)|done].
    + split; [by left|]. intros Hwhole. destruct (Hwritten Hwhole) as [Hpre Hall].
      split; [done|]. intros _. by apply Hall.
Qed.

(** C8. For every buffer of bytes whose first eight bytes are not the
    magic [43 54 45 4E 46 44 41 4D] (a buffer shorter than eight bytes
    included) both decoders throw their invalid-header error; the Node
    decoder has then opened and written no file: the file system is as it
    was. *)
Theorem invalid_header_aborts `{RN : Node.Runtime} `{RB : Browser.Runtime}
    (fs : Node.filesystem) (filePath : string) (data : list Z) (name : option string) :
  fs !! filePath = Some data ->
  is_bytes data = true ->
  take 8 data <> magic ->
  Node.dump fs filePath = (Throw InvalidHeader, fs)
  /\ Browser.dumpNcm data name = Throw InvalidHeader.
Proof.
  intros Hfile Hbytes Hmagic. split.
  - apply dump_prepare_throws with data; [done|].
    unfold Node.prepare. rewrite node_check_header_spec by done.
    by rewrite bool_decide_eq_false_2.
  - unfold Browser.dumpNcm. rewrite browser_check_header_spec.
    by rewrite bool_decide_eq_false_2.
Qed.

Lemma invalid_header_aborts_witness :
  let fs : Node.filesystem := {[ "song.ncm" := not_a_container ]} in
  Node.dump fs "song.ncm" = (Throw InvalidHeader, fs)
  /\ Browser.dumpNcm not_a_container (Some "song.ncm") = Throw InvalidHeader.
Proof.
  apply invalid_header_aborts.
  - apply lookup_singleton_eq.
  - vm_compute. reflexivity.
  - vm_compute. discriminate.
Defined.

(** C1, as amended. For every container of bytes with the magic and a key
    section that both decoders accept, whose metadata block fails to decode
    (the base64 text, the cipher or the JSON reader throws), the decode
    aborts with that error: the browser decoder returns nothing and the Node
    decoder opens and writes no file. Neither decoder handles the exception,
    so no audio is produced and no format is defaulted. *)
Theorem metadata_failure_aborts `{RN : Node.Runtime} `{RB : Browser.Runtime}
    (fs : Node.filesystem) (filePath : string) (data : list Z) (name : option string)
    (keyBox keyBox' : list Z) (offset offset' metaLength : Z) (e e' : exn) :
  fs !! filePath = Some data ->
  is_bytes data = true ->
  take 8 data = magic ->
  Node.read_key_box data 10 = Ok (keyBox, offset) ->
  Browser.read_key_box data 10 = Ok (keyBox', offset') ->
  Node.readUInt32LE data offset = Ok metaLength ->
  Node.decode_meta (Node.meta_block data (offset + 4) metaLength).1 = Throw e ->
  Browser.decode_meta (Browser.meta_block data (offset + 4) metaLength).1 = Throw e' ->
  Node.dump fs filePath = (Throw e, fs)
  /\ Browser.dumpNcm data name = Throw e'.
Proof.
  intros Hfile Hbytes Hmagic Hkey Hkey' Hlen Hmeta Hmeta'. split.
  - apply dump_prepare_throws with data; [done|].
    unfold Node.prepare. rewrite node_header_ok by done. simpl.
    change (8 + 2) with 10. rewrite Hkey. simpl. unfold Node.read_meta. rewrite Hlen. simpl.
    simpl in Hmeta. by rewrite Hmeta.
  - assert (offset' = offset) as ->.
    { revert Hkey Hkey'. unfold Node.read_key_box, Browser.read_key_box.
      rewrite getUint32_readUInt32LE.
      destruct (Node.readUInt32LE data 10) as [keyLength|]; simpl; [|done].
      destruct (Node.decipher_aes_128_ecb _ _); simpl; [|done].
      destruct (Browser.aes128EcbDecrypt _ _); simpl; [|done].
      congruence. }
    unfold Browser.dumpNcm. rewrite browser_header_ok by done. simpl.
    change (8 + 2) with 10. rewrite Hkey'. simpl. unfold Browser.read_meta.
    rewrite getUint32_readUInt32LE, Hlen. simpl.
    simpl in Hmeta'. by rewrite Hmeta'.
Qed.

Lemma metadata_failure_aborts_witness :
  let fs : Node.filesystem := {[ "song.ncm" := bad_meta_container ]} in
  Node.dump fs "song.ncm" = (Throw DecipherError, fs)
  /\ Browser.dumpNcm bad_meta_container (Some "song.ncm") = Throw InvalidCharacter.
Proof.
  apply (metadata_failure_aborts (RN := node) (RB := browser) _ _ _ _
           (KeyBox.build_key_box flac_key) (KeyBox.build_key_box flac_key) 62 62 26).
  - apply lookup_singleton_eq.
  - vm_compute. reflexivity.
  - vm_compute. reflexivity.
  - vm_compute. reflexivity.
  - vm_compute. reflexivity.
  - vm_compute. reflexivity.
  - vm_compute. reflexivity.
  - vm_compute. reflexivity.
Defined.

(** C1 as stated fails on [bad_meta_container]: the magic is there, both
    decoders build the key box of the derived key, the base64 text of the
    metadata is [!!!!], and both decoders abort, Node on the cipher (its
    base64 reader returns no bytes) and the browser on [atob]. No audio
    comes out and no file is written. *)
Lemma corrupted_metadata_aborts :
  let fs : Node.filesystem := {[ "song.ncm" := bad_meta_container ]} in
  take 8 bad_meta_container = magic
  /\ Node.read_key_box bad_meta_container 10 = Ok (KeyBox.build_key_box flac_key, 62)
  /\ Browser.read_key_box bad_meta_container 10 = Ok (KeyBox.build_key_box flac_key, 62)
  /\ Node.dump fs "song.ncm" = (Throw DecipherError, fs)
  /\ Browser.dumpNcm bad_meta_container (Some "song.ncm") = Throw InvalidCharacter.
Proof. repeat split; vm_compute; reflexivity. Qed.

End DecoderFacts.

(** ** Blocks that announce more bytes than remain (C2) *)

Module BoundsFacts.
Import Str Spec StrFacts ReadFacts DecoderFacts Samples Reference.

Lemma node_skip_image_out_of_range `{Node.Runtime} (data : list Z) (offset : Z) :
  len data < offset + 4 -> Node.skip_image data offset = Throw RangeError.
Proof.
  intros Hout. unfold Node.skip_image.
  by rewrite (readUInt32LE_out_of_range data offset).
Qed.

Lemma browser_skip_image_out_of_range `{Browser.Runtime} (data : list Z) (offset : Z) :
  len data < offset + 4 -> Browser.skip_image data offset = Throw RangeError.
Proof.
  intros Hout. unfold Browser.skip_image.
  by rewrite (getUint32_readUInt32LE data offset), (readUInt32LE_out_of_range data offset).
Qed.

Lemma node_oversized `{Node.Runtime} (data : list Z) (filePath : string) (keyLength : Z) :
  is_bytes data = true -> take 8 data = magic ->
  Node.readUInt32LE data 10 = Ok keyLength ->
  (len data - 14 < keyLength
   \/ exists metaLength,
        Node.readUInt32LE data (14 + keyLength) = Ok metaLength
        /\ len data - (18 + keyLength) < metaLength) ->
  exists e, Node.prepare data filePath = Throw e /\ node_origin data keyLength e.
Proof.
  intros Hbytes Hmagic Hlen Hover. unfold node_origin, Node.prepare.
  rewrite node_header_ok by done. simpl. change (8 + 2) with 10.
  unfold Node.read_key_box. rewrite Hlen. simpl. change (10 + 4) with 14.
  destruct (Node.decipher_aes_128_ecb _ _) as [plain|e] eqn:Hplain; simpl;
    [|exists e; split; [done | right; left; done]].
  unfold Node.read_meta.
  destruct Hover as [Hkey|(metaLength & Hmlen & Hmeta)].
  - rewrite readUInt32LE_out_of_range by lia. simpl.
    exists RangeError. split; [done | by left].
  - rewrite Hmlen. simpl.
    replace (14 + keyLength + 4) with (18 + keyLength) by lia.
    destruct (Node.decode_meta _) as [metaJson|e] eqn:Hdec; simpl;
      [|exists e; split; [done | right; right; by exists metaLength]].
    rewrite node_skip_image_out_of_range by lia. simpl.
    exists RangeError. split; [done | by left].
Qed.

Lemma browser_oversized `{Browser.Runtime} (data : list Z) (name : option string)
    (keyLength : Z) :
  take 8 data = magic ->
  Node.readUInt32LE data 10 = Ok keyLength ->
  (len data - 14 < keyLength
   \/ exists metaLength,
        Node.readUInt32LE data (14 + keyLength) = Ok metaLength
        /\ len data - (18 + keyLength) < metaLength) ->
  exists e, Browser.dumpNcm data name = Throw e /\ browser_origin data keyLength e.
Proof.
  intros Hmagic Hlen Hover. unfold browser_origin, Browser.dumpNcm.
  rewrite browser_header_ok by done. simpl. change (8 + 2) with 10.
  unfold Browser.read_key_box. rewrite getUint32_readUInt32LE, Hlen. simpl.
  change (10 + 4) with 14.
  destruct (Browser.aes128EcbDecrypt _ _) as [plain|e] eqn:Hplain; simpl;
    [|exists e; split; [done | right; left; done]].
  unfold Browser.read_meta. rewrite getUint32_readUInt32LE.
  destruct Hover as [Hkey|(metaLength & Hmlen & Hmeta)].
  - rewrite readUInt32LE_out_of_range by lia. simpl.
    exists RangeError. split; [done | by left].
  - rewrite Hmlen. simpl.
    replace (14 + keyLength + 4) with (18 + keyLength) by lia.
    destruct (Browser.decode_meta _) as [metaJson|e] eqn:Hdec; simpl;
      [|exists e; split; [done | right; right; by exists metaLength]].
    rewrite browser_skip_image_out_of_range by lia. simpl.
    exists RangeError. split; [done | by left].
Qed.

(** C2, as amended. For every container of bytes with the magic in which
    the key block or the metadata block announces more bytes than remain,
    both decoders fail, and a failed Node decode writes no file. The error is
    the [RangeError] of the 32-bit read that follows the block, unless the
    cipher or the metadata decoding has thrown before on the clamped block;
    there is no bounds error of the block itself. The block is cut at the end
    of the buffer: it is never longer than what remains. *)
Theorem oversized_block_fails `{RN : Node.Runtime} `{RB : Browser.Runtime}
    (fs : Node.filesystem) (filePath : string) (data : list Z) (name : option string)
    (keyLength : Z) :
  fs !! filePath = Some data ->
  is_bytes data = true ->
  take 8 data = magic ->
  Node.readUInt32LE data 10 = Ok keyLength ->
  (len data - 14 < keyLength
   \/ exists metaLength,
        Node.readUInt32LE data (14 + keyLength) = Ok metaLength
        /\ len data - (18 + keyLength) < metaLength) ->
  (exists e, Node.dump fs filePath = (Throw e, fs) /\ node_origin data keyLength e)
  /\ (exists e, Browser.dumpNcm data name = Throw e /\ browser_origin data keyLength e)
  /\ len (Node.key_block data 14 keyLength).1 <= len data - 14
  /\ len (Browser.key_block data 14 keyLength).1 <= len data - 14
  /\ (forall metaLength,
        len (Node.meta_block data (18 + keyLength) metaLength).1
          <= Z.max 0 (len data - (18 + keyLength))
        /\ len (Browser.meta_block data (18 + keyLength) metaLength).1
          <= Z.max 0 (len data - (18 + keyLength))).
Proof.
  intros Hfile Hbytes Hmagic Hlen Hover.
  pose proof (readUInt32LE_in_range _ _ _ Hlen) as [_ Hlen14].
  pose proof (readUInt32LE_nonneg _ _ _ Hbytes Hlen) as Hk.
  split; [|split; [|split; [|split]]].
  - destruct (node_oversized data filePath keyLength) as (e & Hprep & Horigin); try done.
    exists e. split; [|done]. by apply dump_prepare_throws with data.
  - by apply browser_oversized.
  - unfold Node.key_block. simpl. unfold len at 1. rewrite length_xor_mask.
    pose proof (length_subarray_le data 14 (14 + keyLength)). unfold len in *. lia.
  - unfold Browser.key_block. simpl. unfold len at 1. rewrite length_xor_mask.
    pose proof (length_subarray_le data 14 (14 + keyLength)). unfold len in *. lia.
  - intros metaLength.
    unfold Node.meta_block, Browser.meta_block. simpl. unfold len at 1 3.
    rewrite !length_xor_mask.
    pose proof (length_subarray_le data (18 + keyLength) (18 + keyLength + metaLength)).
    unfold len in *. lia.
Qed.

Lemma oversized_block_fails_witness :
  let fs : Node.filesystem := {[ "song.ncm" := truncated_key_container ]} in
  let data := truncated_key_container in
  (exists e, Node.dump fs "song.ncm" = (Throw e, fs) /\ node_origin data 48 e)
  /\ (exists e, Browser.dumpNcm data None = Throw e /\ browser_origin data 48 e)
  /\ len (Node.key_block data 14 48).1 <= len data - 14
  /\ len (Browser.key_block data 14 48).1 <= len data - 14
  /\ (forall metaLength,
        len (Node.meta_block data (18 + 48) metaLength).1 <= Z.max 0 (len data - (18 + 48))
        /\ len (Browser.meta_block data (18 + 48) metaLength).1
           <= Z.max 0 (len data - (18 + 48))).
Proof.
  apply (oversized_block_fails (RN := node) (RB := browser)).
  - apply lookup_singleton_eq.
  - vm_compute. reflexivity.
  - vm_compute. reflexivity.
  - vm_compute. reflexivity.
  - left. vm_compute. reflexivity.
Defined.

(** C2 as stated fails on [truncated_key_container]: its key block
    announces 48 bytes and 5 remain; the Node decoder hands the 5 bytes to the
    cipher and fails with the cipher's error, not with a bounds error. *)
Lemma truncated_key_block_is_a_cipher_error :
  let fs : Node.filesystem := {[ "song.ncm" := truncated_key_container ]} in
  take 8 truncated_key_container = magic
  /\ Node.readUInt32LE truncated_key_container 10 = Ok 48
  /\ len truncated_key_container - 14 = 5
  /\ len (Node.key_block truncated_key_container 14 48).1 = 5
  /\ Node.dump fs "song.ncm" = (Throw DecipherError, fs).
Proof. repeat split; vm_compute; reflexivity. Qed.

End BoundsFacts.

(** ** Output names and formats (C9, C10) *)

Module NamingFacts.
Import Str Spec StrFacts ReadFacts DecoderFacts Samples Reference Json.
Local Open Scope string_scope.

(** What a successful [prepare] went through. *)
Lemma prepare_inv `{Node.Runtime} (data : list Z) (filePath : string)
    (keyBox : list Z) (offset : Z) (outPath : string) :
  Node.prepare data filePath = Ok (keyBox, offset, outPath) ->
  exists off1 off2 metaJson format,
    Node.read_key_box data 10 = Ok (keyBox, off1)
    /\ Node.read_meta data off1 = Ok (metaJson, off2)
    /\ Node.skip_image data off2 = Ok offset
    /\ Node.format_of metaJson = Ok format
    /\ outPath = Node.path_join (Node.path_dirname filePath)
                   (replace_ncm_ext (Node.path_basename filePath) ++ "." ++ format).
Proof.
  unfold Node.prepare, Node.check_header.
  destruct (String.eqb _ _); simpl; [|done]. change (0 + 8 + 2) with 10.
  destruct (Node.read_key_box data 10) as [[kb off1]|] eqn:Hkey; simpl; [|done].
  destruct (Node.read_meta data off1) as [[metaJson off2]|] eqn:Hmeta; simpl; [|done].
  destruct (Node.skip_image data off2) as [off3|] eqn:Hskip; simpl; [|done].
  destruct (Node.format_of metaJson) as [format|] eqn:Hfmt; simpl; [|done].
  intros [= <- <- <-]. by exists off1, off2, metaJson, format.
Qed.

(** What a successful [dumpNcm] went through. *)
Lemma dumpNcm_inv `{Browser.Runtime} (bytes : list Z) (name : option string)
    (r : Browser.DumpResult Browser.number) :
  Browser.dumpNcm bytes name = Ok r ->
  exists keyBox off1 off2 off3,
    Browser.read_key_box bytes 10 = Ok (keyBox, off1)
    /\ Browser.read_meta bytes off1 = Ok (Browser.meta r, off2)
    /\ Browser.skip_image bytes off2 = Ok off3
    /\ Browser.format_of (Browser.meta r) = Ok (Browser.format r)
    /\ Browser.filename r = Browser.base_name name ++ "." ++ Browser.format r
    /\ Browser.blob r
       = {| Browser.blob_parts := Audio.decode_audio keyBox (subarray_from bytes off3);
            Browser.blob_type := Browser.mimeFromFormat (Browser.format r) |}.
Proof.
  unfold Browser.dumpNcm, Browser.check_header.
  destruct (forallb _ _); simpl; [|done]. change (0 + 8 + 2) with 10.
  destruct (Browser.read_key_box bytes 10) as [[kb off1]|] eqn:Hkey; simpl; [|done].
  destruct (Browser.read_meta bytes off1) as [[metaJson off2]|] eqn:Hmeta; simpl; [|done].
  destruct (Browser.skip_image bytes off2) as [off3|] eqn:Hskip; simpl; [|done].
  destruct (Browser.format_of metaJson) as [format|] eqn:Hfmt; simpl; [|done].
  intros [= <-]. simpl. by exists kb, off1, off2, off3.
Qed.

(** C9, as amended. For every container both decoders accept, the Node
    decoder writes to the base name of the input path, without a trailing
    extension that is [.ncm] in any mix of upper and lower case, followed by
    a dot and the recovered format, in the directory of the input. The
    browser decoder takes no base name: it strips the same extension from
    the name it is given, as it is given, or from [output.ncm] when no name
    or the empty name is given, and appends a dot and the format it returns.
    So [track.ncm] with the format [mp3] gives [track.mp3], and [Track.NCM]
    is stripped to [Track]. *)
Theorem output_name `{RN : Node.Runtime} `{RB : Browser.Runtime}
    (data : list Z) (filePath : string) (name : option string) (keyBox : list Z)
    (offset : Z) (outPath : string) (r : Browser.DumpResult Browser.number) :
  Node.prepare data filePath = Ok (keyBox, offset, outPath) ->
  Browser.dumpNcm data name = Ok r ->
  (exists stem off1 off2 metaJson format,
     stripped (Node.path_basename filePath) stem
     /\ Node.read_meta data off1 = Ok (metaJson, off2)
     /\ Node.format_of metaJson = Ok format
     /\ outPath = Node.path_join (Node.path_dirname filePath) (stem ++ "." ++ format))
  /\ (exists stem,
        stripped (given_name name) stem
        /\ Browser.format_of (Browser.meta r) = Ok (Browser.format r)
        /\ Browser.filename r = stem ++ "." ++ Browser.format r)
  /\ replace_ncm_ext "track.ncm" ++ "." ++ "mp3" = "track.mp3"
  /\ replace_ncm_ext "Track.NCM" = "Track".
Proof.
  intros Hprep Hdump. split; [|split; [|done]].
  - destruct (prepare_inv _ _ _ _ _ Hprep) as (off1 & off2 & metaJson & format & _ & Hmeta & _ & Hfmt & ->).
    exists (replace_ncm_ext (Node.path_basename filePath)), off1, off2, metaJson, format.
    split; [apply replace_ncm_ext_stripped | done].
  - destruct (dumpNcm_inv _ _ _ Hdump) as (kb & off1 & off2 & off3 & _ & _ & _ & Hfmt & Hfile & _).
    exists (replace_ncm_ext (given_name name)).
    split; [apply replace_ncm_ext_stripped|]. split; [done|].
    rewrite Hfile. by destruct name as [[|c s]|].
Qed.

Lemma output_name_witness :
  (exists stem off1 off2 metaJson format,
     stripped (Node.path_basename "/music/Track.NCM") stem
     /\ Node.read_meta flac_container off1 = Ok (metaJson, off2)
     /\ Node.format_of metaJson = Ok format
     /\ "/music/Track.FLAC"
        = Node.path_join (Node.path_dirname "/music/Track.NCM") (stem ++ "." ++ format))
  /\ (exists stem,
        stripped (given_name (Some "Track.NCM")) stem
        /\ Browser.format_of (JObject [("format", JString "FLAC")]) = Ok "flac"
        /\ "Track.flac" = stem ++ "." ++ "flac")
  /\ replace_ncm_ext "track.ncm" ++ "." ++ "mp3" = "track.mp3"
  /\ replace_ncm_ext "Track.NCM" = "Track".
Proof.
  apply (output_name (RN := node) (RB := browser) flac_container "/music/Track.NCM"
           (Some "Track.NCM") (KeyBox.build_key_box flac_key) flac_payload_offset
           "/music/Track.FLAC"
           {| Browser.blob :=
                {| Browser.blob_parts := [102; 76; 97; 67; 0; 0; 0; 34];
                   Browser.blob_type := "audio/flac" |};
              Browser.filename := "Track.flac";
              Browser.format := "flac";
              Browser.meta := JObject [("format", JString "FLAC")] |}).
  - vm_compute. reflexivity.
  - vm_compute. reflexivity.
Defined.

(** C9 as stated fails for the browser decoder. Given the name
    [dir/x.ncm], whose base name is [x.ncm], it returns [dir/x.flac] and not
    [x.flac]; given the empty name it returns [output.flac] and not
    [.flac]. *)
Lemma browser_keeps_the_name_given :
  Browser.dumpNcm flac_container (Some "dir/x.ncm")
  = Ok ({| Browser.blob :=
             {| Browser.blob_parts := [102; 76; 97; 67; 0; 0; 0; 34];
                Browser.blob_type := "audio/flac" |};
           Browser.filename := "dir/x.flac";
           Browser.format := "flac";
           Browser.meta := JObject [("format", JString "FLAC")] |}
        : Browser.DumpResult Z)
  /\ replace_ncm_ext (Reference.path_basename "dir/x.ncm") ++ "." ++ "flac" = "x.flac"
  /\ Browser.dumpNcm flac_container (Some "")
     = Ok ({| Browser.blob :=
                {| Browser.blob_parts := [102; 76; 97; 67; 0; 0; 0; 34];
                   Browser.blob_type := "audio/flac" |};
              Browser.filename := "output.flac";
              Browser.format := "flac";
              Browser.meta := JObject [("format", JString "FLAC")] |}
           : Browser.DumpResult Z)
  /\ replace_ncm_ext (Reference.path_basename "") ++ "." ++ "flac" = ".flac".
Proof. repeat split; vm_compute; reflexivity. Qed.

(** C10. The browser decoder puts the recovered format in lower case
    before it composes the file name, the MIME type and the format it
    returns; the Node decoder appends the format of the metadata as it is.
    So for every container both decoders accept, whose metadata has a
    non-empty string [s] as format: Node writes to [stem.s], the browser
    returns [stem.lower(s)], the format [lower(s)] and the MIME type of
    [lower(s)]; when [s] has an upper-case letter the two names and the two
    formats differ. [flac_container], whose format is [FLAC], is such a
    container. *)
Theorem browser_lowercases_format `{RN : Node.Runtime} `{RB : Browser.Runtime}
    (data : list Z) (filePath name : string) (keyBox : list Z) (offset : Z)
    (outPath : string) (r : Browser.DumpResult Browser.number) (off1 off2 : Z)
    (metaJson : json Node.number) (s : string) :
  Node.prepare data filePath = Ok (keyBox, offset, outPath) ->
  Node.read_key_box data 10 = Ok (keyBox, off1) ->
  Node.read_meta data off1 = Ok (metaJson, off2) ->
  get_format metaJson = Ok (Some (JString s)) ->
  Browser.dumpNcm data (Some name) = Ok r ->
  get_format (Browser.meta r) = Ok (Some (JString s)) ->
  s <> "" ->
  name <> "" ->
  Node.path_basename filePath = name ->
  outPath = Node.path_join (Node.path_dirname filePath) (replace_ncm_ext name ++ "." ++ s)
  /\ Browser.format r = toLowerCase s
  /\ Browser.filename r = replace_ncm_ext name ++ "." ++ toLowerCase s
  /\ Browser.blob_type (Browser.blob r) = Browser.mimeFromFormat (toLowerCase s)
  /\ (has_upper s = true ->
      Browser.format r <> s /\ Browser.filename r <> replace_ncm_ext name ++ "." ++ s).
Proof.
  intros Hprep Hkey Hmeta Hfmt Hdump Hfmt' Hs Hname Hbase.
  assert (Htruthy : negb (String.eqb s "") = true).
  { by destruct (String.eqb_spec s ""). }
  destruct (prepare_inv _ _ _ _ _ Hprep)
    as (off1' & off2' & metaJson' & format & Hkey1 & Hmeta1 & _ & Hformat & ->).
  rewrite Hkey in Hkey1. injection Hkey1 as <-.
  rewrite Hmeta in Hmeta1. injection Hmeta1 as <- <-.
  unfold Node.format_of in Hformat. rewrite Hfmt in Hformat. simpl in Hformat.
  rewrite Htruthy in Hformat. simpl in Hformat. injection Hformat as <-.
  destruct (dumpNcm_inv _ _ _ Hdump)
    as (kb & o1 & o2 & o3 & _ & _ & _ & Hformat' & Hfile & Hblob).
  unfold Browser.format_of in Hformat'. rewrite Hfmt' in Hformat'. simpl in Hformat'.
  rewrite Htruthy in Hformat'. injection Hformat' as Hlow.
  assert (Hfile' : Browser.filename r = replace_ncm_ext name ++ "." ++ toLowerCase s).
  { rewrite Hfile, <- Hlow. unfold Browser.base_name.
    by destruct (String.eqb_spec name ""). }
  rewrite Hbase. split; [done|]. split; [done|]. split; [done|].
  split; [by rewrite Hblob, <- Hlow|].
  intros Hup. pose proof (toLowerCase_changes s Hup) as Hne. split.
  - by rewrite <- Hlow.
  - rewrite Hfile'. intros Heq. apply append_inj_l in Heq. by apply append_inj_l in Heq.
Qed.

Lemma browser_lowercases_format_witness :
  let r := {| Browser.blob :=
                {| Browser.blob_parts := [102; 76; 97; 67; 0; 0; 0; 34];
                   Browser.blob_type := "audio/flac" |};
              Browser.filename := "song.flac";
              Browser.format := "flac";
              Browser.meta := JObject [("format", JString "FLAC")] |} in
  Browser.dumpNcm flac_container (Some "song.ncm") = Ok r
  /\ Node.prepare flac_container "/music/song.ncm"
     = Ok (KeyBox.build_key_box flac_key, flac_payload_offset, "/music/song.FLAC")
  /\ "/music/song.FLAC"
     = Node.path_join (Node.path_dirname "/music/song.ncm")
         (replace_ncm_ext "song.ncm" ++ "." ++ "FLAC")
  /\ Browser.format r = toLowerCase "FLAC"
  /\ Browser.filename r = replace_ncm_ext "song.ncm" ++ "." ++ toLowerCase "FLAC"
  /\ Browser.blob_type (Browser.blob r) = Browser.mimeFromFormat (toLowerCase "FLAC")
  /\ (has_upper "FLAC" = true ->
      Browser.format r <> "FLAC"
      /\ Browser.filename r <> replace_ncm_ext "song.ncm" ++ "." ++ "FLAC").
Proof.
  intros r.
  split; [vm_compute; reflexivity|]. split; [vm_compute; reflexivity|].
  apply (browser_lowercases_format (RN := node) (RB := browser) flac_container
           "/music/song.ncm" "song.ncm" (KeyBox.build_key_box flac_key)
           flac_payload_offset "/music/song.FLAC" r 62 132
           (JObject [("format", JString "FLAC")]) "FLAC").
  - vm_compute. reflexivity.
  - vm_compute. reflexivity.
  - vm_compute. reflexivity.
  - reflexivity.
  - vm_compute. reflexivity.
  - reflexivity.
  - discriminate.
  - discriminate.
  - vm_compute. reflexivity.
Defined.

End NamingFacts.

(** ** A derived key of zero length (C7) *)

Module EmptyKeyFacts.
Import Str Spec DecoderFacts Samples Reference Json.
Local Open Scope string_scope.

(** C7 as stated fails on [empty_key_container]: its key block decrypts to
    the 17-byte tag [neteasecloudmusic] and nothing else, the derived key is
    empty, and both decoders build the key box of the empty key and decode
    the payload with it; nothing is thrown. *)
Lemma empty_key_is_decoded :
  let fs : Node.filesystem := {[ "track.ncm" := empty_key_container ]} in
  let keyBox := KeyBox.build_key_box [] in
  Node.decipher_aes_128_ecb Node.coreKey (Node.key_block empty_key_container 14 32).1
  = Ok (char_codes "neteasecloudmusic")
  /\ subarray_from (char_codes "neteasecloudmusic") 17 = []
  /\ Node.read_key_box empty_key_container 10 = Ok (keyBox, 46)
  /\ Browser.read_key_box empty_key_container 10 = Ok (keyBox, 46)
  /\ Node.dump fs "track.ncm" = (Ok "track.mp3", <["track.mp3" := [73; 68; 51; 3]]> fs)
  /\ Browser.dumpNcm empty_key_container (Some "track.ncm")
     = Ok {| Browser.blob :=
               {| Browser.blob_parts := [73; 68; 51; 3];
                  Browser.blob_type := "audio/mpeg" |};
             Browser.filename := "track.mp3";
             Browser.format := "mp3";
             Browser.meta := JObject [("musicName", JString "x")] |}.
Proof. repeat split; vm_compute; reflexivity. Qed.

End EmptyKeyFacts.

(** * Further properties of the decoders *)

(** ** The string form of a metadata value *)

Module JsonFacts.
Import Json.
Local Open Scope string_scope.

Lemma toString_array_one {number : Type} (Number_toString : number -> string)
    (x : json number) :
  toString Number_toString (JArray [x])
  = match x with JNull => Ok "" | _ => toString Number_toString x end.
Proof. reflexivity. Qed.

Lemma toString_array_cons {number : Type} (Number_toString : number -> string)
    (x y : json number) (rest : list (json number)) :
  toString Number_toString (JArray (x :: y :: rest))
  = (s ← match x with JNull => Ok "" | _ => toString Number_toString x end;
     t ← toString Number_toString (JArray (y :: rest));
     Ok (s ++ "," ++ t)).
Proof. reflexivity. Qed.

(** The conversion to a string throws nothing but a [TypeError]. *)
Lemma toString_throws_TypeError {number : Type} (Number_toString : number -> string) :
  forall (v : json number) (e : exn),
    toString Number_toString v = Throw e -> e = TypeError.
Proof.
  fix IH 1. intros v e. destruct v as [|b|n|s|items|fields].
  - discriminate.
  - destruct b; discriminate.
  - discriminate.
  - discriminate.
  - revert items e. fix IHitems 1. intros [|x rest] e; [discriminate|].
    assert (Hx : forall e',
               match x with JNull => Ok "" | _ => toString Number_toString x end = Throw e' ->
               e' = TypeError).
    { intros e' He'. apply (IH x). destruct x; first [discriminate He' | exact He']. }
    pose proof (IHitems rest) as Hrest.
    destruct rest as [|y rest'].
    + rewrite toString_array_one. apply Hx.
    + rewrite toString_array_cons.
      destruct (toString Number_toString (JArray (y :: rest'))) as [t|e2] eqn:Hj.
      * destruct (match x with JNull => Ok "" | _ => toString Number_toString x end)
          as [s|e1] eqn:Hel; simpl; [discriminate|].
        intros [= <-]. by apply Hx.
      * destruct (match x with JNull => Ok "" | _ => toString Number_toString x end)
          as [s|e1] eqn:Hel; simpl; intros [= <-]; [by apply Hrest|by apply Hx].
  - simpl. destruct (field "toString" fields); [|discriminate]. by intros [= <-].
Qed.

(** An object is printed as [[object Object]] unless it has a member
    [toString] of its own. *)
Lemma toString_object {number : Type} (Number_toString : number -> string)
    (fields : list (string * json number)) :
  toString Number_toString (JObject fields)
  = match field "toString" fields with
    | Some _ => Throw TypeError
    | None => Ok "[object Object]"
    end.
Proof. reflexivity. Qed.

End JsonFacts.

(** ** What a decode went through, step by step *)

Module StepFacts.
Import Str Spec StrFacts ReadFacts DecoderFacts NamingFacts Json.
Local Open Scope string_scope.

Lemma node_read_key_box_inv `{Node.Runtime} (data : list Z) (o o1 : Z) (keyBox : list Z) :
  Node.read_key_box data o = Ok (keyBox, o1) ->
  exists keyLength plain,
    Node.readUInt32LE data o = Ok keyLength
    /\ Node.decipher_aes_128_ecb Node.coreKey (Node.key_block data (o + 4) keyLength).1
       = Ok plain
    /\ keyBox = KeyBox.build_key_box (subarray_from plain 17)
    /\ o1 = o + 4 + keyLength.
Proof.
  unfold Node.read_key_box.
  destruct (Node.readUInt32LE data o) as [keyLength|] eqn:Hlen; simpl; [|done].
  destruct (Node.decipher_aes_128_ecb _ _) as [plain|] eqn:Hplain; simpl; [|done].
  intros Heq. exists keyLength, plain. split; [done|]. split; [done|].
  revert Heq. generalize (KeyBox.build_key_box (subarray_from plain 17)).
  by intros box [= <- <-].
Qed.

Lemma browser_read_key_box_inv `{Browser.Runtime} (data : list Z) (o o1 : Z)
    (keyBox : list Z) :
  Browser.read_key_box data o = Ok (keyBox, o1) ->
  exists keyLength plain,
    Node.readUInt32LE data o = Ok keyLength
    /\ Browser.aes128EcbDecrypt (Browser.key_block data (o + 4) keyLength).1
         Browser.CORE_KEY_HEX = Ok plain
    /\ keyBox = KeyBox.build_key_box (subarray_from plain 17)
    /\ o1 = o + 4 + keyLength.
Proof.
  unfold Browser.read_key_box. rewrite getUint32_readUInt32LE.
  destruct (Node.readUInt32LE data o) as [keyLength|] eqn:Hlen; simpl; [|done].
  destruct (Browser.aes128EcbDecrypt _ _) as [plain|] eqn:Hplain; simpl; [|done].
  intros Heq. exists keyLength, plain. split; [done|]. split; [done|].
  revert Heq. generalize (KeyBox.build_key_box (subarray_from plain 17)).
  by intros box [= <- <-].
Qed.

Lemma node_read_meta_inv `{Node.Runtime} (data : list Z) (o o2 : Z)
    (metaJson : json Node.number) :
  Node.read_meta data o = Ok (metaJson, o2) ->
  exists metaLength,
    Node.readUInt32LE data o = Ok metaLength
    /\ Node.decode_meta (Node.meta_block data (o + 4) metaLength).1 = Ok metaJson
    /\ o2 = o + 4 + metaLength.
Proof.
  unfold Node.read_meta.
  destruct (Node.readUInt32LE data o) as [metaLength|] eqn:Hlen; simpl; [|done].
  destruct (Node.decode_meta _) as [m|] eqn:Hm; simpl; [|done].
  intros [= <- <-]. by exists metaLength.
Qed.

Lemma browser_read_meta_inv `{Browser.Runtime} (data : list Z) (o o2 : Z)
    (metaJson : json Browser.number) :
  Browser.read_meta data o = Ok (metaJson, o2) ->
  exists metaLength,
    Node.readUInt32LE data o = Ok metaLength
    /\ Browser.decode_meta (Browser.meta_block data (o + 4) metaLength).1 = Ok metaJson
    /\ o2 = o + 4 + metaLength.
Proof.
  unfold Browser.read_meta. rewrite getUint32_readUInt32LE.
  destruct (Node.readUInt32LE data o) as [metaLength|] eqn:Hlen; simpl; [|done].
  destruct (Browser.decode_meta _) as [m|] eqn:Hm; simpl; [|done].
  intros [= <- <-]. by exists metaLength.
Qed.

Lemma node_skip_image_inv `{Node.Runtime} (data : list Z) (o o3 : Z) :
  Node.skip_image data o = Ok o3 ->
  exists crc32 imageSize,
    Node.readUInt32LE data o = Ok crc32
    /\ Node.readUInt32LE data (o + 9) = Ok imageSize
    /\ o3 = o + 13 + imageSize.
Proof.
  unfold Node.skip_image.
  destruct (Node.readUInt32LE data o) as [crc32|] eqn:Hcrc; simpl; [|done].
  replace (o + 4 + 5) with (o + 9) by lia.
  destruct (Node.readUInt32LE data (o + 9)) as [imageSize|] eqn:Hsize; simpl; [|done].
  intros [= <-]. exists crc32, imageSize. repeat split; lia.
Qed.

(** The two decoders skip the checksum and the image alike. *)
Lemma browser_skip_image_node `{Node.Runtime} `{Browser.Runtime} (data : list Z) (o : Z) :
  Browser.skip_image data o = Node.skip_image data o.
Proof.
  unfold Browser.skip_image, Node.skip_image.
  rewrite (getUint32_readUInt32LE data o).
  destruct (Node.readUInt32LE data o); simpl; [|done].
  by rewrite getUint32_readUInt32LE.
Qed.

(** Both decoders find the payload at the same offset: it depends on the
    three length fields only, not on what the runtime makes of the blocks. *)
Lemma payload_offsets_agree `{Node.Runtime} `{Browser.Runtime} (data : list Z)
    (keyBox keyBox' : list Z) (n1 n2 b1 b2 : Z) (m : json Node.number)
    (m' : json Browser.number) (n3 b3 : Z) :
  Node.read_key_box data 10 = Ok (keyBox, n1) ->
  Node.read_meta data n1 = Ok (m, n2) ->
  Node.skip_image data n2 = Ok n3 ->
  Browser.read_key_box data 10 = Ok (keyBox', b1) ->
  Browser.read_meta data b1 = Ok (m', b2) ->
  Browser.skip_image data b2 = Ok b3 ->
  b1 = n1 /\ b2 = n2 /\ b3 = n3.
Proof.
  intros Hk Hm Hs Hk' Hm' Hs'.
  apply node_read_key_box_inv in Hk as (kl & _ & Hkl & _ & _ & ->).
  apply browser_read_key_box_inv in Hk' as (kl' & _ & Hkl' & _ & _ & ->).
  rewrite Hkl in Hkl'. injection Hkl' as <-. split; [done|].
  apply node_read_meta_inv in Hm as (ml & Hml & _ & ->).
  apply browser_read_meta_inv in Hm' as (ml' & Hml' & _ & ->).
  rewrite Hml in Hml'. injection Hml' as <-. split; [done|].
  rewrite browser_skip_image_node, Hs in Hs'. by injection Hs'.
Qed.

Lemma browser_dumpNcm_steps `{Browser.Runtime} (data : list Z) (name : option string)
    (keyBox : list Z) (o1 o2 o3 : Z) (m : json Browser.number) :
  take 8 data = magic ->
  Browser.read_key_box data 10 = Ok (keyBox, o1) ->
  Browser.read_meta data o1 = Ok (m, o2) ->
  Browser.skip_image data o2 = Ok o3 ->
  Browser.dumpNcm data name
  = (format ← Browser.format_of m;
     Ok {| Browser.blob :=
             {| Browser.blob_parts := Audio.decode_audio keyBox (subarray_from data o3);
                Browser.blob_type := Browser.mimeFromFormat format |};
           Browser.filename := Browser.base_name name ++ "." ++ format;
           Browser.format := format;
           Browser.meta := m |}).
Proof.
  intros Hmagic Hk Hm Hs. unfold Browser.dumpNcm.
  rewrite browser_header_ok by done. simpl. change (8 + 2) with 10.
  rewrite Hk. simpl. rewrite Hm. simpl. rewrite Hs. reflexivity.
Qed.

Lemma node_prepare_steps `{Node.Runtime} (data : list Z) (filePath : string)
    (keyBox : list Z) (o1 o2 o3 : Z) (m : json Node.number) :
  is_bytes data = true ->
  take 8 data = magic ->
  Node.read_key_box data 10 = Ok (keyBox, o1) ->
  Node.read_meta data o1 = Ok (m, o2) ->
  Node.skip_image data o2 = Ok o3 ->
  Node.prepare data filePath
  = (format ← Node.format_of m;
     Ok (keyBox, o3,
         Node.path_join (Node.path_dirname filePath)
           (replace_ncm_ext (Node.path_basename filePath) ++ "." ++ format))).
Proof.
  intros Hbytes Hmagic Hk Hm Hs. unfold Node.prepare.
  rewrite node_header_ok by done. simpl. change (8 + 2) with 10.
  rewrite Hk. simpl. rewrite Hm. simpl. rewrite Hs. reflexivity.
Qed.

(** A 32-bit read inside the buffer succeeds. *)
Lemma readUInt32LE_succeeds (data : list Z) (offset : Z) :
  0 <= offset -> offset + 4 <= len data -> exists v, Node.readUInt32LE data offset = Ok v.
Proof.
  intros Hpos Hin. unfold Node.readUInt32LE, get, len in *.
  destruct (Z.ltb_spec offset 0); [lia|].
  destruct (Z.ltb_spec (offset + 3) 0); [lia|].
  destruct (lookup_lt_is_Some_2 data (Z.to_nat offset)) as [x ->]; [lia|].
  destruct (lookup_lt_is_Some_2 data (Z.to_nat (offset + 3))) as [y ->]; [lia|].
  by eexists.
Qed.

(** The image is skipped by adding its announced size to the offset: the
    size is not compared with what remains of the buffer. *)
Lemma node_skip_image_any_size `{Node.Runtime} (data : list Z) (o imageSize : Z) :
  0 <= o ->
  Node.readUInt32LE data (o + 9) = Ok imageSize ->
  Node.skip_image data o = Ok (o + 13 + imageSize).
Proof.
  intros Hpos Hsize. unfold Node.skip_image.
  destruct (readUInt32LE_in_range _ _ _ Hsize) as [_ Hin].
  destruct (readUInt32LE_succeeds data o) as [crc32 ->]; [lia..|]. simpl.
  replace (o + 4 + 5) with (o + 9) by lia. rewrite Hsize. simpl. f_equal. lia.
Qed.

(** The offset after the metadata block is not negative. *)
Lemma node_read_meta_offset_nonneg `{Node.Runtime} (data : list Z) (o o2 : Z)
    (metaJson : json Node.number) :
  is_bytes data = true -> Node.read_meta data o = Ok (metaJson, o2) -> 0 <= o2.
Proof.
  intros Hbytes Hmeta.
  destruct (node_read_meta_inv _ _ _ _ Hmeta) as (metaLength & Hlen & _ & ->).
  pose proof (readUInt32LE_nonneg _ _ _ Hbytes Hlen).
  destruct (readUInt32LE_in_range _ _ _ Hlen). lia.
Qed.

End StepFacts.

(** ** Whole decodes: files written, audio returned, formats and names *)

Module DumpFacts.
Import Str Spec MoreSpec StrFacts ReadFacts DecoderFacts NamingFacts StepFacts Json.
Import Reference Samples MoreSamples.
Local Open Scope string_scope.

(** X1. What [dump] can leave behind, when each write that returns has
    written its chunk. Either it throws with the file system as it was: the
    exception came before the output file was open or from the open. Or the
    output file has been created or truncated and no other file has changed:
    it holds the whole decrypted payload when [dump] returns, and a prefix of
    it when a write or the close has thrown. *)
Theorem dump_leaves_a_prefix `{Node.Runtime} (fs fs' : Node.filesystem)
    (filePath : string) (data : list Z) (r : result string) :
  fs !! filePath = Some data ->
  is_bytes data = true ->
  writes_are_whole ->
  Node.dump fs filePath = (r, fs') ->
  ((exists e, r = Throw e) /\ fs' = fs)
  \/ exists keyBox offset outPath written,
       Node.prepare data filePath = Ok (keyBox, offset, outPath)
       /\ fs' = <[outPath := written]> fs
       /\ written `prefix_of` Audio.decode_audio keyBox (subarray_from data offset)
       /\ ((r = Ok outPath
            /\ written = Audio.decode_audio keyBox (subarray_from data offset))
           \/ exists e, r = Throw e).
Proof.
  intros Hfile Hbytes Hwhole Hdump.
  destruct (dump_inv _ _ _ _ Hdump)
    as [Hnothing|(data' & keyBox & offset & outPath & written & Hfile' & Hprep & -> & Hr & Hw)];
    [by left|right].
  rewrite Hfile in Hfile'. injection Hfile' as <-.
  pose proof (prepare_offset_nonneg _ _ _ _ _ Hbytes Hprep) as Hoff.
  rewrite (ChunkFacts.decode_chunked_CHUNK keyBox data offset Hoff) in Hw.
  destruct (Hw Hwhole) as [Hpre Hall].
  exists keyBox, offset, outPath, written. do 3 (split; [done|]).
  destruct Hr as [->|Hthrow]; [left|by right]. split; [done|by apply Hall].
Qed.

Lemma dump_leaves_a_prefix_witness :
  let fs : Node.filesystem :=
    {[ "song.ncm" := flac_container; "song.FLAC" := [1; 2; 3] ]} in
  let r : result string := Throw SystemError in
  let fs' : Node.filesystem := <["song.FLAC" := []]> fs in
  Node.dump (H := full_disk) fs "song.ncm" = (r, fs')
  /\ (((exists e, r = Throw e) /\ fs' = fs)
      \/ exists keyBox offset outPath written,
           Node.prepare (H := full_disk) flac_container "song.ncm"
           = Ok (keyBox, offset, outPath)
           /\ fs' = <[outPath := written]> fs
           /\ written `prefix_of` Audio.decode_audio keyBox
                                    (subarray_from flac_container offset)
           /\ ((r = Ok outPath
                /\ written = Audio.decode_audio keyBox
                               (subarray_from flac_container offset))
               \/ exists e, r = Throw e)).
Proof.
  intros fs r fs'.
  assert (Hdump : Node.dump (H := full_disk) fs "song.ncm" = (r, fs'))
    by (vm_compute; reflexivity).
  split; [exact Hdump|].
  apply (dump_leaves_a_prefix (H := full_disk) fs fs' "song.ncm" flac_container r).
  - vm_compute. reflexivity.
  - vm_compute. reflexivity.
  - intros fs0 path chunk n Hwrite. discriminate Hwrite.
  - exact Hdump.
Defined.

(** X2. The two decoders produce the same audio: when both accept a
    container and recover the same key box, and the disk takes the output
    file, the file the Node decoder writes holds exactly the bytes of the
    blob the browser decoder returns. *)
Theorem decoders_same_audio `{Node.Runtime} `{Browser.Runtime} (fs : Node.filesystem)
    (filePath : string) (name : option string) (data keyBox : list Z) (offset o1 : Z)
    (outPath : string) (r : Browser.DumpResult Browser.number) :
  fs !! filePath = Some data ->
  is_bytes data = true ->
  Node.prepare data filePath = Ok (keyBox, offset, outPath) ->
  disk_accepts fs outPath ->
  Browser.dumpNcm data name = Ok r ->
  Browser.read_key_box data 10 = Ok (keyBox, o1) ->
  Node.dump fs filePath
  = (Ok outPath, <[outPath := Browser.blob_parts (Browser.blob r)]> fs).
Proof.
  intros Hfile Hbytes Hprep Hdisk Hdump Hkey.
  rewrite (dump_writes_audio fs filePath data keyBox offset outPath) by done.
  destruct (prepare_inv _ _ _ _ _ Hprep) as (n1 & n2 & m & fmt & Hk & Hm & Hs & _ & _).
  destruct (dumpNcm_inv _ _ _ Hdump)
    as (kb' & b1 & b2 & b3 & Hk' & Hm' & Hs' & _ & _ & Hblob).
  destruct (payload_offsets_agree _ _ _ _ _ _ _ _ _ _ _ Hk Hm Hs Hk' Hm' Hs')
    as (-> & -> & ->).
  rewrite Hkey in Hk'. injection Hk' as <- _.
  by rewrite Hblob.
Qed.

Lemma decoders_same_audio_witness :
  let fs : Node.filesystem := {[ "/music/song.ncm" := flac_container ]} in
  Node.dump fs "/music/song.ncm"
  = (Ok "/music/song.FLAC", <["/music/song.FLAC" := [102; 76; 97; 67; 0; 0; 0; 34]]> fs).
Proof.
  intros fs.
  apply (decoders_same_audio (H := node) (H0 := browser) fs "/music/song.ncm"
           (Some "song.ncm") flac_container (KeyBox.build_key_box flac_key)
           flac_payload_offset 62 "/music/song.FLAC"
           {| Browser.blob :=
                {| Browser.blob_parts := [102; 76; 97; 67; 0; 0; 0; 34];
                   Browser.blob_type := "audio/flac" |};
              Browser.filename := "song.flac";
              Browser.format := "flac";
              Browser.meta := JObject [("format", JString "FLAC")] |}).
  - apply lookup_singleton_eq.
  - vm_compute. reflexivity.
  - vm_compute. reflexivity.
  - split; [reflexivity|]. split; intros; reflexivity.
  - vm_compute. reflexivity.
  - vm_compute. reflexivity.
Defined.

(** X3. An image block that announces more bytes than remain is not an
    error. Once the key block and the metadata block have decoded and the
    format is a string, the four bytes of the image size being in the buffer
    is all that is asked of the image: when the size read there reaches or
    passes the end of the buffer, both decoders succeed with no audio. The
    Node decoder, if the open and the close do not throw, leaves an empty
    output file; the browser decoder returns an empty blob. *)
Theorem image_overrun_gives_empty_audio `{Node.Runtime} `{Browser.Runtime}
    (fs : Node.filesystem) (filePath : string) (name : option string)
    (data keyBox keyBox' : list Z) (o1 o2 imageSize : Z) (m : json Node.number)
    (m' : json Browser.number) (format format' outPath : string) :
  fs !! filePath = Some data ->
  is_bytes data = true ->
  take 8 data = magic ->
  Node.read_key_box data 10 = Ok (keyBox, o1) ->
  Node.read_meta data o1 = Ok (m, o2) ->
  Node.format_of m = Ok format ->
  Browser.read_key_box data 10 = Ok (keyBox', o1) ->
  Browser.read_meta data o1 = Ok (m', o2) ->
  Browser.format_of m' = Ok format' ->
  Node.readUInt32LE data (o2 + 9) = Ok imageSize ->
  len data <= o2 + 13 + imageSize ->
  outPath = Node.path_join (Node.path_dirname filePath)
              (Node.out_file_name filePath format) ->
  Node.openSync_error fs outPath = None ->
  Node.closeSync_error (<[outPath := []]> fs) outPath = None ->
  Node.dump fs filePath = (Ok outPath, <[outPath := []]> fs)
  /\ Browser.dumpNcm data name
     = Ok {| Browser.blob :=
               {| Browser.blob_parts := [];
                  Browser.blob_type := Browser.mimeFromFormat format' |};
             Browser.filename := Browser.base_name name ++ "." ++ format';
             Browser.format := format';
             Browser.meta := m' |}.
Proof.
  intros Hfile Hbytes Hmagic Hk Hm Hf Hk' Hm' Hf' Hsize Hover -> Hopen Hclose.
  pose proof (node_read_meta_offset_nonneg _ _ _ _ Hbytes Hm) as Ho2.
  pose proof (node_skip_image_any_size data o2 imageSize Ho2 Hsize) as Hskip.
  pose proof (readUInt32LE_nonneg _ _ _ Hbytes Hsize) as Hsize0.
  assert (Hno_chunk : forall kb,
             Audio.chunk_loop (length data) Audio.CHUNK kb data (o2 + 13 + imageSize) = []).
  { intros kb. destruct (length data) as [|n] eqn:Hlen; [done|]. simpl.
    destruct (Z.ltb_spec (o2 + 13 + imageSize) (len data)); [lia|done]. }
  assert (Hempty : subarray_from data (o2 + 13 + imageSize) = []).
  { rewrite subarray_from_drop by lia.
    apply drop_ge. unfold len in Hover. lia. }
  split.
  - unfold Node.dump. rewrite Hfile.
    rewrite (node_prepare_steps data filePath keyBox o1 o2 _ m Hbytes Hmagic Hk Hm Hskip).
    rewrite Hf. simpl. fold (Node.out_file_name filePath format).
    unfold Node.openSync_w. rewrite Hopen, Hno_chunk. simpl. by rewrite Hclose.
  - rewrite (browser_dumpNcm_steps data name keyBox' o1 o2 (o2 + 13 + imageSize) m'
               Hmagic Hk' Hm').
    + rewrite Hf'. simpl. by rewrite Hempty.
    + by rewrite browser_skip_image_node.
Qed.

Lemma image_overrun_gives_empty_audio_witness :
  let fs : Node.filesystem := {[ "song.ncm" := oversized_image_container ]} in
  Node.dump fs "song.ncm" = (Ok "song.mp3", <["song.mp3" := []]> fs)
  /\ Browser.dumpNcm oversized_image_container None
     = Ok ({| Browser.blob :=
                {| Browser.blob_parts := [];
                   Browser.blob_type := Browser.mimeFromFormat "mp3" |};
              Browser.filename := Browser.base_name None ++ "." ++ "mp3";
              Browser.format := "mp3";
              Browser.meta := JObject [("format", JString "mp3")] |}
           : Browser.DumpResult Z).
Proof.
  intros fs.
  apply (image_overrun_gives_empty_audio (H := node) (H0 := browser) fs "song.ncm" None
           oversized_image_container (KeyBox.build_key_box flac_key)
           (KeyBox.build_key_box flac_key) 62 132 100
           (JObject [("format", JString "mp3")]) (JObject [("format", JString "mp3")])
           "mp3" "mp3" "song.mp3").
  - apply lookup_singleton_eq.
  - vm_compute. reflexivity.
  - vm_compute. reflexivity.
  - vm_compute. reflexivity.
  - vm_compute. reflexivity.
  - vm_compute. reflexivity.
  - vm_compute. reflexivity.
  - vm_compute. reflexivity.
  - vm_compute. reflexivity.
  - vm_compute. reflexivity.
  - vm_compute. discriminate.
  - vm_compute. reflexivity.
  - reflexivity.
  - reflexivity.
Defined.

End DumpFacts.

(** ** The format member of the metadata record *)

Module FormatFacts.
Import Str Spec StrFacts ReadFacts DecoderFacts NamingFacts JsonFacts StepFacts Json.
Import Reference Samples MoreSamples.
Local Open Scope string_scope.

(** X4. The browser decoder needs the format to be a string. When every
    block of the container decodes but the metadata record is [null], or its
    member [format] is a truthy value that is not a string (a number, [true],
    an array, an object), [dumpNcm] throws a [TypeError] and returns no audio. *)
Theorem browser_rejects_non_string_format `{Browser.Runtime} (data : list Z)
    (name : option string) (keyBox : list Z) (o1 o2 o3 : Z) (m : json Browser.number) :
  take 8 data = magic ->
  Browser.read_key_box data 10 = Ok (keyBox, o1) ->
  Browser.read_meta data o1 = Ok (m, o2) ->
  Browser.skip_image data o2 = Ok o3 ->
  (m = JNull
   \/ exists v, get_format m = Ok (Some v)
                /\ truthy Browser.Number_truthy (Some v) = true
                /\ forall s, v <> JString s) ->
  Browser.dumpNcm data name = Throw TypeError.
Proof.
  intros Hmagic Hk Hm Hs Hbad.
  rewrite (browser_dumpNcm_steps data name keyBox o1 o2 o3 m) by done.
  unfold Browser.format_of.
  destruct Hbad as [->|(v & Hv & Htruthy & Hstr)]; [done|].
  rewrite Hv. simpl. simpl in Htruthy.
  destruct v as [|b|n|s|items|fields]; simpl in *; try done.
  - by rewrite Htruthy.
  - by rewrite Htruthy.
  - by destruct (Hstr s).
Qed.

Lemma browser_rejects_non_string_format_witness :
  Browser.dumpNcm boolean_format_container (Some "song.ncm") = Throw TypeError.
Proof.
  apply (browser_rejects_non_string_format (H := browser) boolean_format_container
           (Some "song.ncm") (KeyBox.build_key_box flac_key) 62 132 145
           (JObject [("format", JBool true)])).
  - vm_compute. reflexivity.
  - vm_compute. reflexivity.
  - vm_compute. reflexivity.
  - vm_compute. reflexivity.
  - right. exists (JBool true). split; [reflexivity|]. split; [reflexivity|]. discriminate.
Defined.

(** X5. The Node decoder appends whatever the format is. When every block
    of the container decodes and the member [format] of the metadata record
    is truthy, the extension of the output name is the string form of that
    value, string or not. When the value has no string form, as an object
    with a member [toString] of its own, or when the record is [null],
    [dump] throws a [TypeError] before it opens the output file. *)
Theorem node_coerces_format `{Node.Runtime} (fs : Node.filesystem) (filePath : string)
    (data keyBox : list Z) (o1 o2 o3 : Z) (m : json Node.number) :
  fs !! filePath = Some data ->
  is_bytes data = true ->
  take 8 data = magic ->
  Node.read_key_box data 10 = Ok (keyBox, o1) ->
  Node.read_meta data o1 = Ok (m, o2) ->
  Node.skip_image data o2 = Ok o3 ->
  (m = JNull -> Node.dump fs filePath = (Throw TypeError, fs))
  /\ (forall v,
        get_format m = Ok (Some v) ->
        truthy Node.Number_truthy (Some v) = true ->
        match toString Node.Number_toString v with
        | Ok s =>
            Node.prepare data filePath
            = Ok (keyBox, o3,
                  Node.path_join (Node.path_dirname filePath)
                    (replace_ncm_ext (Node.path_basename filePath) ++ "." ++ s))
        | Throw _ => Node.dump fs filePath = (Throw TypeError, fs)
        end)
  /\ (forall fields x,
        get_format m = Ok (Some (JObject fields)) ->
        field "toString" fields = Some x ->
        Node.dump fs filePath = (Throw TypeError, fs)).
Proof.
  intros Hfile Hbytes Hmagic Hk Hm Hs.
  pose proof (node_prepare_steps data filePath keyBox o1 o2 o3 m Hbytes Hmagic Hk Hm Hs)
    as Hprep.
  assert (Hformat : forall v,
             get_format m = Ok (Some v) ->
             truthy Node.Number_truthy (Some v) = true ->
             Node.format_of m = toString Node.Number_toString v).
  { intros v Hv Htruthy. unfold Node.format_of. rewrite Hv. simpl.
    simpl in Htruthy. by rewrite Htruthy. }
  split; [|split].
  - intros ->. apply dump_prepare_throws with data; [done|]. by rewrite Hprep.
  - intros v Hv Htruthy. rewrite Hprep, (Hformat v Hv Htruthy).
    destruct (toString Node.Number_toString v) as [s|e] eqn:Hstr; [done|].
    apply dump_prepare_throws with data; [done|].
    rewrite Hprep, (Hformat v Hv Htruthy), Hstr.
    by rewrite (toString_throws_TypeError _ _ _ Hstr).
  - intros fields x Hv Hown. apply dump_prepare_throws with data; [done|].
    rewrite Hprep, (Hformat _ Hv eq_refl), toString_object. by rewrite Hown.
Qed.

Lemma node_coerces_format_witness :
  let fs : Node.filesystem := {[ "/music/song.ncm" := boolean_format_container ]} in
  let m : json Z := JObject [("format", JBool true)] in
  (m = JNull -> Node.dump fs "/music/song.ncm" = (Throw TypeError, fs))
  /\ (forall v,
        get_format m = Ok (Some v) ->
        truthy (Node.Number_truthy (Runtime := node)) (Some v) = true ->
        match toString (Node.Number_toString (Runtime := node)) v with
        | Ok s =>
            Node.prepare boolean_format_container "/music/song.ncm"
            = Ok (KeyBox.build_key_box flac_key, 145,
                  Node.path_join (Node.path_dirname "/music/song.ncm")
                    (replace_ncm_ext (Node.path_basename "/music/song.ncm") ++ "." ++ s))
        | Throw _ => Node.dump fs "/music/song.ncm" = (Throw TypeError, fs)
        end)
  /\ (forall fields x,
        get_format m = Ok (Some (JObject fields)) ->
        field "toString" fields = Some x ->
        Node.dump fs "/music/song.ncm" = (Throw TypeError, fs)).
Proof.
  intros fs m.
  apply (node_coerces_format (H := node) fs "/music/song.ncm" boolean_format_container
           (KeyBox.build_key_box flac_key) 62 132 145 m).
  - apply lookup_singleton_eq.
  - vm_compute. reflexivity.
  - vm_compute. reflexivity.
  - vm_compute. reflexivity.
  - vm_compute. reflexivity.
  - vm_compute. reflexivity.
Defined.

(** X6. The default format. When the member [format] of the metadata
    record is missing or falsy (empty string, zero, [false], [null]), both
    decoders take [mp3]: the Node decoder writes to [stem.mp3], the browser
    decoder returns the format [mp3], the name [stem.mp3] and the MIME type
    [audio/mpeg]. *)
Theorem format_defaults_to_mp3 `{Node.Runtime} `{Browser.Runtime} (data : list Z)
    (filePath : string) (name : option string) (keyBox : list Z) (o1 o2 offset : Z)
    (outPath : string) (m : json Node.number) (v : option (json Node.number))
    (r : Browser.DumpResult Browser.number) (v' : option (json Browser.number)) :
  Node.prepare data filePath = Ok (keyBox, offset, outPath) ->
  Node.read_key_box data 10 = Ok (keyBox, o1) ->
  Node.read_meta data o1 = Ok (m, o2) ->
  get_format m = Ok v ->
  truthy Node.Number_truthy v = false ->
  Browser.dumpNcm data name = Ok r ->
  get_format (Browser.meta r) = Ok v' ->
  truthy Browser.Number_truthy v' = false ->
  outPath = Node.path_join (Node.path_dirname filePath)
              (replace_ncm_ext (Node.path_basename filePath) ++ ".mp3")
  /\ Browser.format r = "mp3"
  /\ Browser.filename r = Browser.base_name name ++ ".mp3"
  /\ Browser.blob_type (Browser.blob r) = "audio/mpeg".
Proof.
  intros Hprep Hk Hm Hv Hfalsy Hdump Hv' Hfalsy'.
  assert (Hor : forall (number : Type) (t : number -> bool) (x : option (json number)),
             truthy t x = false -> or_mp3 t x = JString "mp3").
  { intros number t x Hx. unfold or_mp3. destruct x; [|done]. by rewrite Hx. }
  destruct (prepare_inv _ _ _ _ _ Hprep)
    as (n1 & n2 & m1 & format & Hk1 & Hm1 & _ & Hformat & ->).
  rewrite Hk in Hk1. injection Hk1 as <-.
  rewrite Hm in Hm1. injection Hm1 as <- <-.
  unfold Node.format_of in Hformat. rewrite Hv in Hformat. simpl in Hformat.
  rewrite (Hor _ _ _ Hfalsy) in Hformat. injection Hformat as <-.
  destruct (dumpNcm_inv _ _ _ Hdump)
    as (kb & b1 & b2 & b3 & _ & _ & _ & Hformat' & Hfile & Hblob).
  unfold Browser.format_of in Hformat'. rewrite Hv' in Hformat'. simpl in Hformat'.
  rewrite (Hor _ _ _ Hfalsy') in Hformat'. injection Hformat' as Hfmt.
  split; [done|]. split; [done|]. split; [by rewrite Hfile, <- Hfmt|].
  by rewrite Hblob, <- Hfmt.
Qed.

Lemma format_defaults_to_mp3_witness :
  "/music/track.mp3"
  = Node.path_join (Node.path_dirname "/music/track.ncm")
      (replace_ncm_ext (Node.path_basename "/music/track.ncm") ++ ".mp3")
  /\ "mp3" = "mp3"
  /\ "track.mp3" = Browser.base_name (Some "track.ncm") ++ ".mp3"
  /\ "audio/mpeg" = "audio/mpeg".
Proof.
  apply (format_defaults_to_mp3 (H := node) (H0 := browser) empty_key_container
           "/music/track.ncm" (Some "track.ncm") (KeyBox.build_key_box []) 46 116 129
           "/music/track.mp3" (JObject [("musicName", JString "x")]) None
           ({| Browser.blob :=
                 {| Browser.blob_parts := [73; 68; 51; 3];
                    Browser.blob_type := "audio/mpeg" |};
               Browser.filename := "track.mp3";
               Browser.format := "mp3";
               Browser.meta := JObject [("musicName", JString "x")] |}
            : Browser.DumpResult Z) None).
  - vm_compute. reflexivity.
  - vm_compute. reflexivity.
  - vm_compute. reflexivity.
  - reflexivity.
  - reflexivity.
  - vm_compute. reflexivity.
  - reflexivity.
  - reflexivity.
Defined.

(** X7. Without a source name the browser decoder names the download
    [output]: when [opts] or its [sourceFileName] is missing, or the name is
    the empty string, a successful [dumpNcm] returns the file name [output]
    followed by a dot and the format. *)
Theorem browser_default_name `{Browser.Runtime} (data : list Z) (name : option string)
    (r : Browser.DumpResult Browser.number) :
  name = None \/ name = Some "" ->
  Browser.dumpNcm data name = Ok r ->
  Browser.filename r = "output." ++ Browser.format r.
Proof.
  intros Hname Hdump.
  destruct (dumpNcm_inv _ _ _ Hdump) as (kb & b1 & b2 & b3 & _ & _ & _ & _ & Hfile & _).
  rewrite Hfile. by destruct Hname as [-> | ->].
Qed.

Lemma browser_default_name_witness :
  "output.mp3" = "output." ++ "mp3".
Proof.
  apply (browser_default_name (H := browser) oversized_image_container None
           ({| Browser.blob :=
                 {| Browser.blob_parts := []; Browser.blob_type := "audio/mpeg" |};
               Browser.filename := "output.mp3";
               Browser.format := "mp3";
               Browser.meta := JObject [("format", JString "mp3")] |}
            : Browser.DumpResult Z)).
  - by left.
  - vm_compute. reflexivity.
Defined.

End FormatFacts.

(** ** The key box reads its key cyclically *)

Module KeyCycleFacts.
Import KeyBox Spec KeyBoxFacts.

(** The loop after its first [n] iterations. *)
Lemma run_snoc (key : list Z) (n : nat) :
  foldl (step key) init (seq 0 (S n)) = step key (foldl (step key) init (seq 0 n)) n.
Proof. by rewrite seq_S, foldl_app. Qed.

(** [keyOffset] is the iteration number modulo the length of the key. *)
Lemma keyOffset_mod (key : list Z) (n : nat) :
  key <> [] ->
  keyOffset (foldl (step key) init (seq 0 n)) = Z.of_nat n mod len key.
Proof.
  intros Hkey.
  assert (Hlen : 0 < len key) by (unfold len; destruct key; [done | simpl; lia]).
  induction n as [|n IH].
  - simpl. by rewrite Z.mod_0_l by lia.
  - rewrite run_snoc. unfold step at 1. simpl. rewrite IH.
    pose proof (Z.mod_pos_bound (Z.of_nat n) (len key) Hlen) as Hr.
    pose proof (Z.div_mod (Z.of_nat n) (len key) ltac:(lia)) as Hn.
    destruct (Z.leb_spec (len key) (Z.of_nat n mod len key + 1)) as [Hwrap|Hnext].
    + apply Z.mod_unique_pos with (Z.of_nat n / len key + 1); nia.
    + apply Z.mod_unique_pos with (Z.of_nat n / len key); nia.
Qed.

(** Two keys that agree where the loop reads them give the same box. *)
Lemma run_agree (k1 k2 : list Z) (n : nat) :
  k1 <> [] -> k2 <> [] ->
  (forall i : nat, (i < n)%nat ->
     get k1 (Z.of_nat i mod len k1) = get k2 (Z.of_nat i mod len k2)) ->
  keyBox (foldl (step k1) init (seq 0 n)) = keyBox (foldl (step k2) init (seq 0 n))
  /\ lastByte (foldl (step k1) init (seq 0 n)) = lastByte (foldl (step k2) init (seq 0 n)).
Proof.
  intros H1 H2. induction n as [|n IH]; intros Hread; [done|].
  destruct IH as [Hbox Hlast]; [intros i Hi; apply Hread; lia|].
  rewrite !run_snoc.
  pose proof (keyOffset_mod k1 n H1) as Ho1. pose proof (keyOffset_mod k2 n H2) as Ho2.
  pose proof (Hread n ltac:(lia)) as Hn.
  revert Hbox Hlast Ho1 Ho2.
  generalize (foldl (step k1) init (seq 0 n)), (foldl (step k2) init (seq 0 n)).
  intros s1 s2 Hbox Hlast Ho1 Ho2. unfold step. simpl.
  by rewrite Ho1, Ho2, <- Hbox, <- Hlast, <- Hn.
Qed.

Lemma build_key_box_agree (k1 k2 : list Z) :
  k1 <> [] -> k2 <> [] ->
  (forall i : nat, (i < 256)%nat ->
     get k1 (Z.of_nat i mod len k1) = get k2 (Z.of_nat i mod len k2)) ->
  build_key_box k1 = build_key_box k2.
Proof. intros H1 H2 Hread. unfold build_key_box, run. by apply run_agree. Qed.

Lemma get_app_l (a b : list Z) (i : Z) : 0 <= i < len a -> get (a ++ b) i = get a i.
Proof.
  intros Hi. unfold get, len in *. destruct (Z.ltb_spec i 0); [lia|].
  apply lookup_app_l. lia.
Qed.

Lemma get_app_r (a b : list Z) (i : Z) : 0 <= i -> get (a ++ b) (len a + i) = get b i.
Proof.
  intros Hi. unfold get, len in *.
  destruct (Z.ltb_spec (Z.of_nat (length a) + i) 0); [lia|].
  destruct (Z.ltb_spec i 0); [lia|].
  rewrite lookup_app_r by lia. f_equal. lia.
Qed.

(** X8. The key box depends on the key only through the bytes the loop
    reads, which it takes cyclically: a key written twice gives the box of
    the key, and of a key longer than 256 bytes only the first 256 count. *)
Theorem key_is_read_cyclically (key : list Z) :
  build_key_box (key ++ key) = build_key_box key
  /\ build_key_box (take 256 key) = build_key_box key.
Proof.
  destruct key as [|k0 key']; [done|]. set (key := k0 :: key').
  assert (Hlen : 0 < len key) by (unfold len, key; simpl; lia).
  split.
  - apply build_key_box_agree; [done|done|]. intros i Hi.
    assert (Hlen2 : len (key ++ key) = 2 * len key).
    { unfold len. rewrite length_app. lia. }
    rewrite Hlen2.
    pose proof (Z.mod_pos_bound (Z.of_nat i) (len key) Hlen) as Hr.
    pose proof (Z.mod_pos_bound (Z.of_nat i) (2 * len key) ltac:(lia)) as Hr2.
    pose proof (Z.div_mod (Z.of_nat i) (len key) ltac:(lia)) as Hn.
    pose proof (Z.div_mod (Z.of_nat i) (2 * len key) ltac:(lia)) as Hn2.
    destruct (Z.lt_ge_cases (Z.of_nat i mod (2 * len key)) (len key)) as [Hlow|Hhigh].
    + rewrite get_app_l by lia. f_equal.
      apply Z.mod_unique_pos with (2 * (Z.of_nat i / (2 * len key))); nia.
    + replace (Z.of_nat i mod (2 * len key))
        with (len key + (Z.of_nat i mod (2 * len key) - len key)) by lia.
      rewrite get_app_r by lia. f_equal.
      apply Z.mod_unique_pos with (2 * (Z.of_nat i / (2 * len key)) + 1); nia.
  - destruct (Nat.le_gt_cases 256 (length key)) as [Hlong|Hshort].
    + assert (Hlen' : len (take 256 key) = 256).
      { unfold len. rewrite length_take. lia. }
      apply build_key_box_agree.
      * intros Hnil. rewrite Hnil in Hlen'. done.
      * done.
      * intros i Hi. rewrite Hlen'.
        rewrite !Z.mod_small by (unfold len; lia).
        unfold get. destruct (Z.ltb_spec (Z.of_nat i) 0); [lia|].
        rewrite Nat2Z.id. apply lookup_take_lt. lia.
    + by rewrite take_ge by lia.
Qed.

End KeyCycleFacts.

(** ** The chunk loop for any chunk size *)

Module ChunkSizeFacts.
Import Audio Spec MoreSpec AudioFacts ChunkFacts Samples.

Lemma chunk_loop_relative (fuel : nat) (chunk : Z) (keyBox data : list Z) (pos : Z) :
  1 <= chunk -> 0 <= pos -> len data - pos <= Z.of_nat fuel ->
  concat (chunk_loop fuel chunk keyBox data pos)
  = chunk_relative_xor chunk keyBox (drop (Z.to_nat pos) data).
Proof.
  intros Hc. revert pos. induction fuel as [|fuel IH]; intros pos Hpos Hfuel; simpl.
  - rewrite drop_ge by (unfold len in *; lia). done.
  - destruct (Z.ltb_spec pos (len data)) as [Hlt|Hge].
    + simpl. rewrite chunk_is_take by lia.
      rewrite decode_chunk_keystream, IH by lia.
      replace (Z.to_nat (pos + chunk)) with (Z.to_nat pos + Z.to_nat chunk)%nat by lia.
      rewrite <- drop_drop.
      set (rest := drop (Z.to_nat pos) data).
      assert (Hrest : length rest = (length data - Z.to_nat pos)%nat) by apply length_drop.
      rewrite <- (take_drop (Z.to_nat chunk) rest) at 3.
      unfold chunk_relative_xor at 2. rewrite imap_app. f_equal.
      * unfold keystream_xor. apply imap_ext. intros i x Hi. simpl.
        apply lookup_lt_Some in Hi. rewrite length_take in Hi.
        rewrite Z.mod_small by lia. do 4 f_equal.
      * destruct (Z.le_gt_cases (pos + chunk) (len data)) as [Hfull|Hshort].
        -- unfold chunk_relative_xor. apply imap_ext. intros i x _. simpl.
           rewrite length_take.
           replace (Z.of_nat (Z.to_nat chunk `min` length rest + i))
             with (Z.of_nat i + 1 * chunk) by (unfold len in *; lia).
           by rewrite Z.mod_add by lia.
        -- rewrite !drop_ge by (unfold len in *; lia). done.
    + rewrite drop_ge by (unfold len in *; lia). done.
Qed.

(** X9. The Node chunk loop for any chunk size of at least one byte: the
    chunks written, appended, have the length of the payload, and byte [n] is
    the payload byte XORed with the key box entry selected by
    [j = ((n mod chunk) + 1) & 0xff], the position being counted from the
    start of the chunk that holds the byte. *)
Theorem decode_chunked_any_size (chunk : Z) (keyBox data : list Z) (offset : Z) :
  1 <= chunk -> 0 <= offset ->
  decode_chunked chunk keyBox data offset
  = chunk_relative_xor chunk keyBox (subarray_from data offset)
  /\ length (decode_chunked chunk keyBox data offset) = length (subarray_from data offset).
Proof.
  intros Hc Hoff. unfold decode_chunked.
  rewrite chunk_loop_relative by (unfold len; lia).
  rewrite subarray_from_drop by done. split; [done|].
  unfold chunk_relative_xor. apply length_imap.
Qed.

Lemma decode_chunked_any_size_witness :
  decode_chunked 3 (KeyBox.build_key_box flac_key) flac_container flac_payload_offset
  = chunk_relative_xor 3 (KeyBox.build_key_box flac_key)
      (subarray_from flac_container flac_payload_offset)
  /\ length (decode_chunked 3 (KeyBox.build_key_box flac_key) flac_container
               flac_payload_offset)
     = length (subarray_from flac_container flac_payload_offset).
Proof. apply decode_chunked_any_size; unfold flac_payload_offset; lia. Defined.

End ChunkSizeFacts.


(** ** The 32-bit reads *)

Module ReadRangeFacts.
Import Spec ReadFacts Samples.

Lemma at_byte (data : list Z) (i : Z) : is_bytes data = true -> 0 <= at_ data i < 256.
Proof.
  intros Hbytes. unfold at_, get. destruct (i <? 0); simpl; [lia|].
  destruct (data !! Z.to_nat i) as [x|] eqn:Hx; simpl; [|lia].
  apply is_bytes_Forall in Hbytes. rewrite Forall_lookup in Hbytes.
  specialize (Hbytes _ _ Hx). unfold is_u8 in Hbytes. lia.
Qed.

(** X10. The 32-bit reads of the two decoders are one function of the
    buffer and the offset. On a buffer of bytes the read succeeds exactly when
    the four bytes from [offset] lie inside the buffer, with a value from 0 to
    2^32 - 1; otherwise it throws a [RangeError]. *)
Theorem read_uint32 (data : list Z) (offset : Z) :
  is_bytes data = true ->
  Browser.getUint32 data offset = Node.readUInt32LE data offset
  /\ (0 <= offset /\ offset + 4 <= len data ->
      exists v, Node.readUInt32LE data offset = Ok v /\ 0 <= v < 2 ^ 32)
  /\ (~ (0 <= offset /\ offset + 4 <= len data) ->
      Node.readUInt32LE data offset = Throw RangeError).
Proof.
  intros Hbytes. split; [apply getUint32_readUInt32LE|]. split.
  - intros [Hlo Hhi].
    pose proof (at_byte data offset Hbytes) as H0.
    pose proof (at_byte data (offset + 1) Hbytes) as H1.
    pose proof (at_byte data (offset + 2) Hbytes) as H2.
    pose proof (at_byte data (offset + 3) Hbytes) as H3.
    unfold Node.readUInt32LE. unfold at_ in H0, H3.
    assert (Hget : forall i, 0 <= i < len data -> is_Some (get data i)).
    { intros i Hi. unfold get, len in *. destruct (Z.ltb_spec i 0); [lia|].
      apply lookup_lt_is_Some_2. lia. }
    destruct (Hget offset ltac:(lia)) as [first Hfirst].
    destruct (Hget (offset + 3) ltac:(lia)) as [last Hlast].
    rewrite Hfirst, Hlast in *. simpl in H0, H3.
    eexists. split; [done|]. lia.
  - intros Hout. unfold Node.readUInt32LE.
    destruct (get data offset) as [first|] eqn:Hfirst; [|done].
    destruct (get data (offset + 3)) as [last|] eqn:Hlast; [|done].
    exfalso. apply Hout. unfold get, len in *.
    destruct (Z.ltb_spec offset 0); [done|].
    destruct (Z.ltb_spec (offset + 3) 0); [done|].
    apply lookup_lt_Some in Hlast. lia.
Qed.

Lemma read_uint32_witness :
  Browser.getUint32 flac_container 10 = Node.readUInt32LE flac_container 10
  /\ (0 <= 10 /\ 10 + 4 <= len flac_container ->
      exists v, Node.readUInt32LE flac_container 10 = Ok v /\ 0 <= v < 2 ^ 32)
  /\ (~ (0 <= 10 /\ 10 + 4 <= len flac_container) ->
      Node.readUInt32LE flac_container 10 = Throw RangeError).
Proof. apply read_uint32. vm_compute. reflexivity. Defined.

End ReadRangeFacts.

(** ** Word arrays *)

Module WordArrayFacts.
Import Spec MoreSpec ReadFacts Reference Samples.

Lemma lor_shiftl_small (a b k : Z) :
  0 <= k -> 0 <= b < 2 ^ k -> Z.lor (Z.shiftl a k) b = a * 2 ^ k + b.
Proof.
  intros Hk Hb. rewrite Z.shiftl_mul_pow2 by lia.
  assert (Hland : Z.land (a * 2 ^ k) b = 0).
  { apply Z.bits_inj'. intros n Hn. rewrite Z.land_spec, Z.bits_0.
    destruct (Z.lt_ge_cases n k).
    - by rewrite Z.mul_pow2_bits_low by lia.
    - destruct (Z.eq_dec b 0) as [->|Hb0].
      + rewrite Z.bits_0. apply andb_false_r.
      + assert (Z.log2 b < k) by (apply Z.log2_lt_pow2; lia).
        rewrite (Z.bits_above_log2 b n) by lia. apply andb_false_r. }
  rewrite <- Z.lxor_lor by done. by rewrite <- Z.add_nocarry_lxor by done.
Qed.

Lemma pack_word_value (b0 b1 b2 b3 : Z) :
  0 <= b0 < 256 -> 0 <= b1 < 256 -> 0 <= b2 < 256 -> 0 <= b3 < 256 ->
  Browser.uint32 (Browser.pack_word b0 b1 b2 b3)
  = b0 * 2 ^ 24 + b1 * 2 ^ 16 + b2 * 2 ^ 8 + b3.
Proof.
  intros H0 H1 H2 H3. unfold Browser.pack_word, Browser.uint32, Browser.int32.
  assert (Hw : Z.lor (Z.lor (Z.lor (Z.shiftl b0 24) (Z.shiftl b1 16)) (Z.shiftl b2 8)) b3
               = ((b0 * 2 ^ 8 + b1) * 2 ^ 8 + b2) * 2 ^ 8 + b3).
  { replace (Z.shiftl b0 24) with (Z.shiftl (Z.shiftl (Z.shiftl b0 8) 8) 8)
      by (rewrite !Z.shiftl_shiftl by lia; done).
    replace (Z.shiftl b1 16) with (Z.shiftl (Z.shiftl b1 8) 8)
      by (rewrite !Z.shiftl_shiftl by lia; done).
    rewrite <- !Z.shiftl_lor.
    by rewrite !lor_shiftl_small by lia. }
  rewrite Hw. Z.div_mod_to_equations. lia.
Qed.

Lemma word_byte_pack (b0 b1 b2 b3 : Z) :
  0 <= b0 < 256 -> 0 <= b1 < 256 -> 0 <= b2 < 256 -> 0 <= b3 < 256 ->
  word_byte (Browser.pack_word b0 b1 b2 b3) 0 = b0
  /\ word_byte (Browser.pack_word b0 b1 b2 b3) 1 = b1
  /\ word_byte (Browser.pack_word b0 b1 b2 b3) 2 = b2
  /\ word_byte (Browser.pack_word b0 b1 b2 b3) 3 = b3.
Proof.
  intros H0 H1 H2 H3. unfold word_byte. rewrite pack_word_value by done.
  change 255 with (Z.ones 8). rewrite !Z.land_ones, !Z.shiftr_div_pow2 by lia.
  repeat split; simpl; Z.div_mod_to_equations; lia.
Qed.

Lemma list_ind4 (P : list Z -> Prop) :
  P [] -> (forall a, P [a]) -> (forall a b, P [a; b]) -> (forall a b c, P [a; b; c]) ->
  (forall a b c d l, P l -> P (a :: b :: c :: d :: l)) ->
  forall l, P l.
Proof.
  intros H0 H1 H2 H3 H4. fix IH 1.
  intros [|a [|b [|c [|d l]]]]; [done..|]. apply H4, IH.
Qed.

Lemma is_u8_range (b : Z) : is_u8 b = true -> 0 <= b < 256.
Proof. unfold is_u8. lia. Qed.

(** The byte at position [i] of the packed words is byte [i] of the array. *)
Lemma pack_words_byte (u8 : list Z) (i : nat) (x : Z) :
  is_bytes u8 = true -> u8 !! i = Some x ->
  word_byte (at_ (Browser.pack_words u8) (Z.of_nat (i / 4))) (Z.of_nat (i mod 4)) = x.
Proof.
  revert i. induction u8 as [|a|a b|a b c|a b c d l IH] using list_ind4;
    intros i Hbytes Hi; simpl in Hbytes;
    repeat (let H := fresh "Hb" in apply andb_true_iff in Hbytes as [H Hbytes];
            apply is_u8_range in H).
  - done.
  - destruct i as [|i]; [|done]. injection Hi as <-.
    destruct (word_byte_pack a 0 0 0) as (E0 & _); try lia. exact E0.
  - destruct (word_byte_pack a b 0 0) as (E0 & E1 & _); try lia.
    destruct i as [|[|i]]; [| |done]; injection Hi as <-; [exact E0|exact E1].
  - destruct (word_byte_pack a b c 0) as (E0 & E1 & E2 & _); try lia.
    destruct i as [|[|[|i]]]; [| | |done]; injection Hi as <-;
      [exact E0|exact E1|exact E2].
  - destruct (word_byte_pack a b c d) as (E0 & E1 & E2 & E3); try lia.
    destruct i as [|[|[|[|i]]]];
      [injection Hi as <-; exact E0|injection Hi as <-; exact E1
      |injection Hi as <-; exact E2|injection Hi as <-; exact E3|].
    replace (S (S (S (S i)))) with (i + 1 * 4)%nat by lia.
    rewrite Nat.div_add, Nat.Div0.mod_add by lia.
    replace (at_ (Browser.pack_words (a :: b :: c :: d :: l)) (Z.of_nat (i / 4 + 1)))
      with (at_ (Browser.pack_words l) (Z.of_nat (i / 4))).
    { apply IH; [done|]. exact Hi. }
    unfold at_. rewrite !get_lookup. by rewrite Nat.add_1_r.
Qed.

(** X11. Packing a byte array into a CryptoJS word array and unpacking it
    gives the array back: [wordArrayToU8(u8ToWordArray(u8))] is [u8], for
    every length, a multiple of four or not. *)
Theorem word_array_round_trip (u8 : list Z) :
  is_bytes u8 = true ->
  Browser.wordArrayToU8 (Browser.u8ToWordArray u8) = Ok u8.
Proof.
  intros Hbytes. unfold Browser.wordArrayToU8, Browser.u8ToWordArray. simpl.
  destruct (Z.ltb_spec (len u8) 0) as [Hneg|_]; [unfold len in Hneg; lia|].
  f_equal. unfold len. rewrite Nat2Z.id.
  transitivity (imap (fun i (_ : Z) =>
                        word_byte (at_ (Browser.pack_words u8) (Z.shiftr (Z.of_nat i) 2))
                          (Z.of_nat i mod 4)) u8).
  { exact (foldl_insert_fresh
             (fun i (_ : Z) =>
                word_byte (at_ (Browser.pack_words u8) (Z.shiftr (Z.of_nat i) 2))
                  (Z.of_nat i mod 4)) u8 0). }
  apply list_eq. intros i. rewrite list_lookup_imap.
  destruct (u8 !! i) as [x|] eqn:Hi; simpl; [|done]. f_equal.
  rewrite Z.shiftr_div_pow2 by lia. change (2 ^ 2) with 4.
  replace (Z.of_nat i `div` 4) with (Z.of_nat (i / 4)) by apply (Nat2Z.inj_div i 4).
  replace (Z.of_nat i `mod` 4) with (Z.of_nat (i mod 4)) by apply (Nat2Z.inj_mod i 4).
  by apply pack_words_byte.
Qed.

Lemma word_array_round_trip_witness :
  Browser.wordArrayToU8 (Browser.u8ToWordArray truncated_key_container)
  = Ok truncated_key_container.
Proof. apply word_array_round_trip. vm_compute. reflexivity. Defined.

(** X12. [aes128EcbDecrypt] does not check the padding. Its only failure
    is the [RangeError] of [new Uint8Array] on a negative length, which
    happens exactly when CryptoJS leaves a negative number of significant
    bytes; otherwise it returns that many bytes. *)
Theorem aes128EcbDecrypt_outcome `{Browser.Runtime} (data : list Z) (keyHex : string) :
  let decrypted := Browser.CryptoJS_AES_decrypt (Browser.u8ToWordArray data) keyHex in
  (Browser.sigBytes decrypted < 0 ->
   Browser.aes128EcbDecrypt data keyHex = Throw RangeError)
  /\ (0 <= Browser.sigBytes decrypted ->
      exists out, Browser.aes128EcbDecrypt data keyHex = Ok out
                  /\ len out = Browser.sigBytes decrypted
                  /\ is_bytes out = true).
Proof.
  intros decrypted. unfold Browser.aes128EcbDecrypt, Browser.wordArrayToU8.
  fold decrypted. split.
  - intros Hneg. by destruct (Z.ltb_spec (Browser.sigBytes decrypted) 0); [|lia].
  - intros Hpos. destruct (Z.ltb_spec (Browser.sigBytes decrypted) 0); [lia|].
    eexists. split; [done|].
    set (n := Z.to_nat (Browser.sigBytes decrypted)).
    set (g := fun (i : nat) (_ : Z) =>
                Z.land (Z.shiftr (Browser.uint32
                                    (at_ (Browser.words decrypted)
                                       (Z.shiftr (Z.of_nat i) 2)))
                          (24 - Z.of_nat i mod 4 * 8)) 255).
    assert (Hfold : foldl (fun out i => <[i := g i (replicate n 0 !!! i)]> out)
                      (replicate (length (replicate n 0)) 0)
                      (seq 0 (length (replicate n 0)))
                    = imap g (replicate n 0)) by apply foldl_insert_fresh.
    rewrite length_replicate in Hfold. unfold g at 1 in Hfold.
    rewrite Hfold. split.
    + unfold len. rewrite length_imap, length_replicate. lia.
    + apply is_bytes_Forall, Forall_lookup. intros i x Hi.
      rewrite list_lookup_imap in Hi.
      destruct (replicate n 0 !! i); simpl in Hi; [|done]. injection Hi as <-.
      unfold g. apply (is_u8_u8 (Z.shiftr _ _)).
Qed.

End WordArrayFacts.

(** ** The command line *)

Module CliFacts.
Import Str Spec MoreSpec StrFacts Reference Samples MoreSamples.
Local Open Scope string_scope.

Lemma regexp_piece_translation (c : ascii) (rest : string) :
  Cli.replace_questions (Cli.replace_stars (Cli.escape_specials (String c rest)))
  = regexp_piece c
    ++ Cli.replace_questions (Cli.replace_stars (Cli.escape_specials rest)).
Proof.
  unfold regexp_piece.
  destruct (Ascii.eqb_spec c "*") as [->|Hstar]; [reflexivity|].
  destruct (Ascii.eqb_spec c "?") as [->|Hquestion]; [reflexivity|].
  apply Ascii.eqb_neq in Hstar, Hquestion.
  simpl. destruct (Cli.is_regexp_special c);
    do 3 (simpl; rewrite ?Hstar, ?Hquestion); reflexivity.
Qed.

(** X13. The three replacements [expandPaths] chains do not interfere:
    the regular expression built for a pattern is the pattern translated
    character by character, [*] to [.*], [?] to [.], a metacharacter to
    itself after a backslash and any other character to itself, between [^]
    and [$]. *)
Theorem regexp_source_per_character (pattern : string) :
  Cli.regexp_source pattern = "^" ++ regexp_body pattern ++ "$".
Proof.
  unfold Cli.regexp_source. do 2 f_equal.
  induction pattern as [|c rest IH]; [done|].
  rewrite regexp_piece_translation, IH. reflexivity.
Qed.

Section Expansion.
Context `{Node.Runtime} `{Cli.Host}.

Lemma filter_files_ok (baseDir source : string) (entries kept : list string) :
  Cli.filter_files baseDir source entries = Ok kept ->
  kept = List.filter
           (fun e => Cli.RegExp_test source e
                     && is_regular (Cli.isFile (Node.path_join baseDir e)))
           entries.
Proof.
  revert kept. induction entries as [|e rest IH]; intros kept; simpl.
  - by intros [= <-].
  - destruct (Cli.RegExp_test source e); simpl.
    + destruct (Cli.isFile (Node.path_join baseDir e)) as [b|err]; simpl; [|done].
      destruct (Cli.filter_files baseDir source rest) as [k|]; simpl; [|done].
      intros [= <-]. rewrite (IH k eq_refl). by destruct b.
    + destruct (Cli.filter_files baseDir source rest) as [k|]; simpl; [|done].
      intros [= <-]. by rewrite (IH k eq_refl).
Qed.

Lemma filter_files_throws (baseDir source : string) (entries : list string) (err : exn) :
  Cli.filter_files baseDir source entries = Throw err ->
  exists e, e ∈ entries /\ Cli.RegExp_test source e = true
            /\ Cli.isFile (Node.path_join baseDir e) = Throw err.
Proof.
  induction entries as [|e rest IH]; simpl; [done|].
  destruct (Cli.RegExp_test source e) eqn:Hre; simpl.
  - destruct (Cli.isFile (Node.path_join baseDir e)) as [b|err'] eqn:Hstat; simpl.
    + destruct (Cli.filter_files baseDir source rest) as [k|err'']; simpl; [done|].
      intros [= ->]. destruct (IH eq_refl) as (e' & Hin & Hmatch & Hthrow).
      exists e'. split; [by apply elem_of_cons; right|done].
    + intros [= ->]. exists e. split; [apply elem_of_cons; by left|done].
  - destruct (Cli.filter_files baseDir source rest) as [k|err'']; simpl; [done|].
    intros [= ->]. destruct (IH eq_refl) as (e' & Hin & Hmatch & Hthrow).
    exists e'. split; [by apply elem_of_cons; right|done].
Qed.

Lemma expandPaths_throws (arg : string) (err : exn) :
  Cli.expandPaths arg = Throw err ->
  Cli.has_wildcard arg = true
  /\ exists entries e,
       Cli.readdirSync (Node.path_dirname arg) = Ok entries
       /\ e ∈ entries
       /\ Cli.RegExp_test (Cli.regexp_source (Node.path_basename arg)) e = true
       /\ Cli.isFile (Node.path_join (Node.path_dirname arg) e) = Throw err.
Proof.
  unfold Cli.expandPaths. destruct (Cli.has_wildcard arg); simpl; [|done].
  destruct (Cli.readdirSync (Node.path_dirname arg)) as [entries|]; [|done].
  destruct (Cli.filter_files _ _ entries) as [kept|err'] eqn:Hfilter; [done|].
  intros [= ->]. split; [done|].
  destruct (filter_files_throws _ _ _ _ Hfilter) as (e & Hin & Hmatch & Hthrow).
  by exists entries, e.
Qed.

Lemma expand_all_throws (args : list string) (err : exn) :
  Cli.expand_all args = Throw err ->
  exists arg, arg ∈ args /\ Cli.expandPaths arg = Throw err.
Proof.
  induction args as [|a rest IH]; simpl; [done|].
  destruct (Cli.expandPaths a) as [paths|err'] eqn:Ha; simpl.
  - destruct (Cli.expand_all rest) as [more|err'']; simpl; [done|].
    intros [= ->]. destruct (IH eq_refl) as (arg & Hin & Hthrow).
    exists arg. split; [by apply elem_of_cons; right|done].
  - intros [= ->]. exists a. split; [apply elem_of_cons; by left|done].
Qed.



(** X14. What a wildcard argument expands to: the directory entries, in
    the order of the listing, that the regular expression matches and that
    are regular files, each joined to the directory of the argument; a
    directory that cannot be read gives no path and no error. *)
Theorem expandPaths_lists_matching_files (arg : string) (paths : list string) :
  Cli.has_wildcard arg = true ->
  Cli.expandPaths arg = Ok paths ->
  paths
  = match Cli.readdirSync (Node.path_dirname arg) with
    | Throw _ => []
    | Ok entries =>
        map (Node.path_join (Node.path_dirname arg))
          (List.filter
             (fun e =>
                Cli.RegExp_test (Cli.regexp_source (Node.path_basename arg)) e
                && is_regular (Cli.isFile (Node.path_join (Node.path_dirname arg) e)))
             entries)
    end.
Proof.
  intros Hwild. unfold Cli.expandPaths. rewrite Hwild. simpl.
  destruct (Cli.readdirSync (Node.path_dirname arg)) as [entries|]; [|by intros [= <-]].
  destruct (Cli.filter_files _ _ entries) as [kept|] eqn:Hfilter; [|done].
  intros [= <-]. by rewrite (filter_files_ok _ _ _ _ Hfilter).
Qed.

(** X15. The only exception that ends the script is the one [statSync]
    throws on a directory entry that a wildcard argument matches. The script
    has then decoded nothing, printed nothing and changed no file, whatever
    the other arguments are. *)
Theorem stat_failure_aborts_run (args : list string) (fs fs' : Node.filesystem)
    (evs : list Cli.event) (err : exn) :
  Cli.main args fs = (Cli.Uncaught err, evs, fs') ->
  evs = [] /\ fs' = fs
  /\ exists arg entries e,
       arg ∈ args
       /\ Cli.has_wildcard arg = true
       /\ Cli.readdirSync (Node.path_dirname arg) = Ok entries
       /\ e ∈ entries
       /\ Cli.RegExp_test (Cli.regexp_source (Node.path_basename arg)) e = true
       /\ Cli.isFile (Node.path_join (Node.path_dirname arg) e) = Throw err.
Proof.
  unfold Cli.main. destruct args as [|a rest]; [done|].
  destruct (Cli.expand_all (a :: rest)) as [[|t targets]|err'] eqn:Hexp; [done| |].
  - by destruct (Cli.decode_all (t :: targets) fs).
  - intros [= -> <- <-]. do 2 (split; [done|]).
    destruct (expand_all_throws _ _ Hexp) as (arg & Hin & Hthrow).
    destruct (expandPaths_throws _ _ Hthrow) as (Hwild & entries & e & Hdir & He & Hre & Hstat).
    by exists arg, entries, e.
Qed.


End Expansion.

Lemma expandPaths_lists_matching_files_witness :
  Cli.expandPaths (H := node) (H0 := music_host) "/music/*.ncm"
  = Ok ["/music/a.ncm"; "/music/c.ncm"]
  /\ ["/music/a.ncm"; "/music/c.ncm"]
     = map (Reference.path_join "/music")
         (List.filter
            (fun e =>
               ReferenceHost.RegExp_test "^.*\.ncm$" e
               && is_regular (Cli.isFile (Host := music_host)
                                (Reference.path_join "/music" e)))
            ["a.ncm"; "b.NCM"; "cover.jpg"; "c.ncm"; "old.ncm"]).
Proof.
  split; [vm_compute; reflexivity|].
  apply (expandPaths_lists_matching_files (H := node) (H0 := music_host) "/music/*.ncm").
  - vm_compute. reflexivity.
  - vm_compute. reflexivity.
Defined.

Lemma stat_failure_aborts_run_witness :
  let fs : Node.filesystem := {[ "/music/a.ncm" := flac_container ]} in
  Cli.main (H := node) (H0 := dangling_host) ["/music/a.ncm"; "/music/*.ncm"] fs
  = (Cli.Uncaught SystemError, [], fs)
  /\ exists arg entries e,
       arg ∈ ["/music/a.ncm"; "/music/*.ncm"]
       /\ Cli.has_wildcard arg = true
       /\ Cli.readdirSync (Host := dangling_host) (Reference.path_dirname arg) = Ok entries
       /\ e ∈ entries
       /\ ReferenceHost.RegExp_test (Cli.regexp_source (Reference.path_basename arg)) e = true
       /\ Cli.isFile (Host := dangling_host) (Reference.path_join (Reference.path_dirname arg) e)
          = Throw SystemError.
Proof.
  intros fs.
  assert (Hmain : Cli.main (H := node) (H0 := dangling_host)
                    ["/music/a.ncm"; "/music/*.ncm"] fs
                  = (Cli.Uncaught SystemError, [], fs)) by (vm_compute; reflexivity).
  split; [exact Hmain|].
  exact (proj2 (proj2 (stat_failure_aborts_run (H := node) (H0 := dangling_host)
                         _ _ _ _ _ Hmain))).
Defined.


End CliFacts.

(** ** The page *)

Module PageFacts.
Import Str Spec MoreSpec StrFacts Reference Samples MoreSamples Json.
Local Open Scope string_scope.

(** X17. [mimeFromFormat] looks at its argument up to the case of its
    ASCII letters only: a format and its lower case have the same MIME
    type. *)
Theorem mime_ignores_case (format : string) :
  Browser.mimeFromFormat (toLowerCase format) = Browser.mimeFromFormat format.
Proof. unfold Browser.mimeFromFormat. by rewrite toLowerCase_idemp. Qed.

(** X18. The name of the file picked on the page only names the download.
    Two files with the same bytes are both decoded or both rejected with the
    same error, and when decoded they give the same blob, format and
    metadata. *)
Theorem file_name_only_names `{Browser.Runtime} (f1 f2 : App.File) :
  App.file_bytes f1 = App.file_bytes f2 ->
  match App.dumpNcmFile f1, App.dumpNcmFile f2 with
  | Ok r1, Ok r2 =>
      Browser.blob r1 = Browser.blob r2
      /\ Browser.format r1 = Browser.format r2
      /\ Browser.meta r1 = Browser.meta r2
  | Throw e1, Throw e2 => e1 = e2
  | _, _ => False
  end.
Proof.
  intros Hbytes. unfold App.dumpNcmFile. rewrite Hbytes.
  generalize (App.file_bytes f2). intros bytes. unfold Browser.dumpNcm.
  destruct (Browser.check_header bytes) as [offset|]; simpl; [|done].
  destruct (Browser.read_key_box bytes (offset + 2)) as [[keyBox o1]|]; simpl; [|done].
  destruct (Browser.read_meta bytes o1) as [[metaJson o2]|]; simpl; [|done].
  destruct (Browser.skip_image bytes o2) as [o3|]; simpl; [|done].
  by destruct (Browser.format_of metaJson) as [format|]; simpl.
Qed.

Lemma file_name_only_names_witness :
  match App.dumpNcmFile (H := browser) (App.mk_File "song.ncm" flac_container),
        App.dumpNcmFile (H := browser) (App.mk_File "" flac_container) with
  | Ok r1, Ok r2 =>
      Browser.blob r1 = Browser.blob r2
      /\ Browser.format r1 = Browser.format r2
      /\ Browser.meta r1 = Browser.meta r2
  | Throw e1, Throw e2 => e1 = e2
  | _, _ => False
  end.
Proof.
  apply (file_name_only_names (H := browser) (App.mk_File "song.ncm" flac_container)
           (App.mk_File "" flac_container)).
  reflexivity.
Defined.

End PageFacts.

(** ** Arguments without a wildcard *)

Module PlainArgumentFacts.
Import Str Spec MoreSpec StrFacts Reference Samples MoreSamples.
Local Open Scope string_scope.

(** X19. A plain argument that names no file is not an unmatched pattern:
    it is passed to [dump] as it is, and the script reports the failure of
    the read and ends normally, with the file system unchanged. *)
Theorem missing_file_is_reported `{Node.Runtime} `{Cli.Host} (arg : string)
    (fs : Node.filesystem) :
  Cli.has_wildcard arg = false ->
  fs !! arg = None ->
  Cli.main [arg] fs = (Cli.Completed, [Cli.Failed arg SystemError], fs).
Proof.
  intros Hwild Hfile. unfold Cli.main, Cli.expand_all, Cli.expandPaths.
  rewrite Hwild. simpl. unfold Node.dump. by rewrite Hfile.
Qed.

Lemma missing_file_is_reported_witness :
  Cli.main (H := node) (H0 := music_host) ["/music/none.ncm"] ∅
  = (Cli.Completed, [Cli.Failed "/music/none.ncm" SystemError], ∅).
Proof.
  apply (missing_file_is_reported (H := node) (H0 := music_host)).
  - vm_compute. reflexivity.
  - apply lookup_empty.
Defined.

End PlainArgumentFacts.
